(** * UCLA RSU bed-space tracker: ingestion, snapshot store and aggregation

    A shallow embedding of
      - [src/app/api/upload/route.ts]   (interactive upload: [parseLastUpdated], [parseCSV], [POST])
      - [src/scripts/fetch-snapshot.mjs] (scheduled fetch: [parseLastUpdated], [parseCSV], [main])
      - [src/app/page.tsx]               (the aggregation done by [Home], the
                                          chart of [TrendModal], [sortGenders])
      - [src/app/api/data/route.ts]      (the read endpoint: [GET])

    Conventions of the model.
      - A JavaScript string is a [string]: a sequence of code units, each in
        the Latin-1 range 0..255.  Text with code units above 255 is outside
        the model.
      - A JavaScript number holding an integer is a [Z]; [NaN] is [None] in
        the result of [parseInt].  Doubles are exact for integers below
        2^53 in magnitude, larger values are outside the model.
      - [undefined] and [null] are [None].
      - The host environment (wall clock, local time zone, file system,
        network answers) is passed in explicitly. *)

From Stdlib Require Import ZArith List Bool Ascii String Lia Arith.
From Stdlib Require Import Numbers.DecimalString.
From Stdlib Require Import Sorting.Permutation.
Import ListNotations.

Local Open Scope string_scope.
Local Open Scope list_scope.

(** ** JavaScript string primitives *)

Module JS.

Definition code (c : ascii) : N := N_of_ascii c.

Definition LF : ascii := ascii_of_N 10.
Definition CR : ascii := ascii_of_N 13.
Definition nl : string := String LF EmptyString.

(** WhiteSpace and LineTerminator code units below 256: TAB, LF, VT, FF, CR,
    SP and NBSP.  They are what [trim], the regular expression class [\s]
    and the prefix skipped by [parseInt] have in common. *)
Definition isSpace (c : ascii) : bool :=
  let n := code c in
  ((9 <=? n) && (n <=? 13) || (n =? 32) || (n =? 160))%N.

(** [\d] *)
Definition isDigit (c : ascii) : bool :=
  let n := code c in ((48 <=? n) && (n <=? 57))%N.

(** what [.] refuses: the line terminators *)
Definition isLineTerminator (c : ascii) : bool :=
  let n := code c in ((n =? 10) || (n =? 13))%N.

Definition isQuote (c : ascii) : bool := (code c =? 34)%N.

Definition isEmpty (s : string) : bool :=
  match s with EmptyString => true | String _ _ => false end.

(** truthiness of a string value: [!s] is [negb (truthy s)] *)
Definition truthy (s : string) : bool := negb (isEmpty s).

(** truthiness of [string | null | undefined] *)
Definition truthyOpt (o : option string) : bool :=
  match o with Some s => truthy s | None => false end.

(** [a || d] where [a] is a string or undefined *)
Definition orElse (o : option string) (d : string) : string :=
  match o with
  | Some s => if truthy s then s else d
  | None => d
  end.

Fixpoint trimStart (s : string) : string :=
  match s with
  | EmptyString => EmptyString
  | String c s' => if isSpace c then trimStart s' else s
  end.

Fixpoint trimEnd (s : string) : string :=
  match s with
  | EmptyString => EmptyString
  | String c s' =>
      let r := trimEnd s' in
      if isSpace c && isEmpty r then EmptyString else String c r
  end.

(** [s.trim()] *)
Definition trim (s : string) : string := trimEnd (trimStart s).

Fixpoint filterStr (p : ascii -> bool) (s : string) : string :=
  match s with
  | EmptyString => EmptyString
  | String c s' => if p c then String c (filterStr p s') else filterStr p s'
  end.

(** [s.replace(/QUOTE/g, EMPTY)]: every double quote is removed *)
Definition removeQuotes (s : string) : string :=
  filterStr (fun c => negb (isQuote c)) s.

Fixpoint existsStr (p : ascii -> bool) (s : string) : bool :=
  match s with
  | EmptyString => false
  | String c s' => p c || existsStr p s'
  end.

Fixpoint mapStr (f : ascii -> ascii) (s : string) : string :=
  match s with
  | EmptyString => EmptyString
  | String c s' => String (f c) (mapStr f s')
  end.

Definition lowerChar (c : ascii) : ascii :=
  let n := code c in
  if ((65 <=? n) && (n <=? 90)
      || (192 <=? n) && (n <=? 222) && negb (n =? 215))%N
  then ascii_of_N (n + 32) else c.

(** [s.toLowerCase()] *)
Definition toLowerCase (s : string) : string := mapStr lowerChar s.

(** [s.toUpperCase()].  The sharp s (223) becomes SS.  The images of the
    micro sign (181) and of y with diaeresis (255) lie above 255; the model
    leaves these two code units in place.  None of the three is or becomes
    one of the letters A, M, P that the callers look for. *)
Fixpoint toUpperCase (s : string) : string :=
  match s with
  | EmptyString => EmptyString
  | String c s' =>
      let n := code c in
      if (n =? 223)%N then String "S" (String "S" (toUpperCase s'))
      else if ((97 <=? n) && (n <=? 122)
               || (224 <=? n) && (n <=? 254) && negb (n =? 247))%N
      then String (ascii_of_N (n - 32)) (toUpperCase s')
      else String c (toUpperCase s')
  end.

(** [s.includes(kw)] *)
Fixpoint includes (s kw : string) : bool :=
  String.prefix kw s ||
  match s with
  | EmptyString => false
  | String _ s' => includes s' kw
  end.

(** [s.split(sep)] for a one-character separator; the accumulator [cur]
    holds the piece read so far. *)
Fixpoint splitAux (sep : ascii) (s : string) (cur : string) : list string :=
  match s with
  | EmptyString => [cur]
  | String c s' =>
      if Ascii.eqb c sep then cur :: splitAux sep s' EmptyString
      else splitAux sep s' (cur ++ String c EmptyString)
  end.

Definition split (sep : ascii) (s : string) : list string := splitAux sep s EmptyString.

Fixpoint findIndexFrom {A} (p : A -> bool) (l : list A) (i : nat) : option nat :=
  match l with
  | [] => None
  | x :: l' => if p x then Some i else findIndexFrom p l' (S i)
  end.

(** [l.findIndex(p)], [None] for -1 *)
Definition findIndex {A} (p : A -> bool) (l : list A) : option nat :=
  findIndexFrom p l 0.

(** the longest prefix of at most [n] code units satisfying [p], and the rest *)
Fixpoint spanMax (p : ascii -> bool) (n : nat) (s : string) : string * string :=
  match n, s with
  | S n', String c s' =>
      if p c then let (a, b) := spanMax p n' s' in (String c a, b)
      else (EmptyString, s)
  | _, _ => (EmptyString, s)
  end.

Definition digitVal (radix : N) (c : ascii) : option N :=
  let n := code c in
  let v :=
    if ((48 <=? n) && (n <=? 57))%N then Some (n - 48)%N
    else if ((97 <=? n) && (n <=? 122))%N then Some (n - 87)%N
    else if ((65 <=? n) && (n <=? 90))%N then Some (n - 55)%N
    else None in
  match v with
  | Some d => if (d <? radix)%N then Some d else None
  | None => None
  end.

(** value of the longest prefix of digits of [radix]; [None] when the
    prefix is empty.  [acc] is the value read so far, [seen] tells whether
    a digit was read. *)
Fixpoint readDigits (radix : N) (s : string) (acc : N) (seen : bool) : option N :=
  match s with
  | EmptyString => if seen then Some acc else None
  | String c s' =>
      match digitVal radix c with
      | Some d => readDigits radix s' (acc * radix + d)%N true
      | None => if seen then Some acc else None
      end
  end.

(** [parseInt(s)] without a radix argument: leading white space is skipped,
    a sign is read, a [0x] or [0X] prefix selects radix 16, and the longest
    prefix of digits is converted; [None] is NaN. *)
Definition parseInt (s : string) : option Z :=
  let s1 := trimStart s in
  let '(sign, s2) :=
    match s1 with
    | String ch r =>
        if Ascii.eqb ch "-" then ((-1)%Z, r)
        else if Ascii.eqb ch "+" then (1%Z, r)
        else (1%Z, s1)
    | EmptyString => (1%Z, s1)
    end in
  let '(radix, s3) :=
    match s2 with
    | String z (String x r) =>
        if Ascii.eqb z "0" && (Ascii.eqb x "x" || Ascii.eqb x "X")
        then (16%N, r) else (10%N, s2)
    | _ => (10%N, s2)
    end in
  match readDigits radix s3 0%N false with
  | Some v => Some (sign * Z.of_N v)%Z
  | None => None
  end.

(** [parseInt(a) || 0] where [a] is a string or undefined:
    [parseInt(undefined)] is NaN, and NaN and 0 are falsy. *)
Definition parseIntOr0 (o : option string) : Z :=
  match o with
  | Some s => match parseInt s with Some n => n | None => 0%Z end
  | None => 0%Z
  end.

(** [parseInt(s)] where [s] is a captured group of decimal digits, which
    never gives NaN (lemma [parseInt_digits]). *)
Definition parseIntD (s : string) : Z :=
  match parseInt s with Some n => n | None => 0%Z end.

(** the rest of [s] after the code unit [c] it has to start with *)
Definition expect (c : ascii) (s : string) : option string :=
  match s with
  | String c' r => if Ascii.eqb c c' then Some r else None
  | EmptyString => None
  end.

(** [String(n)] for an integer *)
Definition ofInt (n : Z) : string := NilZero.string_of_int (Z.to_int n).

Fixpoint repeatChar (c : ascii) (n : nat) : string :=
  match n with
  | O => EmptyString
  | S n' => String c (repeatChar c n')
  end.

(** [s.padStart(w, "0")] *)
Definition padStart0 (w : nat) (s : string) : string :=
  repeatChar "0" (w - String.length s) ++ s.

End JS.

Import JS.

(** ** The data model ([Row], [Snapshot], [HousingData] of page.tsx) *)

Record Row := mkRow {
  building : string;
  roomType : string;
  gender : string;
  bedSpaces : Z
}.

Record Snapshot := mkSnapshot {
  timestamp : string;
  rows : list Row
}.

Record HousingData := mkHousingData {
  snapshots : list Snapshot;
  lastUpdated : option string
}.

(** ** Dates: the part of the host [Date] object the program uses *)

Module JSDate.

Local Open Scope Z_scope.

Definition msPerDay : Z := 86400000.

(** day number (days since 1970-01-01) of the civil date [y]-[m]-[d] in the
    proleptic Gregorian calendar, [m] in 1..12 *)
Definition daysFromCivil (y m d : Z) : Z :=
  let y' := if m <=? 2 then y - 1 else y in
  let era := y' / 400 in
  let yoe := y' - era * 400 in
  let mp := if m >? 2 then m - 3 else m + 9 in
  let doy := (153 * mp + 2) / 5 + d - 1 in
  let doe := yoe * 365 + yoe / 4 - yoe / 100 + doy in
  era * 146097 + doe - 719468.

(** the civil date of a day number *)
Definition civilFromDays (z : Z) : Z * Z * Z :=
  let z' := z + 719468 in
  let era := z' / 146097 in
  let doe := z' - era * 146097 in
  let yoe := (doe - doe / 1460 + doe / 36524 - doe / 146096) / 365 in
  let doy := doe - (365 * yoe + yoe / 4 - yoe / 100) in
  let mp := (5 * doy + 2) / 153 in
  let d := doy - (153 * mp + 2) / 5 + 1 in
  let m := if mp <? 10 then mp + 3 else mp - 9 in
  let y := yoe + era * 400 in
  (if m <=? 2 then y + 1 else y, m, d).

(** MakeDay(year, month, date) with a zero-based month of any size: months
    beyond 0..11 carry into the year, days beyond the month carry on. *)
Definition makeDay (year month date : Z) : Z :=
  let ym := year + month / 12 in
  let mn := month mod 12 in
  daysFromCivil ym (mn + 1) 1 + date - 1.

Definition makeTime (h mi : Z) : Z := h * 3600000 + mi * 60000.

(** TimeClip: a time value beyond 8.64e15 ms is NaN *)
Definition timeClip (t : Z) : option Z :=
  if Z.abs t <=? 8640000000000000 then Some t else None.

Section Host.

(** The offset of the host's local time zone, in ms east of UTC, at a local
    time given in ms: what the host's time zone data answers. *)
Variable localTZA : Z -> Z.

(** [new Date(y, mo, d, h, mi).getTime()]: the fields are local time; a
    year in 0..99 means 1900 + year. *)
Definition newDateLocal (y mo d h mi : Z) : option Z :=
  let yr := if (0 <=? y) && (y <=? 99) then 1900 + y else y in
  let tlocal := makeDay yr mo d * msPerDay + makeTime h mi in
  timeClip (tlocal - localTZA tlocal).

End Host.

Definition pad (w : nat) (n : Z) : string := padStart0 w (ofInt n).

(** [d.toISOString()] of a time value: always UTC, always ending in Z *)
Definition toISOString (t : Z) : string :=
  let day := t / msPerDay in
  let msd := t mod msPerDay in
  let '(y, m, d) := civilFromDays day in
  let ys :=
    if (0 <=? y) && (y <=? 9999) then pad 4 y
    else ((if (y <? 0)%Z then "-" else "+") ++ pad 6 (Z.abs y))%string in
  (ys ++ "-" ++ pad 2 m ++ "-" ++ pad 2 d ++ "T"
      ++ pad 2 (msd / 3600000) ++ ":" ++ pad 2 ((msd / 60000) mod 60)
      ++ ":" ++ pad 2 ((msd / 1000) mod 60)
      ++ "." ++ pad 3 (msd mod 1000) ++ "Z")%string.

Definition isLeap (y : Z) : bool :=
  (y mod 4 =? 0) && (negb (y mod 100 =? 0) || (y mod 400 =? 0)).

Definition daysInMonth (y m : Z) : Z :=
  if m =? 2 then (if isLeap y then 29 else 28)
  else if (m =? 4) || (m =? 6) || (m =? 9) || (m =? 11) then 30 else 31.

(** exactly [n] decimal digits, then the rest *)
Definition fixedDigits (n : nat) (s : string) : option (Z * string) :=
  let (a, b) := spanMax isDigit n s in
  if Nat.eqb (String.length a) n then Some (parseIntD a, b) else None.

Definition bind {A B} (o : option A) (f : A -> option B) : option B :=
  match o with Some a => f a | None => None end.

(** the zone designator of a date-time string: Z, or a sign and HH:mm *)
Definition parseZone (s : string) : option Z :=
  match s with
  | String "Z" EmptyString => Some 0
  | String sg r =>
      if Ascii.eqb sg "+" || Ascii.eqb sg "-" then
        bind (fixedDigits 2 r) (fun '(oh, r1) =>
        bind (expect ":" r1) (fun r2 =>
        bind (fixedDigits 2 r2) (fun '(om, r3) =>
        if isEmpty r3 && (oh <=? 23) && (om <=? 59) then
          Some ((if Ascii.eqb sg "-" then -1 else 1) * (oh * 60 + om))
        else None)))
      else None
  | EmptyString => None
  end.

(** [new Date(ts).getTime()] for a date-time string of the shape
    YYYY-MM-DDTHH:mm:ss, an optional .sss, and a zone designator, with
    fields in their calendar ranges: the two shapes the writers of the
    store emit.  [None] stands for NaN and for every other string, where
    the answer of the host is not modelled. *)
Definition parse (ts : string) : option Z :=
  bind (fixedDigits 4 ts) (fun '(y, r1) =>
  bind (expect "-" r1) (fun r2 =>
  bind (fixedDigits 2 r2) (fun '(m, r3) =>
  bind (expect "-" r3) (fun r4 =>
  bind (fixedDigits 2 r4) (fun '(d, r5) =>
  bind (expect "T" r5) (fun r6 =>
  bind (fixedDigits 2 r6) (fun '(h, r7) =>
  bind (expect ":" r7) (fun r8 =>
  bind (fixedDigits 2 r8) (fun '(mi, r9) =>
  bind (expect ":" r9) (fun r10 =>
  bind (fixedDigits 2 r10) (fun '(sec, r11) =>
  let '(ms, r12) :=
    match expect "." r11 with
    | Some r => match fixedDigits 3 r with
                | Some (v, r') => (v, r')
                | None => (0, r11)
                end
    | None => (0, r11)
    end in
  bind (parseZone r12) (fun off =>
  if (1 <=? m) && (m <=? 12) && (1 <=? d) && (d <=? daysInMonth y m)
     && (h <=? 23) && (mi <=? 59) && (sec <=? 59)
  then timeClip (daysFromCivil y m d * msPerDay + h * 3600000
                 + mi * 60000 + sec * 1000 + ms - off * 60000)
  else None)))))))))))).

End JSDate.

(** ** The persisted document (data/housing.json) *)

Module Store.

(** What a writer finds on disk: [None] when the file is missing or its
    content does not parse, otherwise the document. *)
Definition File : Type := option HousingData.

Definition emptyHistory : HousingData := mkHousingData [] None.

(** [existing], after the guarded [JSON.parse(readFileSync(...))] *)
Definition load (f : File) : HousingData :=
  match f with
  | Some h => h
  | None => emptyHistory
  end.

(** [existing.snapshots.push(snapshot); existing.lastUpdated = snapshotTime] *)
Definition push (h : HousingData) (s : Snapshot) : HousingData :=
  mkHousingData (snapshots h ++ [s]) (Some (timestamp s)).

End Store.

(** ** Ingestion: the code the two entry points have in common

    [parseCSV] of route.ts (lines 31-88) and of fetch-snapshot.mjs (lines
    68-120) are the same text up to type annotations and layout; each calls
    the [parseLastUpdated] of its own file.  It is embedded once, over the
    resolver it calls.  The regular expression and the computation of the
    hour (route.ts lines 18-26, fetch-snapshot.mjs lines 47-55) are the same
    text as well. *)

Module Ingest.

Record Parsed := mkParsed {
  rows : list Row;
  lastUpdated : option string
}.

(** [{ rows: [], lastUpdated: null }] *)
Definition noData : Parsed := mkParsed [] None.

(** The six groups of the regular expression of [parseLastUpdated]: one
    or two digits, a slash, one or two digits, a slash, four digits, white
    space, one or two digits, a colon, two digits, and whatever follows on
    the line, anchored at both ends. *)
Record StampMatch := mkStampMatch {
  g_month : string;
  g_day : string;
  g_year : string;
  g_hour : string;
  g_minute : string;
  g_rest : string
}.

Definition startsWith (p : ascii -> bool) (s : string) : bool :=
  match s with
  | String c _ => p c
  | EmptyString => false
  end.

(** [cleaned.match(...)].  Digits, the separators and white space exclude
    each other, so the greedy reading of each group is the only one that
    can succeed. *)
Definition matchStamp (s : string) : option StampMatch :=
  let (month, r1) := spanMax isDigit 2 s in
  if isEmpty month then None else
  match expect "/" r1 with
  | None => None
  | Some r2 =>
      let (day, r3) := spanMax isDigit 2 r2 in
      if isEmpty day then None else
      match expect "/" r3 with
      | None => None
      | Some r4 =>
          let (year, r5) := spanMax isDigit 4 r4 in
          if negb (Nat.eqb (String.length year) 4) then None else
          if negb (startsWith isSpace r5) then None else
          let r6 := trimStart r5 in
          let (hour, r7) := spanMax isDigit 2 r6 in
          if isEmpty hour then None else
          match expect ":" r7 with
          | None => None
          | Some r8 =>
              let (minute, r9) := spanMax isDigit 2 r8 in
              if negb (Nat.eqb (String.length minute) 2) then None else
              if existsStr isLineTerminator r9 then None else
              Some (mkStampMatch month day year hour minute r9)
          end
      end
  end.

(** The hour on the 24-hour clock:
    [let h = parseInt(hour);
     if (suffix.includes(PM) && h < 12) h += 12;
     if (suffix.includes(AM) && h === 12) h = 0;]
    with [suffix = match[6]?.trim().toUpperCase() || EMPTY]. *)
Definition hour24 (m : StampMatch) : Z :=
  let suffix := toUpperCase (trim (g_rest m)) in
  let h := parseIntD (g_hour m) in
  let h := if includes suffix "PM" && (h <? 12)%Z then (h + 12)%Z else h in
  let h := if includes suffix "AM" && (h =? 12)%Z then 0%Z else h in
  h.

(** [cells[i]?.replace(/QUOTE/g, EMPTY).trim()] *)
Definition cleanCell (cells : list string) (i : nat) : option string :=
  option_map (fun c => trim (removeQuotes c)) (nth_error cells i).

Definition normHeader (h : string) : string :=
  removeQuotes (toLowerCase (trim h)).

(** [lines[0].split(COMMA).map((h) => h.trim().toLowerCase().replace(...))] *)
Definition headersOf (line : string) : list string :=
  map normHeader (split "," line).

(** [findCol]: the first keyword contained in some header decides, and
    among the headers containing it the leftmost; [None] is -1. *)
Fixpoint findCol (headers : list string) (keywords : list string) : option nat :=
  match keywords with
  | [] => None
  | kw :: rest =>
      match findIndex (fun h => includes h kw) headers with
      | Some idx => Some idx
      | None => findCol headers rest
      end
  end.

Definition buildingKeywords : list string := ["building"; "location"; "hall"; "residence"].
Definition roomTypeKeywords : list string := ["room type"; "roomtype"; "type"; "unit"].
Definition genderKeywords : list string := ["gender"; "sex"; "assignment"].
Definition bedKeywords : list string := ["bed"; "spaces"; "available"; "count"].
Definition updatedKeywords : list string := ["last updated"; "lastupdated"; "updated"].

(** The resolved columns; the two required ones are present once the
    structural check has passed. *)
Record Cols := mkCols {
  buildingIdx : nat;
  roomTypeIdx : option nat;
  genderIdx : option nat;
  bedIdx : nat;
  updatedIdx : option nat
}.

Definition resolve (headers : list string) : option Cols :=
  match findCol headers buildingKeywords, findCol headers bedKeywords with
  | Some b, Some bed =>
      Some (mkCols b (findCol headers roomTypeKeywords)
                   (findCol headers genderKeywords) bed
                   (findCol headers updatedKeywords))
  | _, _ => None
  end.

(** The inner loop over the characters of a data line: a double quote
    toggles [inQuotes] and is dropped, a comma outside quotes ends the
    cell, [cells.push(current.trim())] after the last character. *)
Fixpoint splitCellsAux (line : string) (cells : list string)
    (current : string) (inQuotes : bool) : list string :=
  match line with
  | EmptyString => cells ++ [trim current]
  | String char rest =>
      if isQuote char then splitCellsAux rest cells current (negb inQuotes)
      else if Ascii.eqb char "," && negb inQuotes
      then splitCellsAux rest (cells ++ [trim current]) EmptyString inQuotes
      else splitCellsAux rest cells (current ++ String char EmptyString) inQuotes
  end.

Definition splitCells (line : string) : list string :=
  splitCellsAux line [] EmptyString false.

(** [idx !== -1 ? cells[idx]?.replace(...).trim() || dflt : dflt] *)
Definition optionalField (idx : option nat) (cells : list string)
    (dflt : string) : string :=
  match idx with
  | Some i => orElse (cleanCell cells i) dflt
  | None => dflt
  end.

(** the object pushed onto [rows] *)
Definition rowOf (c : Cols) (cells : list string) (building : string) : Row :=
  mkRow building
        (optionalField (roomTypeIdx c) cells "Unknown")
        (optionalField (genderIdx c) cells "All")
        (parseIntOr0 (option_map removeQuotes (nth_error cells (bedIdx c)))).

Section Resolver.

(** the [parseLastUpdated] of the file at hand *)
Variable parseLastUpdated : string -> option string.

(** [!lastUpdated && updatedIdx !== -1 && cells[updatedIdx]]: the cell to
    hand to the resolver, if the guard holds *)
Definition stampCell (c : Cols) (cells : list string)
    (lastUpdated : option string) : option string :=
  if truthyOpt lastUpdated then None else
  match updatedIdx c with
  | Some u =>
      match nth_error cells u with
      | Some cell => if truthy cell then Some cell else None
      | None => None
      end
  | None => None
  end.

(** The loop over the data lines, each already cut into its cells; it
    threads [lastUpdated] and yields the rows in file order. *)
Fixpoint loop (c : Cols) (table : list (list string))
    (lastUpdated : option string) : list Row * option string :=
  match table with
  | [] => ([], lastUpdated)
  | cells :: rest =>
      match cleanCell cells (buildingIdx c) with
      | Some building =>
          if truthy building then
            let lastUpdated' :=
              match stampCell c cells lastUpdated with
              | Some cell => parseLastUpdated cell
              | None => lastUpdated
              end in
            let (rs, lu) := loop c rest lastUpdated' in
            (rowOf c cells building :: rs, lu)
          else loop c rest lastUpdated
      | None => loop c rest lastUpdated
      end
  end.

(** the part of [parseCSV] after the lines are cut: the normalised header
    cells, and each data line as its cells *)
Definition parseTable (headers : list string) (table : list (list string)) : Parsed :=
  match resolve headers with
  | Some c => let (rs, lu) := loop c table None in mkParsed rs lu
  | None => noData
  end.

Definition linesOf (text : string) : list string := split LF (trim text).

Definition parseCSV (text : string) : Parsed :=
  let lines := linesOf text in
  if Nat.ltb (List.length lines) 2 then noData
  else parseTable (headersOf (hd EmptyString lines)) (map splitCells (tl lines)).

End Resolver.

End Ingest.

(** ** The scheduled fetch (fetch-snapshot.mjs) *)

Module Fetch.

(** 2026 DST starts March 8: before that is PST (UTC-8), after is PDT (UTC-7) *)
Definition parseLastUpdated (raw : string) : option string :=
  if negb (truthy raw) then None else
  let cleaned := trim (removeQuotes raw) in
  match Ingest.matchStamp cleaned with
  | None => None
  | Some mt =>
      let h := Ingest.hour24 mt in
      let mm := padStart0 2 (ofInt (parseIntD (Ingest.g_month mt))) in
      let dd := padStart0 2 (ofInt (parseIntD (Ingest.g_day mt))) in
      let hh := padStart0 2 (ofInt h) in
      let mi := padStart0 2 (ofInt (parseIntD (Ingest.g_minute mt))) in
      let m := parseIntD (Ingest.g_month mt) in
      let d := parseIntD (Ingest.g_day mt) in
      let isPDT := ((m >? 3) || (m =? 3) && (d >=? 8))%Z in
      let offset := if isPDT then "-07:00" else "-08:00" in
      Some (Ingest.g_year mt ++ "-" ++ mm ++ "-" ++ dd ++ "T" ++ hh ++ ":" ++ mi
              ++ ":00" ++ offset)%string
  end.

Definition parseCSV : string -> Ingest.Parsed := Ingest.parseCSV parseLastUpdated.

(** [fetchCSV]: the two addresses are tried in order; [answers] holds for
    each the body of an ok response, or [None] when the request failed or
    was not ok.  A body is taken when it has a comma and more than two
    lines; [None] stands for the exception thrown at the end. *)
Definition looksLikeCSV (text : string) : bool :=
  includes text "," && Nat.ltb 2 (List.length (split LF text)).

Fixpoint fetchCSV (answers : list (option string)) : option string :=
  match answers with
  | [] => None
  | Some text :: rest => if looksLikeCSV text then Some text else fetchCSV rest
  | None :: rest => fetchCSV rest
  end.

Inductive Outcome :=
| FetchFailed                (* console.error, process.exit(1) *)
| NoRowsParsed               (* console.error, process.exit(1) *)
| Skipped (snapshotTime : string)   (* already exists, process.exit(0) *)
| Saved (total : nat)
| WriteThrew.                (* writeFileSync threw: the promise rejects *)

(** [main]: what the run reports, and the file afterwards.  [now] is
    [new Date().toISOString()] at the time of the run, [diskOk] tells
    whether [writeFileSync] succeeds. *)
Definition main (answers : list (option string)) (now : string)
    (diskOk : bool) (file : Store.File) : Outcome * Store.File :=
  match fetchCSV answers with
  | None => (FetchFailed, file)
  | Some csvText =>
      let parsed := parseCSV csvText in
      let rows := Ingest.rows parsed in
      let csvTimestamp := Ingest.lastUpdated parsed in
      if Nat.eqb (List.length rows) 0 then (NoRowsParsed, file)
      else
        let existing := Store.load file in
        let snapshotTime := orElse csvTimestamp now in
        if existsb (fun s => String.eqb (timestamp s) snapshotTime)
                   (snapshots existing)
        then (Skipped snapshotTime, file)
        else
          let existing' := Store.push existing (mkSnapshot snapshotTime rows) in
          if diskOk then (Saved (List.length (snapshots existing')), Some existing')
          else (WriteThrew, file)
  end.

End Fetch.

(** ** The interactive upload (route.ts) *)

Module Upload.

Section Host.

Variable localTZA : Z -> Z.

Definition parseLastUpdated (raw : string) : option string :=
  if negb (truthy raw) then None else
  let cleaned := trim (removeQuotes raw) in
  match Ingest.matchStamp cleaned with
  | None => None
  | Some mt =>
      let h := Ingest.hour24 mt in
      let d := JSDate.newDateLocal localTZA
                 (parseIntD (Ingest.g_year mt))
                 (parseIntD (Ingest.g_month mt) - 1)%Z
                 (parseIntD (Ingest.g_day mt)) h
                 (parseIntD (Ingest.g_minute mt)) in
      match d with
      | None => None
      | Some t => Some (JSDate.toISOString t)
      end
  end.

Definition parseCSV : string -> Ingest.Parsed := Ingest.parseCSV parseLastUpdated.

(** the environment of one request *)
Record Env := mkEnv {
  adminPassword : option string;   (* process.env.ADMIN_PASSWORD *)
  now : string;                    (* new Date().toISOString() *)
  diskOk : bool                    (* ensureDataDir and writeFileSync succeed *)
}.

Record Request := mkRequest {
  password : option string;        (* the x-admin-password header *)
  file : option string             (* the text of the uploaded file *)
}.

Inductive Response :=
| PasswordNotSet                         (* 500 *)
| InvalidPassword                        (* 401 *)
| NoFileProvided                         (* 400 *)
| CouldNotParseAnyRows                   (* 400 *)
| Success (rowsImported totalSnapshots : nat)
| ServerError.                           (* 500, a caught exception *)

Definition samePassword (given : option string) (correct : string) : bool :=
  match given with
  | Some p => String.eqb p correct
  | None => false
  end.

(** [POST]: the response, and the file afterwards *)
Definition POST (env : Env) (request : Request) (stored : Store.File)
    : Response * Store.File :=
  match adminPassword env with
  | None => (PasswordNotSet, stored)
  | Some correctPassword =>
      if negb (truthy correctPassword) then (PasswordNotSet, stored)
      else if negb (samePassword (password request) correctPassword)
      then (InvalidPassword, stored)
      else
        match file request with
        | None => (NoFileProvided, stored)
        | Some text =>
            let result := parseCSV text in
            let parsed := Ingest.rows result in
            let csvTimestamp := Ingest.lastUpdated result in
            if Nat.eqb (List.length parsed) 0 then (CouldNotParseAnyRows, stored)
            else if negb (diskOk env) then (ServerError, stored)
            else
              let existing := Store.load stored in
              let snapshotTime := orElse csvTimestamp (now env) in
              let snapshot := mkSnapshot snapshotTime parsed in
              let existing' := Store.push existing snapshot in
              (Success (List.length parsed) (List.length (snapshots existing')),
               Some existing')
        end
  end.

End Host.

End Upload.

(** ** The aggregation of the page (page.tsx, [Home])

    The file holds two copies of the page one after the other; the code
    embedded here, from [latest] to [table], is the same text in both
    (lines 217-287 and 669-734) up to comments. *)

(** A JavaScript object used as a map from strings: the own properties in
    insertion order.  The keys used here all start with a brace, so none
    meets a property inherited from [Object.prototype]. *)
Module Obj.

Definition t (A : Type) : Type := list (string * A).

Fixpoint get {A} (o : t A) (k : string) : option A :=
  match o with
  | [] => None
  | (k', v) :: o' => if String.eqb k' k then Some v else get o' k
  end.

(** [k in o] *)
Definition has {A} (o : t A) (k : string) : bool :=
  match get o k with Some _ => true | None => false end.

(** [o[k] = v]: an existing property keeps its place, a new one goes last *)
Fixpoint set {A} (o : t A) (k : string) (v : A) : t A :=
  match o with
  | [] => [(k, v)]
  | (k', v') :: o' =>
      if String.eqb k' k then (k', v) :: o' else (k', v') :: set o' k v
  end.

(** [Object.values(o)] *)
Definition values {A} (o : t A) : list A := map snd o.

End Obj.

Module GroupedRow.

Record t := mk {
  key : string;
  building : string;
  roomType : string;
  totalBeds : Z;
  byGender : Obj.t Z;
  change : option Z
}.

End GroupedRow.

Module View.

Definition DQ : ascii := ascii_of_N 34.

Definition hexDigit (n : N) : ascii :=
  ascii_of_N (if (n <? 10)%N then 48 + n else 87 + n).

(** one code unit inside a JSON string: the quote and the backslash are
    escaped, control characters get their short escape or a u-escape *)
Definition jsonChar (c : ascii) : string :=
  let n := code c in
  if (n =? 34)%N then String "\" (String DQ EmptyString)
  else if (n =? 92)%N then "\\"
  else if (n =? 8)%N then "\b"
  else if (n =? 9)%N then "\t"
  else if (n =? 10)%N then "\n"
  else if (n =? 12)%N then "\f"
  else if (n =? 13)%N then "\r"
  else if (n <? 32)%N then
    ("\u00" ++ String (hexDigit (n / 16)) (String (hexDigit (n mod 16)) EmptyString))%string
  else String c EmptyString.

Fixpoint jsonChars (s : string) : string :=
  match s with
  | EmptyString => EmptyString
  | String c s' => (jsonChar c ++ jsonChars s')%string
  end.

(** [JSON.stringify(s)] of a string *)
Definition jsonString (s : string) : string :=
  (String DQ (jsonChars s) ++ String DQ EmptyString)%string.

(** [JSON.stringify({ building: r.building, roomType: r.roomType })] *)
Definition groupKey (r : Row) : string :=
  ("{" ++ jsonString "building" ++ ":" ++ jsonString (building r) ++ ","
       ++ jsonString "roomType" ++ ":" ++ jsonString (roomType r) ++ "}")%string.

(** the filter state of the page *)
Record Filter := mkFilter {
  f_gender : string;
  f_building : string;
  f_roomType : string;
  f_q : string
}.

Definition noFilter : Filter := mkFilter "All" "All" "All" EmptyString.

Inductive SortField := ByBuilding | ByRoomType | ByBedSpaces | ByChange.
Inductive SortDir := Asc | Desc.

(** [data.snapshots.length ? data.snapshots[data.snapshots.length - 1].rows : []] *)
Definition latest (data : HousingData) : list Row :=
  let n := List.length (snapshots data) in
  if Nat.eqb n 0 then []
  else match nth_error (snapshots data) (n - 1) with
       | Some s => rows s
       | None => []
       end.

(** [data.snapshots.length > 1 ? data.snapshots[data.snapshots.length - 2].rows : null] *)
Definition prev (data : HousingData) : option (list Row) :=
  let n := List.length (snapshots data) in
  if Nat.ltb 1 n then option_map rows (nth_error (snapshots data) (n - 2))
  else None.

(** the four filters, applied one after the other to [latest] and to [prev] alike *)
Definition applyFilter (flt : Filter) (f : list Row) : list Row :=
  let f := if negb (String.eqb (f_gender flt) "All")
           then filter (fun r => String.eqb (gender r) (f_gender flt)) f else f in
  let f := if negb (String.eqb (f_building flt) "All")
           then filter (fun r => String.eqb (building r) (f_building flt)) f else f in
  let f := if negb (String.eqb (f_roomType flt) "All")
           then filter (fun r => String.eqb (roomType r) (f_roomType flt)) f else f in
  if truthy (f_q flt) then
    let lq := toLowerCase (f_q flt) in
    filter (fun r => includes (toLowerCase (building r)) lq
                     || includes (toLowerCase (roomType r)) lq) f
  else f.

(** [o[k] || 0] for a map to numbers *)
Definition getOr0 (o : Obj.t Z) (k : string) : Z :=
  match Obj.get o k with Some v => v | None => 0%Z end.

(** [for (const r of f) { ...; g[k] = (g[k] || 0) + r.bedSpaces; }] *)
Fixpoint sumByKey (f : list Row) (g : Obj.t Z) : Obj.t Z :=
  match f with
  | [] => g
  | r :: f' =>
      let k := groupKey r in
      sumByKey f' (Obj.set g k (getOr0 g k + bedSpaces r)%Z)
  end.

Definition prevTotals (flt : Filter) (prev : option (list Row)) : option (Obj.t Z) :=
  match prev with
  | None => None
  | Some p => Some (sumByKey (applyFilter flt p) [])
  end.

(** The body of the grouping loop.  [byGender[r.gender] || 0] reads an own
    property; a gender named like a property of [Object.prototype] is
    outside the model. *)
Definition addRow (g : Obj.t GroupedRow.t) (r : Row) : Obj.t GroupedRow.t :=
  let k := groupKey r in
  let cur :=
    match Obj.get g k with
    | Some row => row
    | None => GroupedRow.mk k (building r) (roomType r) 0%Z [] None
    end in
  Obj.set g k
    (GroupedRow.mk (GroupedRow.key cur) (GroupedRow.building cur)
       (GroupedRow.roomType cur)
       (GroupedRow.totalBeds cur + bedSpaces r)%Z
       (Obj.set (GroupedRow.byGender cur) (gender r)
          (getOr0 (GroupedRow.byGender cur) (gender r) + bedSpaces r)%Z)
       (GroupedRow.change cur)).

Definition group (f : list Row) : Obj.t GroupedRow.t :=
  fold_left addRow f [].

(** [if (prevTotals && row.key in prevTotals) row.change = row.totalBeds - prevTotals[row.key]] *)
Definition withChange (pt : option (Obj.t Z)) (row : GroupedRow.t) : GroupedRow.t :=
  match pt with
  | Some totals =>
      match Obj.get totals (GroupedRow.key row) with
      | Some p =>
          GroupedRow.mk (GroupedRow.key row) (GroupedRow.building row)
            (GroupedRow.roomType row) (GroupedRow.totalBeds row)
            (GroupedRow.byGender row) (Some (GroupedRow.totalBeds row - p)%Z)
      | None => row
      end
  | None => row
  end.

(** [arr.sort(cmp)]: the sort is stable, and with a consistent comparator
    its result is that of an insertion sort. *)
Fixpoint insertBy {A} (cmp : A -> A -> Z) (x : A) (l : list A) : list A :=
  match l with
  | [] => [x]
  | y :: l' => if (cmp x y <=? 0)%Z then x :: y :: l' else y :: insertBy cmp x l'
  end.

Definition sortBy {A} (cmp : A -> A -> Z) (l : list A) : list A :=
  fold_right (insertBy cmp) [] l.

Section Locale.

(** [x.localeCompare(y)] of the host *)
Variable localeCompare : string -> string -> Z.

Definition orZero (o : option Z) : Z :=
  match o with Some v => v | None => 0%Z end.

Definition compareRows (sortF : SortField) (sortD : SortDir)
    (a b : GroupedRow.t) : Z :=
  match sortF with
  | ByBedSpaces =>
      match sortD with
      | Asc => (GroupedRow.totalBeds a - GroupedRow.totalBeds b)%Z
      | Desc => (GroupedRow.totalBeds b - GroupedRow.totalBeds a)%Z
      end
  | ByChange =>
      let ac := orZero (GroupedRow.change a) in
      let bc := orZero (GroupedRow.change b) in
      match sortD with
      | Asc => (ac - bc)%Z
      | Desc => (bc - ac)%Z
      end
  | ByBuilding =>
      match sortD with
      | Asc => localeCompare (GroupedRow.building a) (GroupedRow.building b)
      | Desc => localeCompare (GroupedRow.building b) (GroupedRow.building a)
      end
  | ByRoomType =>
      match sortD with
      | Asc => localeCompare (GroupedRow.roomType a) (GroupedRow.roomType b)
      | Desc => localeCompare (GroupedRow.roomType b) (GroupedRow.roomType a)
      end
  end.

(** [table] *)
Definition table (data : HousingData) (flt : Filter)
    (sortF : SortField) (sortD : SortDir) : list GroupedRow.t :=
  let g := group (applyFilter flt (latest data)) in
  let pt := prevTotals flt (prev data) in
  sortBy (compareRows sortF sortD) (map (withChange pt) (Obj.values g)).

End Locale.

End View.

(** ** The notions the specification speaks of *)

Module Spec.

(** the normalised header cells of an input text *)
Definition headers (text : string) : list string :=
  Ingest.headersOf (hd EmptyString (Ingest.linesOf text)).

(** the data lines of an input text, each as its cells *)
Definition dataCells (text : string) : list (list string) :=
  map Ingest.splitCells (tl (Ingest.linesOf text)).

(** a data line is blank when its building cell is missing or empty after
    trimming *)
Definition blankBuilding (c : Ingest.Cols) (cells : list string) : bool :=
  match nth_error cells (Ingest.buildingIdx c) with
  | Some cell => isEmpty (trim cell)
  | None => true
  end.

Definition nonBlank (c : Ingest.Cols) (cells : list string) : bool :=
  negb (blankBuilding c cells).

(** the Row Normalizer on the cells of one non-blank line *)
Definition rowFrom (c : Ingest.Cols) (cells : list string) : Row :=
  Ingest.rowOf c cells (orElse (Ingest.cleanCell cells (Ingest.buildingIdx c)) EmptyString).

(** structural parse failure: fewer than two lines, or no building column,
    or no bed-count column *)
Definition structuralFailure (text : string) : Prop :=
  List.length (Ingest.linesOf text) < 2
  \/ Ingest.findCol (headers text) Ingest.buildingKeywords = None
  \/ Ingest.findCol (headers text) Ingest.bedKeywords = None.

(** the updated-at cell of a line yields a timestamp: the column is
    resolved, the cell is there and not empty, and the resolver succeeds *)
Definition stampOf (parseLastUpdated : string -> option string)
    (c : Ingest.Cols) (cells : list string) : option string :=
  match Ingest.updatedIdx c with
  | Some u =>
      match nth_error cells u with
      | Some cell =>
          if truthy cell then
            match parseLastUpdated cell with
            | Some ts => if truthy ts then Some ts else None
            | None => None
            end
          else None
      | None => None
      end
  | None => None
  end.

Fixpoint firstSome {A B} (f : A -> option B) (l : list A) : option B :=
  match l with
  | [] => None
  | x :: l' => match f x with Some y => Some y | None => firstSome f l' end
  end.

(** the timestamp of the first line, in file order among the non-blank
    ones, whose updated-at cell yields one *)
Definition firstStamp (parseLastUpdated : string -> option string)
    (c : Ingest.Cols) (table : list (list string)) : option string :=
  firstSome (stampOf parseLastUpdated c) (filter (nonBlank c) table).

(** the timestamp a snapshot is committed with *)
Definition committedTime (parseLastUpdated : string -> option string)
    (c : Ingest.Cols) (table : list (list string)) (now : string) : string :=
  match firstStamp parseLastUpdated c table with
  | Some ts => ts
  | None => now
  end.

(** the last element of a store's sequence *)
Definition lastSnapshot (h : HousingData) : option Snapshot :=
  nth_error (snapshots h) (List.length (snapshots h) - 1).

(** [p] rearranges the columns: column [j] of the result is column
    [nth j p] of the original *)
Definition permute (p : list nat) (l : list string) : list string :=
  map (fun i => nth i l EmptyString) p.

(** A role is resolved without ambiguity when the first of its keywords
    that some header contains is contained in exactly one header. *)
Fixpoint unambiguous (hs : list string) (keywords : list string) : bool :=
  match keywords with
  | [] => true
  | kw :: rest =>
      if existsb (fun h => includes h kw) hs
      then Nat.eqb (List.length (filter (fun h => includes h kw) hs)) 1
      else unambiguous hs rest
  end.

Definition allUnambiguous (hs : list string) : bool :=
  unambiguous hs Ingest.buildingKeywords
  && unambiguous hs Ingest.roomTypeKeywords
  && unambiguous hs Ingest.genderKeywords
  && unambiguous hs Ingest.bedKeywords
  && unambiguous hs Ingest.updatedKeywords.

(** a string of decimal digits that is not empty *)
Definition digitString (s : string) : Prop :=
  s <> EmptyString /\ existsStr (fun c => negb (isDigit c)) s = false.

(** no double quote occurs in the cell *)
Definition quoteFree (cell : string) : Prop := existsStr isQuote cell = false.

(** the test of the loop of [parseCSV]: [building] is truthy *)
Definition kept (c : Ingest.Cols) (cells : list string) : bool :=
  truthyOpt (Ingest.cleanCell cells (Ingest.buildingIdx c)).

(** the column is not resolved, or the line has no such cell, or the cell
    is empty *)
Definition absentOrEmpty (idx : option nat) (cells : list string) : Prop :=
  match idx with
  | Some i =>
      match nth_error cells i with
      | Some cell => cell = EmptyString
      | None => True
      end
  | None => True
  end.

(** the cell reads, after leading white space, a minus sign *)
Definition leadingMinus (cell : string) : bool :=
  Ingest.startsWith (fun ch => Ascii.eqb ch "-") (trimStart cell).

(** two column indices name the same column before and after the columns
    are rearranged by [p] *)
Definition sameColumn (p : list nat) (n : nat) (before after : option nat) : Prop :=
  match before, after with
  | Some i, Some j => j < List.length p /\ nth j p 0 = i /\ i < n
  | None, None => True
  | _, _ => False
  end.

Definition sameColumns (p : list nat) (n : nat) (c c' : Ingest.Cols) : Prop :=
  sameColumn p n (Some (Ingest.buildingIdx c)) (Some (Ingest.buildingIdx c'))
  /\ sameColumn p n (Ingest.roomTypeIdx c) (Ingest.roomTypeIdx c')
  /\ sameColumn p n (Ingest.genderIdx c) (Ingest.genderIdx c')
  /\ sameColumn p n (Some (Ingest.bedIdx c)) (Some (Ingest.bedIdx c'))
  /\ sameColumn p n (Ingest.updatedIdx c) (Ingest.updatedIdx c').

(** the last code unit of a string *)
Fixpoint lastChar (s : string) : option ascii :=
  match s with
  | EmptyString => None
  | String c EmptyString => Some c
  | String _ s' => lastChar s'
  end.

(** on or after March 8, by month and day *)
Definition onOrAfterMarch8 (m d : Z) : bool :=
  ((3 <? m) || (m =? 3) && (8 <=? d))%Z.

(** [t] ends with [suffix] *)
Fixpoint endsWith (t suffix : string) : bool :=
  String.eqb t suffix ||
  match t with
  | EmptyString => false
  | String _ t' => endsWith t' suffix
  end.

(** the total of the rows of a group *)
Definition sumFor (k : string) (f : list Row) : Z :=
  fold_right (fun r acc => (bedSpaces r + acc)%Z) 0%Z
             (filter (fun r => String.eqb (View.groupKey r) k) f).

Definition hasKey (k : string) (f : list Row) : bool :=
  existsb (fun r => String.eqb (View.groupKey r) k) f.

(** the change the specification prescribes for the group [k] *)
Definition expectedChange (flt : View.Filter) (data : HousingData) (k : string)
    : option Z :=
  match View.prev data with
  | Some p =>
      if hasKey k (View.applyFilter flt p)
      then Some (sumFor k (View.applyFilter flt (View.latest data))
                 - sumFor k (View.applyFilter flt p))%Z
      else None
  | None => None
  end.

(** The grouping object is well formed for the rows read so far: its
    keys are distinct, the row under a key carries that key, the total of
    the rows with that key and no change yet, and a key is absent exactly
    when no row has it. *)
Definition grouped (done : list Row) (g : Obj.t GroupedRow.t) : Prop :=
  NoDup (map fst g) /\
  forall k,
    match Obj.get g k with
    | Some row =>
        GroupedRow.key row = k /\ GroupedRow.totalBeds row = sumFor k done
        /\ GroupedRow.change row = None /\ hasKey k done = true
    | None => hasKey k done = false
    end.

(** [s] is the snapshot of [data] with the greatest instant *)
Definition chronologicallyLast (data : HousingData) (s : Snapshot) : Prop :=
  In s (snapshots data) /\
  forall s', In s' (snapshots data) ->
    match JSDate.parse (timestamp s'), JSDate.parse (timestamp s) with
    | Some t', Some t => (t' <= t)%Z
    | _, _ => False
    end.

(** a host whose local time is UTC *)
Definition utcHost (_ : Z) : Z := 0%Z.

End Spec.

(** ** Sample inputs *)

Module Examples.

Local Open Scope string_scope.

(** three data lines, the second with a blank building *)
Definition withBlankLine : string :=
  "Building,Gender,Beds" ++ nl ++ "Hedrick,Female,10" ++ nl
    ++ ",Female,10" ++ nl ++ "Hedrick,Male,5" ++ nl.

Definition withBlankLineCols : Ingest.Cols := Ingest.mkCols 0 None (Some 1) 2 None.

(** a bed count with a minus sign *)
Definition negativeBeds : string := "Building,Beds" ++ nl ++ "Hedrick,-5".

(** no header names a bed count *)
Definition noBedColumn : string := "Building,Gender" ++ nl ++ "Hedrick,Female".

(** two headers contain the keyword bed *)
Definition bedTwice : string :=
  "Building,Bed Type,Beds Available" ++ nl ++ "Hedrick,Double,10".

Definition bedTwiceSwapped : string :=
  "Building,Beds Available,Bed Type" ++ nl ++ "Hedrick,10,Double".

(** the same table with its columns rotated *)
Definition plain : string := "Building,Gender,Beds" ++ nl ++ "Hedrick,Female,10".

Definition plainRotated : string := "Gender,Beds,Building" ++ nl ++ "Female,10,Hedrick".

(** exports carrying an updated-at column *)
Definition march7 : string :=
  "Building,Beds,Last Updated" ++ nl ++ "Hedrick,15,3/7/2026 11:00 PM".

Definition march7Cols : Ingest.Cols := Ingest.mkCols 0 None None 1 (Some 2).

Definition march9 : string :=
  "Building,Beds,Last Updated" ++ nl ++ "Hedrick,12,3/9/2026 9:00 AM".

Definition env : Upload.Env :=
  Upload.mkEnv (Some "secret") "2026-03-10T12:00:00.000Z" true.

Definition upload (text : string) : Upload.Request :=
  Upload.mkRequest (Some "secret") (Some text).

(** the store after [march7] was uploaded twice to a host on UTC *)
Definition uploadedTwice : Upload.Response * Store.File :=
  Upload.POST Spec.utcHost env (upload march7)
    (snd (Upload.POST Spec.utcHost env (upload march7) None)).

(** the store after [march9] and then [march7] were uploaded *)
Definition newerThenOlder : HousingData :=
  Store.load (snd (Upload.POST Spec.utcHost env (upload march7)
    (snd (Upload.POST Spec.utcHost env (upload march9) None)))).

(** the store after [march7] and then [march9] were uploaded *)
Definition olderThenNewer : HousingData :=
  Store.load (snd (Upload.POST Spec.utcHost env (upload march9)
    (snd (Upload.POST Spec.utcHost env (upload march7) None)))).

(** a host whose collation calls all strings equal *)
Definition flatLocale (_ _ : string) : Z := 0%Z.

(** A host on Pacific time, for local times within 2026 up to the end of
    daylight time: UTC-8 before 2026-03-08 02:00 local time, UTC-7 from
    then on. *)
Definition pacificHost (tlocal : Z) : Z :=
  if (tlocal <? JSDate.daysFromCivil 2026 3 8 * JSDate.msPerDay + 2 * 3600000)%Z
  then (-8 * 3600000)%Z else (-7 * 3600000)%Z.

End Examples.

From Stdlib Require Import Sorting.Sorted.

(** ** The read endpoint (app/api/data/route.ts) *)

Module Api.

(** [GET]: the stored document, or the empty history when the file is
    missing or reading or parsing it throws *)
Definition GET (stored : Store.File) : HousingData := Store.load stored.

End Api.

(** ** Reading a row key back (the [JSON.parse(rowKey)] of [TrendModal]) *)

Module Json.

Definition hexVal (c : ascii) : option N :=
  let n := code c in
  if ((48 <=? n) && (n <=? 57))%N then Some (n - 48)%N
  else if ((97 <=? n) && (n <=? 102))%N then Some (n - 87)%N
  else if ((65 <=? n) && (n <=? 70))%N then Some (n - 55)%N
  else None.

Definition consChar (c : ascii) (o : option (string * string))
    : option (string * string) :=
  match o with
  | Some (s, rest) => Some (String c s, rest)
  | None => None
  end.

(** The characters of a JSON string after its opening quote, up to the
    closing quote: the string they denote and what follows.  [None] is a
    syntax error, or a u-escape above 255, which the model does not hold. *)
Fixpoint readString (s : string) : option (string * string) :=
  match s with
  | EmptyString => None
  | String c r =>
      let n := code c in
      if (n =? 34)%N then Some (EmptyString, r)
      else if (n =? 92)%N then
        match r with
        | EmptyString => None
        | String e r1 =>
            let m := code e in
            if (m =? 34)%N then consChar e (readString r1)
            else if (m =? 92)%N then consChar e (readString r1)
            else if (m =? 47)%N then consChar e (readString r1)
            else if (m =? 98)%N then consChar (ascii_of_N 8) (readString r1)
            else if (m =? 102)%N then consChar (ascii_of_N 12) (readString r1)
            else if (m =? 110)%N then consChar (ascii_of_N 10) (readString r1)
            else if (m =? 114)%N then consChar (ascii_of_N 13) (readString r1)
            else if (m =? 116)%N then consChar (ascii_of_N 9) (readString r1)
            else if (m =? 117)%N then
              match r1 with
              | String h1 (String h2 (String h3 (String h4 r2))) =>
                  match hexVal h1, hexVal h2, hexVal h3, hexVal h4 with
                  | Some a, Some b, Some c', Some d =>
                      let v := (((a * 16 + b) * 16 + c') * 16 + d)%N in
                      if (v <? 256)%N then consChar (ascii_of_N v) (readString r2)
                      else None
                  | _, _, _, _ => None
                  end
              | _ => None
              end
            else None
        end
      else if (n <? 32)%N then None
      else consChar c (readString r)
  end.

(** the rest of [s] after the literal [lit] it has to start with *)
Fixpoint expectAll (lit s : string) : option string :=
  match lit with
  | EmptyString => Some s
  | String c lit' =>
      match expect c s with
      | Some r => expectAll lit' r
      | None => None
      end
  end.

(** [JSON.parse(rowKey)] destructured into [building] and [roomType], for
    a text of the shape [JSON.stringify] gives a row key: an object with
    the two members in this order and no white space.  [None] stands for
    every other text, where the parser of the host is not modelled. *)
Definition parseKey (rowKey : string) : option (string * string) :=
  match expectAll ("{" ++ View.jsonString "building" ++ ":" ++ String View.DQ EmptyString)%string rowKey with
  | None => None
  | Some r1 =>
      match readString r1 with
      | None => None
      | Some (building, r2) =>
          match expectAll ("," ++ View.jsonString "roomType" ++ ":" ++ String View.DQ EmptyString)%string r2 with
          | None => None
          | Some r3 =>
              match readString r3 with
              | Some (roomType, r4) =>
                  if String.eqb r4 "}" then Some (building, roomType) else None
              | None => None
              end
          end
      end
  end.

End Json.

(** ** The rest of the page (page.tsx) *)

Module Page.

Definition GENDER_ORDER : list string :=
  ["Female"; "Male"; "Gender Inclusive"; "Non-Binary"].

(** [GENDER_ORDER.indexOf(g)], [None] for -1 *)
Definition indexOf (g : string) : option nat :=
  findIndex (String.eqb g) GENDER_ORDER.

(** [ai === -1 ? 99 : ai] *)
Definition rank (g : string) : Z :=
  match indexOf g with
  | Some i => Z.of_nat i
  | None => 99%Z
  end.

(** [sortGenders] of the second copy of the page (lines 451-457), which is
    also the order of the breakdown column in both copies: by place in
    [GENDER_ORDER], the other genders after them in the order they came *)
Definition sortGenders (genders : list string) : list string :=
  View.sortBy (fun a b => (rank a - rank b)%Z) genders.

Section Locale.

Variable localeCompare : string -> string -> Z.

(** the comparator of [sortGenders] in the first copy (lines 23-32): the
    genders outside [GENDER_ORDER] are ordered by [localeCompare] *)
Definition compareGendersByLocale (a b : string) : Z :=
  match indexOf a, indexOf b with
  | None, None => localeCompare a b
  | None, Some _ => 1%Z
  | Some _, None => (-1)%Z
  | Some ai, Some bi => (Z.of_nat ai - Z.of_nat bi)%Z
  end.

Definition sortGendersByLocale (genders : list string) : list string :=
  View.sortBy compareGendersByLocale genders.

End Locale.

(** [[...new Set(l)]]: the values of [l] in the order of their first
    occurrence; [seen] holds the values met so far *)
Fixpoint uniqueFrom (l seen : list string) : list string :=
  match l with
  | [] => []
  | x :: l' =>
      if existsb (String.eqb x) seen then uniqueFrom l' seen
      else x :: uniqueFrom l' (x :: seen)
  end.

Definition setOf (l : list string) : list string := uniqueFrom l [].

(** the three rows of filter pills *)
Definition genders (latest : list Row) : list string :=
  "All" :: sortGenders (setOf (map gender latest)).

Definition buildings (latest : list Row) : list string :=
  "All" :: setOf (map building latest).

Definition roomTypes (latest : list Row) : list string :=
  "All" :: setOf (map roomType latest).

(** the loop of [initialTotals]: a row of another gender is passed over *)
Fixpoint initialLoop (first : list Row) (gender0 : string) (totals : Obj.t Z)
    : Obj.t Z :=
  match first with
  | [] => totals
  | r :: rest =>
      if negb (String.eqb gender0 "All") && negb (String.eqb (gender r) gender0)
      then initialLoop rest gender0 totals
      else
        let k := View.groupKey r in
        initialLoop rest gender0 (Obj.set totals k (View.getOr0 totals k + bedSpaces r)%Z)
  end.

(** [initialTotals]: the totals of the first snapshot in the store under
    the gender filter alone *)
Definition initialTotals (data : HousingData) (gender0 : string) : Obj.t Z :=
  match snapshots data with
  | [] => []
  | first :: _ => initialLoop (rows first) gender0 []
  end.

(** [initialTotals[row.key] ?? row.totalBeds], the second argument of [bedColor] *)
Definition baseline (totals : Obj.t Z) (row : GroupedRow.t) : Z :=
  match Obj.get totals (GroupedRow.key row) with
  | Some v => v
  | None => GroupedRow.totalBeds row
  end.

(** [table.reduce((a, r) => a + r.totalBeds, 0)] *)
Definition totalBeds (table : list GroupedRow.t) : Z :=
  fold_left (fun a r => (a + GroupedRow.totalBeds r)%Z) table 0%Z.

(** [Object.entries(row.byGender).sort(...)]: the breakdown column *)
Definition breakdown (row : GroupedRow.t) : list (string * Z) :=
  View.sortBy (fun a b => (rank (fst a) - rank (fst b))%Z) (GroupedRow.byGender row).

Definition sameField (a b : View.SortField) : bool :=
  match a, b with
  | View.ByBuilding, View.ByBuilding => true
  | View.ByRoomType, View.ByRoomType => true
  | View.ByBedSpaces, View.ByBedSpaces => true
  | View.ByChange, View.ByChange => true
  | _, _ => false
  end.

(** [doSort]: a click on the header of column [f], on the state
    [(sortF, sortD)] *)
Definition doSort (f : View.SortField) (state : View.SortField * View.SortDir)
    : View.SortField * View.SortDir :=
  let (sortF, sortD) := state in
  if sameField sortF f then
    (sortF, match sortD with View.Asc => View.Desc | View.Desc => View.Asc end)
  else
    (f, match f with
        | View.ByBedSpaces | View.ByChange => View.Desc
        | _ => View.Asc
        end).

(** *** [TrendModal] *)

(** a property value of a chart point: a string or a number *)
Inductive Val :=
| VStr (s : string)
| VNum (n : Z).

(** [(v || 0) + n] and [v += n] for a number [n]: a truthy string takes
    the number as text at its end.  Own properties only: a gender named
    like a property of [Object.prototype] is outside the model. *)
Definition plus (v : option Val) (n : Z) : Val :=
  match v with
  | Some (VNum a) => VNum (a + n)
  | Some (VStr s) => if truthy s then VStr (s ++ ofInt n)%string else VNum n
  | None => VNum n
  end.

(** [pt.total += n], where [pt.total] is there from the start *)
Definition plusAssign (v : option Val) (n : Z) : Val :=
  match v with
  | Some (VNum a) => VNum (a + n)
  | Some (VStr s) => VStr (s ++ ofInt n)%string
  | None => VNum n
  end.

(** the body of the loop over [rel] *)
Definition addToPoint (gf : string) (pt : Obj.t Val) (r : Row) : Obj.t Val :=
  if String.eqb gf "All" || String.eqb (gender r) gf then
    let pt1 := Obj.set pt "total" (plusAssign (Obj.get pt "total") (bedSpaces r)) in
    Obj.set pt1 (gender r) (plus (Obj.get pt1 (gender r)) (bedSpaces r))
  else pt.

(** the point of one snapshot *)
Definition point (building0 roomType0 gf : string) (sn : Snapshot) : Obj.t Val :=
  let rel := filter (fun r => String.eqb (building r) building0
                              && String.eqb (roomType r) roomType0) (rows sn) in
  fold_left (addToPoint gf) rel
            [("timestamp", VStr (timestamp sn)); ("total", VNum 0%Z)].

(** [new Date(a.timestamp).getTime()]; [None] is NaN *)
Definition timeOf (pt : Obj.t Val) : option Z :=
  match Obj.get pt "timestamp" with
  | Some (VStr s) => JSDate.parse s
  | Some (VNum n) => JSDate.timeClip n
  | None => None
  end.

(** the comparator of the sort; a NaN result counts as 0 *)
Definition byTime (a b : Obj.t Val) : Z :=
  match timeOf a, timeOf b with
  | Some x, Some y => (x - y)%Z
  | _, _ => 0%Z
  end.

(** [chartData] *)
Definition chartData (snapshots0 : list Snapshot)
    (building0 roomType0 gf : string) : list (Obj.t Val) :=
  View.sortBy byTime (map (point building0 roomType0 gf) snapshots0).

(** [pt?.total || 0] *)
Definition totalOr0 (pt : option (Obj.t Val)) : Val :=
  match pt with
  | Some o =>
      match Obj.get o "total" with
      | Some (VNum n) => VNum n
      | Some (VStr s) => if truthy s then VStr s else VNum 0%Z
      | None => VNum 0%Z
      end
  | None => VNum 0%Z
  end.

(** [st] and [en]: the totals of the first and of the last point *)
Definition st (chart : list (Obj.t Val)) : Val := totalOr0 (nth_error chart 0).

Definition en (chart : list (Obj.t Val)) : Val :=
  totalOr0 (nth_error chart (List.length chart - 1)).

(** the genders offered by the modal: those of the rows of the group in
    any snapshot, in the order of [sortGenders] *)
Definition modalGenders (snapshots0 : list Snapshot) (building0 roomType0 : string)
    : list string :=
  sortGenders (setOf (map gender
    (filter (fun r => String.eqb (building r) building0
                      && String.eqb (roomType r) roomType0)
            (flat_map rows snapshots0)))).

End Page.

(** ** Further notions for the properties of the code *)

Module Notions.

(** every code unit is white space *)
Definition blank (s : string) : Prop :=
  existsStr (fun c => negb (isSpace c)) s = false.

(** no comma occurs *)
Definition commaFree (s : string) : Prop :=
  existsStr (fun c => Ascii.eqb c ",") s = false.

(** the sum of the bed counts of a list of rows *)
Definition beds (f : list Row) : Z :=
  fold_right (fun r acc => (bedSpaces r + acc)%Z) 0%Z f.

(** the sum of the values of a map to numbers *)
Definition sumValues (o : Obj.t Z) : Z :=
  fold_right (fun kv acc => (snd kv + acc)%Z) 0%Z o.

(** the rows a gender filter lets through *)
Definition ofGender (gender0 : string) (f : list Row) : list Row :=
  filter (fun r => String.eqb gender0 "All" || String.eqb (gender r) gender0) f.

(** what the building, room type and search filters ask of a row *)
Definition groupFilter (flt : View.Filter) (r : Row) : bool :=
  (String.eqb (View.f_building flt) "All" || String.eqb (building r) (View.f_building flt))
  && (String.eqb (View.f_roomType flt) "All" || String.eqb (roomType r) (View.f_roomType flt))
  && (negb (truthy (View.f_q flt))
      || includes (toLowerCase (building r)) (toLowerCase (View.f_q flt))
      || includes (toLowerCase (roomType r)) (toLowerCase (View.f_q flt))).

(** the rows of the first snapshot of the store *)
Definition firstRows (data : HousingData) : list Row :=
  match snapshots data with
  | [] => []
  | first :: _ => rows first
  end.

(** the rows of a snapshot that a chart point counts *)
Definition counted (building0 roomType0 gf : string) (sn : Snapshot) : list Row :=
  ofGender gf
    (filter (fun r => String.eqb (building r) building0
                      && String.eqb (roomType r) roomType0) (rows sn)).

(** the instant a civil date and time at a UTC offset in hours denotes, in ms *)
Definition instant (y m d h mi offsetHours : Z) : Z :=
  (JSDate.daysFromCivil y m d * JSDate.msPerDay + h * 3600000 + mi * 60000
   - offsetHours * 3600000)%Z.

(** the sum of a measure over the values of a map *)
Definition weigh {A} (mu : A -> Z) (o : Obj.t A) : Z :=
  fold_right (fun kv acc => (mu (snd kv) + acc)%Z) 0%Z o.

(** the sum of a list of numbers *)
Definition sumZ (l : list Z) : Z := fold_right Z.add 0%Z l.

(** the building and the room type a table row shows *)
Definition groupOf (row : GroupedRow.t) : string * string :=
  (GroupedRow.building row, GroupedRow.roomType row).

(** the breakdown of every group of a grouping object adds up to its total *)
Definition balanced (g : Obj.t GroupedRow.t) : Prop :=
  forall k row, In (k, row) g ->
    sumValues (GroupedRow.byGender row) = GroupedRow.totalBeds row.

(** the order the comparator [cmp] of a sort puts two elements in *)
Definition inOrder {A} (cmp : A -> A -> Z) (a b : A) : Prop := (cmp a b <= 0)%Z.

(** the rows of gender [g] among [f] *)
Definition genderRows (g : string) (f : list Row) : list Row :=
  filter (fun r => String.eqb (gender r) g) f.

(** the entry of a point for a gender with the rows [rs]: their total,
    and no entry when there is no row *)
Definition entryFor (rs : list Row) : option Page.Val :=
  match rs with
  | [] => None
  | _ :: _ => Some (Page.VNum (beds rs))
  end.

(** the chart point [pt] says of the rows [done] what a point has to say:
    the timestamp [ts], their total, and for every gender the total of
    its rows, with no entry for a gender without rows *)
Definition summarises (ts : string) (done : list Row) (pt : Obj.t Page.Val) : Prop :=
  Obj.get pt "timestamp" = Some (Page.VStr ts)
  /\ Obj.get pt "total" = Some (Page.VNum (beds done))
  /\ forall g, g <> "total" -> g <> "timestamp" ->
       Obj.get pt g = entryFor (genderRows g done).

(** the point [a] of a chart is not later than the point [b] *)
Definition notLater (a b : Obj.t Page.Val) : Prop :=
  match Page.timeOf a, Page.timeOf b with
  | Some x, Some y => (x <= y)%Z
  | _, _ => False
  end.

(** [p] holds of every integer from 0 up to [2 ^ k - 1] above [lo] *)
Fixpoint allRange (k : nat) (lo : Z) (p : Z -> bool) : bool :=
  match k with
  | O => p lo
  | S k' => allRange k' lo p && allRange k' (lo + 2 ^ Z.of_nat k')%Z p
  end.

End Notions.


(** * Facts about digits and [parseInt] *)

Lemma readDigits_seen (radix : N) (s : string) :
  forall acc, exists v, readDigits radix s acc true = Some v.
Proof.
  induction s as [|ch s IH]; intros acc; simpl; [eauto|].
  destruct (digitVal radix ch); [apply IH|eauto].
Qed.

Lemma digit_code (ch : ascii) :
  isDigit ch = true -> (48 <= code ch <= 57)%N.
Proof.
  unfold isDigit. intro H. apply andb_prop in H as [H1 H2].
  apply N.leb_le in H1, H2. lia.
Qed.

Lemma digit_not_space (ch : ascii) : isDigit ch = true -> isSpace ch = false.
Proof.
  intro H. apply digit_code in H. unfold isSpace.
  destruct (N.leb_spec 9 (code ch)), (N.leb_spec (code ch) 13),
           (N.eqb_spec (code ch) 32), (N.eqb_spec (code ch) 160);
    simpl; try reflexivity; lia.
Qed.

Lemma digit_not_char (ch other : ascii) :
  isDigit ch = true -> isDigit other = false -> Ascii.eqb ch other = false.
Proof.
  intros H1 H2. destruct (Ascii.eqb_spec ch other) as [->|]; congruence.
Qed.

Lemma digit_value (ch : ascii) :
  isDigit ch = true -> digitVal 10 ch = Some (code ch - 48)%N.
Proof.
  intro H. unfold digitVal. fold (isDigit ch). rewrite H.
  apply digit_code in H.
  destruct (N.ltb_spec (code ch - 48) 10); [reflexivity|lia].
Qed.

(** on a captured group of digits [parseInt] gives a number, not NaN *)
Lemma parseInt_digits (s : string) :
  Spec.digitString s -> exists n, parseInt s = Some n /\ (0 <= n)%Z.
Proof.
  intros [Hne Hd]. destruct s as [|ch r]; [congruence|].
  simpl in Hd. apply orb_false_iff in Hd as [Hch Hr].
  apply negb_false_iff in Hch.
  unfold parseInt. simpl trimStart. rewrite (digit_not_space ch Hch).
  rewrite (digit_not_char ch "-" Hch eq_refl), (digit_not_char ch "+" Hch eq_refl).
  assert (Hradix :
    match String ch r with
    | String z (String x r') =>
        if Ascii.eqb z "0" && (Ascii.eqb x "x" || Ascii.eqb x "X")
        then (16%N, r') else (10%N, String ch r)
    | _ => (10%N, String ch r)
    end = (10%N, String ch r)).
  { destruct r as [|x r']; [reflexivity|].
    simpl in Hr. apply orb_false_iff in Hr as [Hx _].
    apply negb_false_iff in Hx.
    rewrite (digit_not_char x "x" Hx eq_refl), (digit_not_char x "X" Hx eq_refl).
    now rewrite andb_false_r. }
  rewrite Hradix. cbn [readDigits]. rewrite (digit_value ch Hch).
  match goal with
  | |- context [readDigits 10 r ?acc true] =>
      destruct (readDigits_seen 10 r acc) as [v Hv]; rewrite Hv
  end.
  exists (1 * Z.of_N v)%Z. split; [reflexivity|lia].
Qed.

Lemma spanMax_digits (n : nat) (s : string) :
  existsStr (fun c => negb (isDigit c)) (fst (spanMax isDigit n s)) = false.
Proof.
  revert s. induction n as [|n IH]; intros s; simpl; [reflexivity|].
  destruct s as [|ch s]; [reflexivity|].
  destruct (isDigit ch) eqn:E; [|reflexivity].
  specialize (IH s). destruct (spanMax isDigit n s). simpl in *.
  now rewrite E, IH.
Qed.

Lemma nonempty_of_length (s : string) (n : nat) :
  Nat.eqb (String.length s) (S n) = true -> s <> EmptyString.
Proof. destruct s; [discriminate|discriminate]. Qed.

(** the five numeric groups of a match are digit strings *)
Lemma matchStamp_digits (s : string) (mt : Ingest.StampMatch) :
  Ingest.matchStamp s = Some mt ->
  Spec.digitString (Ingest.g_month mt) /\ Spec.digitString (Ingest.g_day mt)
  /\ Spec.digitString (Ingest.g_year mt) /\ Spec.digitString (Ingest.g_hour mt)
  /\ Spec.digitString (Ingest.g_minute mt).
Proof.
  unfold Ingest.matchStamp.
  pose proof (spanMax_digits 2 s) as D1.
  destruct (spanMax isDigit 2 s) as [month r1].
  destruct (isEmpty month) eqn:E1; [discriminate|].
  destruct (expect "/" r1) as [r2|]; [|discriminate].
  pose proof (spanMax_digits 2 r2) as D2.
  destruct (spanMax isDigit 2 r2) as [day r3].
  destruct (isEmpty day) eqn:E2; [discriminate|].
  destruct (expect "/" r3) as [r4|]; [|discriminate].
  pose proof (spanMax_digits 4 r4) as D3.
  destruct (spanMax isDigit 4 r4) as [year r5].
  destruct (Nat.eqb (String.length year) 4) eqn:E3; [|discriminate].
  destruct (negb (Ingest.startsWith isSpace r5)); [discriminate|].
  pose proof (spanMax_digits 2 (trimStart r5)) as D4.
  destruct (spanMax isDigit 2 (trimStart r5)) as [hour r7].
  destruct (isEmpty hour) eqn:E4; [discriminate|].
  destruct (expect ":" r7) as [r8|]; [|discriminate].
  pose proof (spanMax_digits 2 r8) as D5.
  destruct (spanMax isDigit 2 r8) as [minute r9].
  destruct (Nat.eqb (String.length minute) 2) eqn:E5; [|discriminate].
  destruct (existsStr isLineTerminator r9); [discriminate|].
  intro H. injection H as <-. simpl in *.
  unfold Spec.digitString.
  repeat split; try assumption;
    try (intro Hs; subst; discriminate);
    eapply nonempty_of_length; eassumption.
Qed.

(** * Facts about the string primitives *)

Lemma isEmpty_true (s : string) : isEmpty s = true <-> s = EmptyString.
Proof.
  destruct s; simpl; split; intro H; try reflexivity; discriminate H.
Qed.

Lemma truthy_nonempty (s : string) : truthy s = true <-> s <> EmptyString.
Proof.
  unfold truthy. destruct s; simpl; split; intro H;
    try reflexivity; try discriminate; congruence.
Qed.

Lemma trimEnd_idem (s : string) : trimEnd (trimEnd s) = trimEnd s.
Proof.
  induction s as [|c s IH]; simpl; [reflexivity|].
  destruct (isSpace c && isEmpty (trimEnd s)) eqn:E; simpl; [reflexivity|].
  rewrite IH, E. reflexivity.
Qed.

Lemma trimStart_head (s : string) :
  trimStart s = EmptyString \/
  exists c r, trimStart s = String c r /\ isSpace c = false.
Proof.
  induction s as [|c s IH]; simpl; [now left|].
  destruct (isSpace c) eqn:E; [exact IH|].
  right. exists c, s. split; [reflexivity|exact E].
Qed.

Lemma trim_idem (s : string) : trim (trim s) = trim s.
Proof.
  unfold trim.
  destruct (trimStart_head s) as [H | (c & r & H & Hc)]; rewrite H.
  - reflexivity.
  - simpl. rewrite Hc. simpl. rewrite Hc. simpl.
    rewrite Hc. simpl. rewrite trimEnd_idem. reflexivity.
Qed.

(** a trimmed string that is not empty stays so under trimming *)
Lemma trim_trim_nonempty (s : string) :
  trim s <> EmptyString -> trim (trim s) <> EmptyString.
Proof. rewrite trim_idem. trivial. Qed.

Lemma existsStr_trimStart p (s : string) :
  existsStr p s = false -> existsStr p (trimStart s) = false.
Proof.
  induction s as [|c s IH]; simpl; [trivial|].
  intro H. apply orb_false_iff in H as [Hc Hs].
  destruct (isSpace c); [auto|]. simpl. now rewrite Hc, Hs.
Qed.

Lemma existsStr_trimEnd p (s : string) :
  existsStr p s = false -> existsStr p (trimEnd s) = false.
Proof.
  induction s as [|c s IH]; simpl; [trivial|].
  intro H. apply orb_false_iff in H as [Hc Hs].
  destruct (isSpace c && isEmpty (trimEnd s)); [reflexivity|].
  simpl. now rewrite Hc, IH.
Qed.

Lemma existsStr_trim p (s : string) :
  existsStr p s = false -> existsStr p (trim s) = false.
Proof. intro H. unfold trim. now apply existsStr_trimEnd, existsStr_trimStart. Qed.

Lemma existsStr_app p (a b : string) :
  existsStr p (a ++ b) = existsStr p a || existsStr p b.
Proof.
  induction a as [|c a IH]; simpl; [reflexivity|].
  now rewrite IH, orb_assoc.
Qed.

Lemma removeQuotes_id (s : string) :
  existsStr isQuote s = false -> removeQuotes s = s.
Proof.
  unfold removeQuotes.
  induction s as [|c s IH]; simpl; [trivial|].
  intro H. apply orb_false_iff in H as [Hc Hs].
  rewrite Hc. simpl. now rewrite IH.
Qed.

(** * Facts about the tokenizer *)

Lemma splitCellsAux_quoteFree (line : string) :
  forall cells current inQuotes,
    Forall Spec.quoteFree cells -> Spec.quoteFree current ->
    Forall Spec.quoteFree (Ingest.splitCellsAux line cells current inQuotes).
Proof.
  induction line as [|ch line IH]; simpl; intros cells current q Hc Hcur.
  - apply Forall_app. split; [exact Hc|].
    constructor; [|constructor]. now apply existsStr_trim.
  - destruct (isQuote ch) eqn:Eq; [now apply IH|].
    destruct (Ascii.eqb ch "," && negb q).
    + apply IH; [|reflexivity].
      apply Forall_app. split; [exact Hc|].
      constructor; [|constructor]. now apply existsStr_trim.
    + apply IH; [exact Hc|].
      unfold Spec.quoteFree. rewrite existsStr_app. simpl.
      now rewrite Hcur, Eq.
Qed.

Lemma splitCells_quoteFree (line : string) :
  Forall Spec.quoteFree (Ingest.splitCells line).
Proof.
  apply splitCellsAux_quoteFree; [constructor|reflexivity].
Qed.

Lemma dataCells_quoteFree (text : string) :
  Forall (Forall Spec.quoteFree) (Spec.dataCells text).
Proof.
  unfold Spec.dataCells. apply Forall_map, Forall_forall.
  intros line _. apply splitCells_quoteFree.
Qed.

(** * Facts about the loop of [parseCSV] *)

Lemma kept_nonBlank (c : Ingest.Cols) (cells : list string) :
  Forall Spec.quoteFree cells -> Spec.kept c cells = Spec.nonBlank c cells.
Proof.
  intro H. unfold Spec.kept, Spec.nonBlank, Spec.blankBuilding, Ingest.cleanCell.
  destruct (nth_error cells (Ingest.buildingIdx c)) as [cell|] eqn:E; simpl;
    [|reflexivity].
  rewrite removeQuotes_id; [reflexivity|].
  eapply Forall_forall in H; [exact H|]. eapply nth_error_In; eauto.
Qed.

Lemma filter_kept_nonBlank (c : Ingest.Cols) (table : list (list string)) :
  Forall (Forall Spec.quoteFree) table ->
  filter (Spec.kept c) table = filter (Spec.nonBlank c) table.
Proof.
  intro H. apply filter_ext_in. intros cells Hin.
  apply kept_nonBlank. eapply Forall_forall in H; eauto.
Qed.

Section LoopFacts.

Variable parseLastUpdated : string -> option string.
Variable c : Ingest.Cols.

Lemma loop_rows (table : list (list string)) :
  forall lu,
    fst (Ingest.loop parseLastUpdated c table lu)
    = map (Spec.rowFrom c) (filter (Spec.kept c) table).
Proof.
  induction table as [|cells rest IH]; intros lu; simpl; [reflexivity|].
  unfold Spec.kept at 1.
  destruct (Ingest.cleanCell cells (Ingest.buildingIdx c)) as [b|] eqn:E; simpl.
  - destruct (truthy b) eqn:Eb.
    + match goal with
      | |- fst (let (_, _) := Ingest.loop _ _ _ ?l in _) = _ =>
          specialize (IH l); destruct (Ingest.loop parseLastUpdated c rest l)
      end.
      simpl in *. rewrite IH. unfold Spec.rowFrom at 2.
      rewrite E. simpl. now rewrite Eb.
    + apply IH.
  - apply IH.
Qed.

(** once a timestamp is held, the loop keeps it *)
Lemma loop_stamp_held (table : list (list string)) :
  forall lu, truthyOpt lu = true ->
    snd (Ingest.loop parseLastUpdated c table lu) = lu.
Proof.
  induction table as [|cells rest IH]; intros lu Hlu; simpl; [reflexivity|].
  destruct (Ingest.cleanCell cells (Ingest.buildingIdx c)) as [b|]; [|now apply IH].
  destruct (truthy b); [|now apply IH].
  unfold Ingest.stampCell. rewrite Hlu.
  specialize (IH lu Hlu).
  destruct (Ingest.loop parseLastUpdated c rest lu). exact IH.
Qed.

Lemma stamp_step (cells : list string) (lu : option string) :
  truthyOpt lu = false ->
  let lu' := match Ingest.stampCell c cells lu with
             | Some cell => parseLastUpdated cell
             | None => lu
             end in
  match Spec.stampOf parseLastUpdated c cells with
  | Some ts => lu' = Some ts /\ truthy ts = true
  | None => truthyOpt lu' = false
  end.
Proof.
  intro Hlu. unfold Ingest.stampCell, Spec.stampOf. rewrite Hlu.
  destruct (Ingest.updatedIdx c) as [u|]; [|exact Hlu].
  destruct (nth_error cells u) as [cell|]; [|exact Hlu].
  destruct (truthy cell); [|exact Hlu].
  destruct (parseLastUpdated cell) as [ts|]; [|reflexivity].
  destruct (truthy ts) eqn:Et; [now split|exact Et].
Qed.

Lemma loop_stamp (table : list (list string)) (now : string) :
  forall lu, truthyOpt lu = false ->
    orElse (snd (Ingest.loop parseLastUpdated c table lu)) now
    = match Spec.firstSome (Spec.stampOf parseLastUpdated c) (filter (Spec.kept c) table) with
      | Some ts => ts
      | None => now
      end.
Proof.
  induction table as [|cells rest IH]; intros lu Hlu; simpl.
  - destruct lu as [s|]; simpl in *; [now rewrite Hlu|reflexivity].
  - unfold Spec.kept at 1.
    destruct (Ingest.cleanCell cells (Ingest.buildingIdx c)) as [b|]; simpl;
      [|now apply IH].
    destruct (truthy b); simpl; [|now apply IH].
    pose proof (stamp_step cells lu Hlu) as Hs. simpl in Hs.
    set (lu' := match Ingest.stampCell c cells lu with
                | Some cell => parseLastUpdated cell
                | None => lu
                end) in *.
    destruct (Spec.stampOf parseLastUpdated c cells) as [ts|].
    + destruct Hs as [Hs Ht]. rewrite Hs.
      pose proof (loop_stamp_held rest (Some ts) Ht) as Hh.
      destruct (Ingest.loop parseLastUpdated c rest (Some ts)).
      simpl in *. subst. simpl. now rewrite Ht.
    + specialize (IH lu' Hs).
      destruct (Ingest.loop parseLastUpdated c rest lu'). exact IH.
Qed.

End LoopFacts.

(** * Facts about [parseCSV] *)

Lemma split_nonempty (sep : ascii) (s : string) : split sep s <> [].
Proof.
  unfold split. generalize EmptyString as cur.
  induction s as [|ch s IH]; simpl; intros cur; [discriminate|].
  destruct (Ascii.eqb ch sep); [discriminate|apply IH].
Qed.

Lemma short_text_no_data_lines (text : string) :
  List.length (Ingest.linesOf text) < 2 -> Spec.dataCells text = [].
Proof.
  unfold Spec.dataCells. intro H.
  destruct (Ingest.linesOf text) as [|l0 [|l1 ls]]; simpl in *;
    try reflexivity; lia.
Qed.

Section ParseFacts.

Variable parseLastUpdated : string -> option string.

Lemma parseCSV_short (text : string) :
  List.length (Ingest.linesOf text) < 2 ->
  Ingest.parseCSV parseLastUpdated text = Ingest.noData.
Proof.
  intro H. unfold Ingest.parseCSV.
  apply Nat.ltb_lt in H. now rewrite H.
Qed.

Lemma parseCSV_unresolved (text : string) :
  Ingest.resolve (Spec.headers text) = None ->
  Ingest.parseCSV parseLastUpdated text = Ingest.noData.
Proof.
  intro H. unfold Ingest.parseCSV.
  destruct (Nat.ltb _ 2); [reflexivity|].
  unfold Ingest.parseTable. fold (Spec.headers text). now rewrite H.
Qed.

Lemma parseCSV_long (text : string) (c : Ingest.Cols) :
  2 <= List.length (Ingest.linesOf text) ->
  Ingest.resolve (Spec.headers text) = Some c ->
  Ingest.parseCSV parseLastUpdated text
  = let (rs, lu) := Ingest.loop parseLastUpdated c (Spec.dataCells text) None in
    Ingest.mkParsed rs lu.
Proof.
  intros Hlen Hres. unfold Ingest.parseCSV.
  destruct (Nat.ltb_spec (List.length (Ingest.linesOf text)) 2) as [Hlt|_]; [lia|].
  unfold Ingest.parseTable. fold (Spec.headers text). rewrite Hres.
  reflexivity.
Qed.

(** the rows are the normalised non-blank data lines, in file order *)
Lemma parseCSV_rows (text : string) (c : Ingest.Cols) :
  Ingest.resolve (Spec.headers text) = Some c ->
  Ingest.rows (Ingest.parseCSV parseLastUpdated text)
  = map (Spec.rowFrom c) (filter (Spec.nonBlank c) (Spec.dataCells text)).
Proof.
  intro Hres.
  destruct (Nat.lt_ge_cases (List.length (Ingest.linesOf text)) 2) as [Hlt|Hge].
  - rewrite parseCSV_short, short_text_no_data_lines by exact Hlt. reflexivity.
  - rewrite (parseCSV_long text c Hge Hres).
    rewrite <- filter_kept_nonBlank by apply dataCells_quoteFree.
    rewrite <- (loop_rows parseLastUpdated c (Spec.dataCells text) None).
    now destruct (Ingest.loop parseLastUpdated c (Spec.dataCells text) None).
Qed.

(** the timestamp handed to the store *)
Lemma parseCSV_stamp (text : string) (c : Ingest.Cols) (now : string) :
  Ingest.resolve (Spec.headers text) = Some c ->
  orElse (Ingest.lastUpdated (Ingest.parseCSV parseLastUpdated text)) now
  = Spec.committedTime parseLastUpdated c (Spec.dataCells text) now.
Proof.
  intro Hres. unfold Spec.committedTime, Spec.firstStamp.
  destruct (Nat.lt_ge_cases (List.length (Ingest.linesOf text)) 2) as [Hlt|Hge].
  - rewrite parseCSV_short, short_text_no_data_lines by exact Hlt. reflexivity.
  - rewrite (parseCSV_long text c Hge Hres).
    rewrite <- filter_kept_nonBlank by apply dataCells_quoteFree.
    rewrite <- (loop_stamp parseLastUpdated c (Spec.dataCells text) now None eq_refl).
    now destruct (Ingest.loop parseLastUpdated c (Spec.dataCells text) None).
Qed.

Lemma parseCSV_structural_failure (text : string) :
  Spec.structuralFailure text ->
  Ingest.parseCSV parseLastUpdated text = Ingest.noData.
Proof.
  intros [H | [H | H]].
  - now apply parseCSV_short.
  - apply parseCSV_unresolved. unfold Ingest.resolve. now rewrite H.
  - apply parseCSV_unresolved. unfold Ingest.resolve. rewrite H.
    now destruct (Ingest.findCol (Spec.headers text) Ingest.buildingKeywords).
Qed.

End ParseFacts.

Lemma lastSnapshot_push (h : HousingData) (s : Snapshot) :
  Spec.lastSnapshot (Store.push h s) = Some s.
Proof.
  unfold Spec.lastSnapshot, Store.push. simpl.
  rewrite length_app. simpl.
  replace (List.length (snapshots h) + 1 - 1) with (List.length (snapshots h)) by lia.
  rewrite nth_error_app2 by lia. now rewrite Nat.sub_diag.
Qed.

(** what a successful upload leaves on disk *)
Lemma POST_success (tz : Z -> Z) (env : Upload.Env) (request : Upload.Request)
    (stored stored' : Store.File) (n m : nat) :
  Upload.POST tz env request stored = (Upload.Success n m, stored') ->
  exists text,
    Upload.file request = Some text /\
    Ingest.rows (Upload.parseCSV tz text) <> [] /\
    stored' = Some (Store.push (Store.load stored)
                (mkSnapshot
                   (orElse (Ingest.lastUpdated (Upload.parseCSV tz text)) (Upload.now env))
                   (Ingest.rows (Upload.parseCSV tz text)))).
Proof.
  unfold Upload.POST. intro H.
  destruct (Upload.adminPassword env) as [pw|]; [|discriminate].
  destruct (negb (truthy pw)); [discriminate|].
  destruct (negb (Upload.samePassword (Upload.password request) pw)); [discriminate|].
  destruct (Upload.file request) as [text|]; [|discriminate].
  destruct (Nat.eqb _ 0) eqn:E; [discriminate|].
  destruct (negb (Upload.diskOk env)); [discriminate|].
  exists text. split; [reflexivity|]. split; [|congruence].
  intro Hr. rewrite Hr in E. discriminate E.
Qed.

(** what a saving run of the fetch script leaves on disk *)
Lemma main_saved (answers : list (option string)) (now : string) (diskOk : bool)
    (stored stored' : Store.File) (total : nat) :
  Fetch.main answers now diskOk stored = (Fetch.Saved total, stored') ->
  exists text,
    Fetch.fetchCSV answers = Some text /\
    Ingest.rows (Fetch.parseCSV text) <> [] /\
    stored' = Some (Store.push (Store.load stored)
                (mkSnapshot
                   (orElse (Ingest.lastUpdated (Fetch.parseCSV text)) now)
                   (Ingest.rows (Fetch.parseCSV text)))).
Proof.
  unfold Fetch.main. intro H.
  destruct (Fetch.fetchCSV answers) as [text|]; [|discriminate].
  destruct (Nat.eqb _ 0) eqn:E; [discriminate|].
  destruct (existsb _ _); [discriminate|].
  destruct diskOk; [|discriminate].
  exists text. split; [reflexivity|]. split; [|congruence].
  intro Hr. rewrite Hr in E. discriminate E.
Qed.

(** rows can only come from resolved columns *)
Lemma rows_resolved (parseLastUpdated : string -> option string) (text : string) :
  Ingest.rows (Ingest.parseCSV parseLastUpdated text) <> [] ->
  exists c, Ingest.resolve (Spec.headers text) = Some c.
Proof.
  intro H. destruct (Ingest.resolve (Spec.headers text)) as [c|] eqn:E; [eauto|].
  rewrite parseCSV_unresolved in H by exact E. now contradiction H.
Qed.

(** * The claims on ingestion *)

(** C6. When the building column or the bed-count column cannot be
    resolved from the headers, or the input has fewer than two lines,
    parsing yields no rows; the upload answers with the error that no
    rows could be parsed and the fetch script exits reporting that no
    rows were parsed; in both the stored document is what it was. *)
Theorem structural_failure_writes_nothing (text : string) :
  Spec.structuralFailure text ->
  (forall parseLastUpdated,
     Ingest.rows (Ingest.parseCSV parseLastUpdated text) = []) /\
  (forall tz env request stored,
     Upload.file request = Some text ->
     snd (Upload.POST tz env request stored) = stored /\
     (forall pw, Upload.adminPassword env = Some pw -> truthy pw = true ->
        Upload.password request = Some pw ->
        Upload.POST tz env request stored = (Upload.CouldNotParseAnyRows, stored))) /\
  (forall answers now diskOk stored,
     Fetch.fetchCSV answers = Some text ->
     Fetch.main answers now diskOk stored = (Fetch.NoRowsParsed, stored)).
Proof.
  intro Hfail. split; [|split].
  - intro parseLU. now rewrite parseCSV_structural_failure.
  - intros tz env request stored Hfile.
    assert (Hp : Upload.parseCSV tz text = Ingest.noData)
      by now apply parseCSV_structural_failure.
    split.
    + unfold Upload.POST. rewrite Hfile, Hp. simpl.
      destruct (Upload.adminPassword env) as [pw|]; [|reflexivity].
      destruct (negb (truthy pw)); [reflexivity|].
      now destruct (negb (Upload.samePassword (Upload.password request) pw)).
    + intros pw Hpw Ht Hreq. unfold Upload.POST.
      rewrite Hpw, Ht, Hreq, Hfile, Hp. simpl. now rewrite String.eqb_refl.
  - intros answers now diskOk stored Hfetch.
    unfold Fetch.main. rewrite Hfetch.
    unfold Fetch.parseCSV. now rewrite parseCSV_structural_failure.
Qed.

(** C7. When the header resolves a building and a bed-count column, the
    rows are the normalised data lines whose building cell is not blank,
    in file order, so there are as many rows as such lines; a line whose
    building cell is blank after trimming gives no row and the parse goes
    on.  This holds with the resolver of either entry point. *)
Theorem rows_count_nonblank_lines (parseLastUpdated : string -> option string)
    (text : string) (c : Ingest.Cols) :
  Ingest.resolve (Spec.headers text) = Some c ->
  Ingest.rows (Ingest.parseCSV parseLastUpdated text)
    = map (Spec.rowFrom c) (filter (Spec.nonBlank c) (Spec.dataCells text))
  /\ List.length (Ingest.rows (Ingest.parseCSV parseLastUpdated text))
    = List.length (filter (Spec.nonBlank c) (Spec.dataCells text)).
Proof.
  intro Hres. pose proof (parseCSV_rows parseLastUpdated text c Hres) as H.
  split; [exact H|]. rewrite H. apply length_map.
Qed.

(** C10. The snapshot a successful ingestion commits carries the timestamp
    of the first data line, in file order among those with a non-blank
    building, whose updated-at cell is not empty and is resolved; later
    cells play no part; when no cell is resolved, or no updated-at column
    is found, it carries the wall-clock instant of the ingestion.  This
    holds for the upload and for the scheduled fetch. *)
Theorem committed_timestamp_first_resolved_cell :
  (forall tz env request stored n m stored' text,
     Upload.file request = Some text ->
     Upload.POST tz env request stored = (Upload.Success n m, stored') ->
     exists c,
       Ingest.resolve (Spec.headers text) = Some c /\
       option_map timestamp (Spec.lastSnapshot (Store.load stored'))
       = Some (Spec.committedTime (Upload.parseLastUpdated tz) c
                 (Spec.dataCells text) (Upload.now env))) /\
  (forall answers now diskOk stored total stored' text,
     Fetch.fetchCSV answers = Some text ->
     Fetch.main answers now diskOk stored = (Fetch.Saved total, stored') ->
     exists c,
       Ingest.resolve (Spec.headers text) = Some c /\
       option_map timestamp (Spec.lastSnapshot (Store.load stored'))
       = Some (Spec.committedTime Fetch.parseLastUpdated c
                 (Spec.dataCells text) now)).
Proof.
  split.
  - intros tz env request stored n m stored' text Hfile HP.
    apply POST_success in HP as (text' & Hfile' & Hrows & ->).
    assert (text' = text) by congruence. subst text'.
    destruct (rows_resolved _ text Hrows) as [c Hres].
    exists c. split; [exact Hres|].
    simpl. rewrite lastSnapshot_push. simpl.
    unfold Upload.parseCSV. now rewrite (parseCSV_stamp _ text c).
  - intros answers now diskOk stored total stored' text Hfetch HM.
    apply main_saved in HM as (text' & Hfetch' & Hrows & ->).
    assert (text' = text) by congruence. subst text'.
    destruct (rows_resolved _ text Hrows) as [c Hres].
    exists c. split; [exact Hres|].
    simpl. rewrite lastSnapshot_push. simpl.
    unfold Fetch.parseCSV. now rewrite (parseCSV_stamp _ text c).
Qed.

(** * Facts about [parseInt] *)

Lemma parseInt_nonneg (s : string) (n : Z) :
  Spec.leadingMinus s = false -> parseInt s = Some n -> (0 <= n)%Z.
Proof.
  unfold Spec.leadingMinus, parseInt, Ingest.startsWith.
  destruct (trimStart s) as [|ch r].
  - simpl. discriminate.
  - intros Hm. rewrite Hm.
    set (sg := if Ascii.eqb ch "+" then (1%Z, r) else (1%Z, String ch r)).
    assert (Hsg : fst sg = 1%Z) by (unfold sg; now destruct (Ascii.eqb ch "+")).
    destruct sg as [sign s2]. simpl in Hsg. subst sign.
    match goal with
    | |- (let '(radix, s3) := ?e in _) = _ -> _ => destruct e as [radix s3]
    end.
    destruct (readDigits radix s3 0%N false) as [v|]; [|discriminate].
    intro H. injection H as <-. destruct v; simpl; lia.
Qed.

Lemma parseIntOr0_nonneg (cell : string) :
  Spec.leadingMinus cell = false -> (0 <= parseIntOr0 (Some cell))%Z.
Proof.
  intro H. simpl. destruct (parseInt cell) as [n|] eqn:E; [|lia].
  now apply (parseInt_nonneg cell).
Qed.

(** * The claim on the rows *)

Lemma orElse_default (idx : option nat) (cells : list string) (dflt : string) :
  Forall Spec.quoteFree cells ->
  Spec.absentOrEmpty idx cells ->
  Ingest.optionalField idx cells dflt = dflt.
Proof.
  intros Hq H. unfold Ingest.optionalField, Spec.absentOrEmpty, Ingest.cleanCell in *.
  destruct idx as [i|]; [|reflexivity].
  destruct (nth_error cells i) as [cell|]; [|reflexivity].
  subst cell. reflexivity.
Qed.

Lemma kept_building_trimmed (c : Ingest.Cols) (cells : list string) :
  Spec.kept c cells = true ->
  trim (building (Spec.rowFrom c cells)) <> EmptyString.
Proof.
  unfold Spec.kept, Spec.rowFrom, Ingest.rowOf. simpl.
  unfold Ingest.cleanCell.
  destruct (nth_error cells (Ingest.buildingIdx c)) as [cell|]; simpl;
    [|discriminate].
  intro H. rewrite H. rewrite trim_idem. now apply truthy_nonempty.
Qed.


(** * Facts about column resolution under a rearrangement of the columns *)

Lemma findIndexFrom_shift {A} (f : A -> bool) (l : list A) (i : nat) :
  JS.findIndexFrom f l (S i) = option_map S (JS.findIndexFrom f l i).
Proof.
  revert i. induction l as [|x l IH]; intros i; simpl; [reflexivity|].
  destruct (f x); [reflexivity|apply IH].
Qed.

Lemma findIndex_cons {A} (f : A -> bool) (x : A) (l : list A) :
  findIndex f (x :: l)
  = if f x then Some 0 else option_map S (findIndex f l).
Proof.
  unfold findIndex. simpl. destruct (f x); [reflexivity|].
  apply findIndexFrom_shift.
Qed.

Lemma findIndex_Some {A} (f : A -> bool) (l : list A) (d : A) (j : nat) :
  findIndex f l = Some j -> j < List.length l /\ f (nth j l d) = true.
Proof.
  revert j. induction l as [|x l IH]; intros j.
  - discriminate.
  - rewrite findIndex_cons. destruct (f x) eqn:E.
    + intro H. injection H as <-. simpl. split; [lia|exact E].
    + destruct (findIndex f l) as [k|]; [|discriminate].
      intro H. injection H as <-. destruct (IH k eq_refl) as [H1 H2].
      simpl. split; [lia|exact H2].
Qed.

Lemma findIndex_None {A} (f : A -> bool) (l : list A) :
  findIndex f l = None <-> existsb f l = false.
Proof.
  induction l as [|x l IH]; [now split|].
  rewrite findIndex_cons. simpl. destruct (f x); simpl.
  - split; discriminate.
  - destruct (findIndex f l); simpl.
    + split; [discriminate|]. intro H. apply IH in H. discriminate.
    + split; [|reflexivity]. intros _. now apply IH.
Qed.

Lemma filter_nil_nth {A} (f : A -> bool) (l : list A) (d : A) (b : nat) :
  List.length (filter f l) = 0 -> b < List.length l -> f (nth b l d) = false.
Proof.
  intros H Hb. apply length_zero_iff_nil in H.
  destruct (f (nth b l d)) eqn:E; [|reflexivity].
  assert (Hin : In (nth b l d) (filter f l))
    by (apply filter_In; split; [now apply nth_In|exact E]).
  rewrite H in Hin. destruct Hin.
Qed.

Lemma unique_match {A} (f : A -> bool) (l : list A) (d : A) :
  List.length (filter f l) = 1 ->
  forall a b, a < List.length l -> b < List.length l ->
    f (nth a l d) = true -> f (nth b l d) = true -> a = b.
Proof.
  induction l as [|x l IH]; simpl; [discriminate|].
  intros H a b Ha Hb Fa Fb.
  destruct (f x) eqn:E.
  - simpl in H. assert (H0 : List.length (filter f l) = 0) by lia.
    destruct a as [|a], b as [|b]; try reflexivity.
    + rewrite (filter_nil_nth f l d b H0) in Fb by lia. discriminate.
    + rewrite (filter_nil_nth f l d a H0) in Fa by lia. discriminate.
    + rewrite (filter_nil_nth f l d a H0) in Fa by lia. discriminate.
  - destruct a as [|a], b as [|b]; try congruence.
    f_equal. apply IH; auto; lia.
Qed.

Section Rearranged.

Variable p : list nat.
Variable n : nat.
Hypothesis Hperm : Permutation p (seq 0 n).

Lemma perm_length : List.length p = n.
Proof. rewrite (Permutation_length Hperm). apply length_seq. Qed.

Lemma perm_bound (j : nat) : j < List.length p -> nth j p 0 < n.
Proof.
  intro Hj. assert (Hin : In (nth j p 0) (seq 0 n)).
  { eapply Permutation_in; [exact Hperm|]. now apply nth_In. }
  apply in_seq in Hin. lia.
Qed.

Lemma perm_onto (i : nat) : i < n -> exists j, j < List.length p /\ nth j p 0 = i.
Proof.
  intro Hi. assert (Hin : In i p).
  { eapply Permutation_in; [apply Permutation_sym, Hperm|].
    apply in_seq. lia. }
  destruct (In_nth p i 0 Hin) as (j & Hj & Hn). eauto.
Qed.

Lemma nth_permute (l : list string) (j : nat) :
  j < List.length p ->
  nth j (Spec.permute p l) EmptyString = nth (nth j p 0) l EmptyString.
Proof.
  intro Hj. unfold Spec.permute.
  rewrite (nth_indep _ EmptyString (nth 0 l EmptyString)) by (rewrite length_map; lia).
  now rewrite (map_nth (fun i => nth i l EmptyString) p 0 j).
Qed.

Lemma existsb_permute (f : string -> bool) (l : list string) :
  List.length l = n ->
  existsb f (Spec.permute p l) = existsb f l.
Proof.
  intro Hl. apply eq_true_iff_eq. rewrite !existsb_exists. split.
  - intros (x & Hx & Fx). unfold Spec.permute in Hx.
    apply in_map_iff in Hx as (i & <- & Hi).
    exists (nth i l EmptyString). split; [|exact Fx].
    apply nth_In. rewrite Hl.
    destruct (In_nth p i 0 Hi) as (j & Hj & <-). now apply perm_bound.
  - intros (x & Hx & Fx).
    destruct (In_nth l x EmptyString Hx) as (i & Hi & <-).
    destruct (perm_onto i) as (j & Hj & Hji); [lia|].
    exists (nth i l EmptyString). split; [|exact Fx].
    unfold Spec.permute. apply in_map_iff. exists i. split; [reflexivity|].
    rewrite <- Hji. now apply nth_In.
Qed.

Lemma findCol_permute (hs : list string) (keywords : list string) :
  List.length hs = n ->
  Spec.unambiguous hs keywords = true ->
  Spec.sameColumn p n (Ingest.findCol hs keywords)
                  (Ingest.findCol (Spec.permute p hs) keywords).
Proof.
  intros Hl. induction keywords as [|kw rest IH]; simpl; [trivial|].
  set (f := fun h => includes h kw).
  rewrite <- (existsb_permute f hs Hl).
  destruct (existsb f (Spec.permute p hs)) eqn:Ex.
  - intro Hu. apply Nat.eqb_eq in Hu.
    destruct (findIndex f hs) as [i|] eqn:Ei.
    2:{ apply findIndex_None in Ei.
        rewrite <- (existsb_permute f hs Hl) in Ei. congruence. }
    destruct (findIndex f (Spec.permute p hs)) as [j|] eqn:Ej.
    2:{ apply findIndex_None in Ej. congruence. }
    apply (findIndex_Some f hs EmptyString) in Ei as [Hi Fi].
    apply (findIndex_Some f _ EmptyString) in Ej as [Hj Fj].
    unfold Spec.permute in Hj. rewrite length_map in Hj.
    rewrite nth_permute in Fj by exact Hj.
    simpl. split; [exact Hj|]. split; [|lia].
    apply (unique_match f hs EmptyString Hu); auto.
    rewrite Hl. now apply perm_bound.
  - intro Hu.
    assert (E1 : findIndex f (Spec.permute p hs) = None)
      by now apply findIndex_None.
    assert (E2 : findIndex f hs = None).
    { apply findIndex_None. now rewrite <- (existsb_permute f hs Hl). }
    rewrite E1, E2. now apply IH.
Qed.

Lemma nth_error_permute (cells : list string) (i j : nat) :
  List.length cells = n ->
  Spec.sameColumn p n (Some i) (Some j) ->
  nth_error (Spec.permute p cells) j = nth_error cells i.
Proof.
  intros Hl (Hj & Hji & Hi).
  rewrite (nth_error_nth' cells EmptyString) by lia.
  rewrite (nth_error_nth' (Spec.permute p cells) EmptyString)
    by (unfold Spec.permute; rewrite length_map; exact Hj).
  rewrite nth_permute by exact Hj. now rewrite Hji.
Qed.

Lemma optionalField_permute (cells : list string) (oi oj : option nat) (dflt : string) :
  List.length cells = n ->
  Spec.sameColumn p n oi oj ->
  Ingest.optionalField oj (Spec.permute p cells) dflt
  = Ingest.optionalField oi cells dflt.
Proof.
  intros Hl H. destruct oi as [i|], oj as [j|]; simpl in H; try contradiction;
    [|reflexivity].
  unfold Ingest.optionalField, Ingest.cleanCell.
  now rewrite (nth_error_permute cells i j Hl H).
Qed.

Section LoopRearranged.

Variable parseLastUpdated : string -> option string.
Variables c c' : Ingest.Cols.
Hypothesis Hcols : Spec.sameColumns p n c c'.

Lemma loop_permute (table : list (list string)) :
  Forall (fun cells => List.length cells = n) table ->
  forall lu,
    Ingest.loop parseLastUpdated c' (map (Spec.permute p) table) lu
    = Ingest.loop parseLastUpdated c table lu.
Proof.
  destruct Hcols as (Hb & Hr & Hg & Hbed & Hu).
  induction 1 as [|cells rest Hlen _ IH]; intros lu; simpl; [reflexivity|].
  assert (Eb : Ingest.cleanCell (Spec.permute p cells) (Ingest.buildingIdx c')
               = Ingest.cleanCell cells (Ingest.buildingIdx c)).
  { unfold Ingest.cleanCell. now rewrite (nth_error_permute cells _ _ Hlen Hb). }
  rewrite Eb.
  destruct (Ingest.cleanCell cells (Ingest.buildingIdx c)) as [b|]; [|apply IH].
  destruct (truthy b); [|apply IH].
  assert (Es : Ingest.stampCell c' (Spec.permute p cells) lu
               = Ingest.stampCell c cells lu).
  { unfold Ingest.stampCell. destruct (truthyOpt lu); [reflexivity|].
    destruct (Ingest.updatedIdx c) as [i|], (Ingest.updatedIdx c') as [j|];
      simpl in Hu; try contradiction; [|reflexivity].
    now rewrite (nth_error_permute cells i j Hlen Hu). }
  assert (Er : Ingest.rowOf c' (Spec.permute p cells) b = Ingest.rowOf c cells b).
  { unfold Ingest.rowOf.
    rewrite (optionalField_permute cells _ _ "Unknown" Hlen Hr).
    rewrite (optionalField_permute cells _ _ "All" Hlen Hg).
    now rewrite (nth_error_permute cells _ _ Hlen Hbed). }
  rewrite Es, Er, IH. reflexivity.
Qed.

End LoopRearranged.

Lemma resolve_permute (hs : list string) :
  List.length hs = n ->
  Spec.allUnambiguous hs = true ->
  match Ingest.resolve hs, Ingest.resolve (Spec.permute p hs) with
  | Some c, Some c' => Spec.sameColumns p n c c'
  | None, None => True
  | _, _ => False
  end.
Proof.
  intros Hl Hu. unfold Spec.allUnambiguous in Hu.
  repeat (apply andb_prop in Hu as [Hu ?]).
  pose proof (findCol_permute hs Ingest.buildingKeywords Hl Hu) as Hb.
  pose proof (findCol_permute hs Ingest.bedKeywords Hl ltac:(assumption)) as Hbed.
  pose proof (findCol_permute hs Ingest.roomTypeKeywords Hl ltac:(assumption)) as Hr.
  pose proof (findCol_permute hs Ingest.genderKeywords Hl ltac:(assumption)) as Hg.
  pose proof (findCol_permute hs Ingest.updatedKeywords Hl ltac:(assumption)) as Hup.
  unfold Ingest.resolve.
  destruct (Ingest.findCol hs Ingest.buildingKeywords) as [b|],
           (Ingest.findCol (Spec.permute p hs) Ingest.buildingKeywords) as [b'|];
    simpl in Hb; try contradiction; [|trivial].
  destruct (Ingest.findCol hs Ingest.bedKeywords) as [bd|],
           (Ingest.findCol (Spec.permute p hs) Ingest.bedKeywords) as [bd'|];
    simpl in Hbed; try contradiction; [|trivial].
  unfold Spec.sameColumns. simpl. auto.
Qed.

Lemma parseTable_permute (parseLastUpdated : string -> option string)
    (hs : list string) (table : list (list string)) :
  List.length hs = n ->
  Forall (fun cells => List.length cells = n) table ->
  Spec.allUnambiguous hs = true ->
  Ingest.parseTable parseLastUpdated (Spec.permute p hs) (map (Spec.permute p) table)
  = Ingest.parseTable parseLastUpdated hs table.
Proof.
  intros Hl Ht Hu. pose proof (resolve_permute hs Hl Hu) as H.
  unfold Ingest.parseTable.
  destruct (Ingest.resolve hs) as [c|],
           (Ingest.resolve (Spec.permute p hs)) as [c'|];
    try contradiction; [|reflexivity].
  now rewrite (loop_permute parseLastUpdated c c' H table Ht).
Qed.

End Rearranged.


Lemma lines_length (text : string) :
  List.length (Ingest.linesOf text) = S (List.length (Spec.dataCells text)).
Proof.
  unfold Spec.dataCells, Ingest.linesOf. rewrite length_map.
  pose proof (split_nonempty LF (trim text)) as H.
  destruct (split LF (trim text)); [congruence|reflexivity].
Qed.





Lemma rows_count_nonblank_lines_witness :
  List.length (Ingest.rows (Fetch.parseCSV Examples.withBlankLine)) = 2.
Proof.
  destruct (rows_count_nonblank_lines Fetch.parseLastUpdated
              Examples.withBlankLine Examples.withBlankLineCols) as [_ H].
  - vm_compute. reflexivity.
  - unfold Fetch.parseCSV. rewrite H. vm_compute. reflexivity.
Defined.

Lemma structural_failure_writes_nothing_witness :
  Upload.POST Spec.utcHost Examples.env (Examples.upload Examples.noBedColumn)
    (Some Examples.olderThenNewer)
  = (Upload.CouldNotParseAnyRows, Some Examples.olderThenNewer).
Proof.
  destruct (structural_failure_writes_nothing Examples.noBedColumn) as (_ & H & _).
  - right. right. vm_compute. reflexivity.
  - destruct (H Spec.utcHost Examples.env (Examples.upload Examples.noBedColumn)
                (Some Examples.olderThenNewer) eq_refl) as [_ H2].
    apply (H2 "secret"); reflexivity.
Defined.

Lemma committed_timestamp_first_resolved_cell_witness :
  option_map timestamp
    (Spec.lastSnapshot
       (Store.load (snd (Fetch.main [Some Examples.withBlankLine] "2026-03-10T12:00:00.000Z" true None))))
  = Some "2026-03-10T12:00:00.000Z"
  /\
  option_map timestamp
    (Spec.lastSnapshot
       (Store.load (snd (Upload.POST Spec.utcHost Examples.env (Examples.upload Examples.march7) None))))
  = Some "2026-03-07T23:00:00.000Z".
Proof.
  destruct committed_timestamp_first_resolved_cell as [HU HF].
  split.
  - destruct (HF [Some Examples.withBlankLine] "2026-03-10T12:00:00.000Z" true None 1
                (snd (Fetch.main [Some Examples.withBlankLine] "2026-03-10T12:00:00.000Z" true None))
                Examples.withBlankLine) as (c & Hc & H);
      [vm_compute; reflexivity|vm_compute; reflexivity|].
    rewrite H.
    assert (E : c = Examples.withBlankLineCols)
      by (vm_compute in Hc; injection Hc as <-; reflexivity).
    subst c. vm_compute. reflexivity.
  - destruct (HU Spec.utcHost Examples.env (Examples.upload Examples.march7) None 1 1
                (snd (Upload.POST Spec.utcHost Examples.env (Examples.upload Examples.march7) None))
                Examples.march7) as (c & Hc & H);
      [vm_compute; reflexivity|vm_compute; reflexivity|].
    rewrite H.
    assert (E : c = Examples.march7Cols)
      by (vm_compute in Hc; injection Hc as <-; reflexivity).
    subst c. vm_compute. reflexivity.
Defined.

(** * The two timestamp resolvers *)

Lemma endsWith_unfold (t suffix : string) :
  Spec.endsWith t suffix
  = String.eqb t suffix ||
    match t with
    | EmptyString => false
    | String _ t' => Spec.endsWith t' suffix
    end.
Proof. destruct t; reflexivity. Qed.

Lemma endsWith_refl (t : string) : Spec.endsWith t t = true.
Proof.
  destruct t as [|ch t]; [reflexivity|].
  change (Spec.endsWith (String ch t) (String ch t))
    with (String.eqb (String ch t) (String ch t)
          || Spec.endsWith t (String ch t)).
  now rewrite String.eqb_refl.
Qed.

Lemma endsWith_app_r (a b suffix : string) :
  Spec.endsWith b suffix = true -> Spec.endsWith (a ++ b) suffix = true.
Proof.
  intro H. induction a as [|ch a IH]; [exact H|].
  change (String ch a ++ b)%string with (String ch (a ++ b)).
  rewrite endsWith_unfold, IH. apply orb_true_r.
Qed.

Lemma append_nonempty_r (a b : string) :
  b <> EmptyString -> (a ++ b)%string <> EmptyString.
Proof. destruct a; simpl; [trivial|discriminate]. Qed.

Lemma lastChar_app (a b : string) :
  b <> EmptyString -> Spec.lastChar (a ++ b) = Spec.lastChar b.
Proof.
  intro Hb. induction a as [|ch a IH]; simpl; [reflexivity|].
  pose proof (append_nonempty_r a b Hb) as Hn.
  destruct (a ++ b)%string; [congruence|exact IH].
Qed.

Lemma endsWith_lastChar (t suffix : string) :
  Spec.endsWith t suffix = true -> suffix <> EmptyString ->
  Spec.lastChar t = Spec.lastChar suffix.
Proof.
  intros H Hs. induction t as [|ch t IH]; rewrite endsWith_unfold in H.
  - rewrite orb_false_r in H. apply String.eqb_eq in H. congruence.
  - apply orb_true_iff in H as [H|H].
    + apply String.eqb_eq in H. now rewrite H.
    + specialize (IH H). destruct t as [|ch' t'].
      * rewrite endsWith_unfold, orb_false_r in H.
        apply String.eqb_eq in H. congruence.
      * exact IH.
Qed.

Lemma lastChar_cons (ch : ascii) (t : string) :
  t <> EmptyString -> Spec.lastChar (String ch t) = Spec.lastChar t.
Proof. destruct t; [congruence|reflexivity]. Qed.

Ltac nonempty :=
  first [ discriminate | apply append_nonempty_r; nonempty ].

Ltac last_char :=
  repeat first [ rewrite lastChar_app by nonempty
               | rewrite lastChar_cons by nonempty ];
  reflexivity.

(** The resolver of the fetch script follows the fixed rule on every
    input the pattern matches: the offset is -07:00 on or after March 8
    and -08:00 before. *)
Lemma fetch_offset_rule (raw : string) (mt : Ingest.StampMatch) :
  truthy raw = true ->
  Ingest.matchStamp (trim (removeQuotes raw)) = Some mt ->
  exists s,
    Fetch.parseLastUpdated raw = Some s /\
    Spec.endsWith s
      (if Spec.onOrAfterMarch8 (parseIntD (Ingest.g_month mt))
                               (parseIntD (Ingest.g_day mt))
       then "-07:00" else "-08:00") = true.
Proof.
  intros Hraw Hm. unfold Fetch.parseLastUpdated. rewrite Hraw, Hm.
  cbn [negb]. cbv zeta.
  eexists. split; [reflexivity|].
  unfold Spec.onOrAfterMarch8. rewrite Z.gtb_ltb, Z.geb_leb.
  repeat apply endsWith_app_r. apply endsWith_refl.
Qed.

Lemma fetch_stamp_last_char (raw s : string) :
  Fetch.parseLastUpdated raw = Some s -> Spec.lastChar s = Some "0"%char.
Proof.
  unfold Fetch.parseLastUpdated.
  destruct (negb (truthy raw)); [discriminate|].
  destruct (Ingest.matchStamp _) as [mt|]; [|discriminate].
  cbv zeta. intro H. injection H as <-.
  match goal with |- context [if ?b then _ else _] => destruct b end;
    last_char.
Qed.

(** The resolver of the upload never writes an offset: whatever the host,
    its result is a UTC string ending in Z. *)
Lemma toISOString_last_char (t : Z) :
  Spec.lastChar (JSDate.toISOString t) = Some "Z"%char.
Proof.
  unfold JSDate.toISOString.
  destruct (JSDate.civilFromDays _) as [[y m] d].
  last_char.
Qed.

Lemma upload_stamp_is_utc (tz : Z -> Z) (raw s : string) :
  Upload.parseLastUpdated tz raw = Some s ->
  Spec.lastChar s = Some "Z"%char
  /\ Spec.endsWith s "-08:00" = false /\ Spec.endsWith s "-07:00" = false.
Proof.
  unfold Upload.parseLastUpdated.
  destruct (negb (truthy raw)); [discriminate|].
  destruct (Ingest.matchStamp _) as [mt|]; [|discriminate].
  destruct (JSDate.newDateLocal _ _ _ _ _ _) as [t|]; [|discriminate].
  intro H. injection H as <-.
  pose proof (toISOString_last_char t) as HZ.
  split; [exact HZ|].
  split.
  - destruct (Spec.endsWith (JSDate.toISOString t) "-08:00") eqn:E; [|reflexivity].
    apply endsWith_lastChar in E; [|discriminate]. rewrite HZ in E. discriminate E.
  - destruct (Spec.endsWith (JSDate.toISOString t) "-07:00") eqn:E; [|reflexivity].
    apply endsWith_lastChar in E; [|discriminate]. rewrite HZ in E. discriminate E.
Qed.

(** on no cell do the two resolvers give the same timestamp *)
Lemma resolvers_never_agree (tz : Z -> Z) (raw s : string) :
  Fetch.parseLastUpdated raw = Some s -> Upload.parseLastUpdated tz raw <> Some s.
Proof.
  intros Hf Hu. apply fetch_stamp_last_char in Hf.
  apply upload_stamp_is_utc in Hu as [Hu _]. congruence.
Qed.

(** the rows do not depend on the resolver *)
Lemma rows_same_for_both_entry_points (tz : Z -> Z) (text : string) :
  Ingest.rows (Upload.parseCSV tz text) = Ingest.rows (Fetch.parseCSV text).
Proof.
  unfold Upload.parseCSV, Fetch.parseCSV.
  destruct (Ingest.resolve (Spec.headers text)) as [c|] eqn:E.
  - now rewrite !(parseCSV_rows _ text c E).
  - now rewrite !parseCSV_unresolved.
Qed.

(** C3 fails on the upload: on the export [march7] both entry points give
    the same rows, but the fetch script resolves the updated-at cell to
    23:00 at UTC-8 and the upload, on a host on UTC, to 23:00 UTC: two
    different strings and two instants eight hours apart. *)
Theorem entry_points_resolve_different_timestamps :
  Ingest.rows (Fetch.parseCSV Examples.march7)
    = Ingest.rows (Upload.parseCSV Spec.utcHost Examples.march7)
  /\ Ingest.lastUpdated (Fetch.parseCSV Examples.march7)
    = Some "2026-03-07T23:00:00-08:00"
  /\ Ingest.lastUpdated (Upload.parseCSV Spec.utcHost Examples.march7)
    = Some "2026-03-07T23:00:00.000Z"
  /\ JSDate.parse "2026-03-07T23:00:00-08:00"
    = option_map (fun t => (t + 8 * 3600000)%Z)
                 (JSDate.parse "2026-03-07T23:00:00.000Z").
Proof. vm_compute. repeat split; reflexivity. Qed.

(** C4 fails on the upload: on a host on UTC the two inputs of the
    specification resolve to UTC strings without offset, eight and seven
    hours before the instants the rule prescribes; on a host on Pacific
    time midnight of March 8 resolves at UTC-8, not UTC-7. *)
Theorem upload_resolver_ignores_offset_rule :
  Upload.parseLastUpdated Spec.utcHost "3/7/2026 11:00 PM"
    = Some "2026-03-07T23:00:00.000Z"
  /\ Upload.parseLastUpdated Spec.utcHost "3/8/2026 12:00 AM"
    = Some "2026-03-08T00:00:00.000Z"
  /\ Upload.parseLastUpdated Examples.pacificHost "3/8/2026 12:00 AM"
    = Some "2026-03-08T08:00:00.000Z"
  /\ Fetch.parseLastUpdated "3/7/2026 11:00 PM" = Some "2026-03-07T23:00:00-08:00"
  /\ Fetch.parseLastUpdated "3/8/2026 12:00 AM" = Some "2026-03-08T00:00:00-07:00"
  /\ option_map JSDate.toISOString (JSDate.parse "2026-03-08T00:00:00-07:00")
    = Some "2026-03-08T07:00:00.000Z".
Proof. vm_compute. repeat split; reflexivity. Qed.

(** * The store *)

(** the fetch script skips a snapshot whose timestamp is already stored *)
Lemma fetch_duplicate_is_skipped (answers : list (option string))
    (now : string) (diskOk : bool) (stored : Store.File) (text : string) :
  Fetch.fetchCSV answers = Some text ->
  Ingest.rows (Fetch.parseCSV text) <> [] ->
  In (orElse (Ingest.lastUpdated (Fetch.parseCSV text)) now)
     (map timestamp (snapshots (Store.load stored))) ->
  Fetch.main answers now diskOk stored
  = (Fetch.Skipped (orElse (Ingest.lastUpdated (Fetch.parseCSV text)) now), stored).
Proof.
  intros Hf Hr Hin. unfold Fetch.main. rewrite Hf.
  destruct (Ingest.rows (Fetch.parseCSV text)) as [|r rs] eqn:E; [congruence|].
  simpl List.length. simpl Nat.eqb. cbv iota.
  assert (Hex : existsb
            (fun s => String.eqb (timestamp s)
                        (orElse (Ingest.lastUpdated (Fetch.parseCSV text)) now))
            (snapshots (Store.load stored)) = true).
  { apply existsb_exists. apply in_map_iff in Hin as (s & Hs & Hin).
    exists s. split; [exact Hin|]. rewrite Hs. apply String.eqb_refl. }
  now rewrite Hex.
Qed.

(** the upload appends whatever the stored timestamps are *)
Lemma upload_always_appends (tz : Z -> Z) (env : Upload.Env)
    (request : Upload.Request) (stored stored' : Store.File) (n m : nat) :
  Upload.POST tz env request stored = (Upload.Success n m, stored') ->
  List.length (snapshots (Store.load stored'))
  = S (List.length (snapshots (Store.load stored))).
Proof.
  intro H. apply POST_success in H as (text & _ & _ & ->).
  simpl. rewrite length_app. simpl. lia.
Qed.

(** C1 fails on the upload: uploading the export [march7] a second time
    succeeds and leaves two snapshots with the same timestamp. *)
Theorem upload_appends_duplicate_timestamp :
  fst Examples.uploadedTwice = Upload.Success 1 2
  /\ map timestamp (snapshots (Store.load (snd Examples.uploadedTwice)))
    = ["2026-03-07T23:00:00.000Z"; "2026-03-07T23:00:00.000Z"].
Proof. vm_compute. split; reflexivity. Qed.

(** * The page *)

(** [latest] and [prev] are the last and the last but one in insertion order *)
Lemma latest_is_last_inserted (h : HousingData) (s : Snapshot) :
  View.latest (Store.push h s) = rows s.
Proof.
  unfold View.latest, Store.push. simpl. rewrite length_app. simpl.
  replace (List.length (snapshots h) + 1) with (S (List.length (snapshots h))) by lia.
  simpl. rewrite Nat.sub_0_r, nth_error_app2 by lia.
  now rewrite Nat.sub_diag.
Qed.

Lemma prev_is_last_but_one_inserted (h : HousingData) (s1 s2 : Snapshot) :
  View.prev (Store.push (Store.push h s1) s2) = Some (rows s1).
Proof.
  unfold View.prev, Store.push. simpl. rewrite !length_app. simpl.
  replace (List.length (snapshots h) + 1 + 1) with (S (S (List.length (snapshots h)))) by lia.
  simpl. rewrite Nat.sub_0_r.
  rewrite nth_error_app1 by (rewrite length_app; simpl; lia).
  rewrite nth_error_app2 by lia. now rewrite Nat.sub_diag.
Qed.

(** C2 fails: after the export of March 9 and then the export of March 7
    were uploaded, the snapshot with the greatest instant is the first in
    the store, yet [latest] is the rows of March 7 and [prev] those of
    March 9. *)
Theorem latest_follows_insertion_order :
  exists newest oldest,
    snapshots Examples.newerThenOlder = [newest; oldest]
    /\ Spec.chronologicallyLast Examples.newerThenOlder newest
    /\ rows newest = [mkRow "Hedrick" "Unknown" "All" 12%Z]
    /\ rows oldest = [mkRow "Hedrick" "Unknown" "All" 15%Z]
    /\ View.latest Examples.newerThenOlder = rows oldest
    /\ View.prev Examples.newerThenOlder = Some (rows newest).
Proof.
  eexists. eexists. split; [vm_compute; reflexivity|].
  split; [|vm_compute; repeat split; reflexivity].
  split.
  - vm_compute. left. reflexivity.
  - intros s' Hin. vm_compute in Hin.
    destruct Hin as [<- | [<- | []]]; vm_compute; discriminate.
Qed.

(** * Facts about objects used as maps *)

Lemma get_set {A} (o : Obj.t A) (k k' : string) (v : A) :
  Obj.get (Obj.set o k v) k' = if String.eqb k k' then Some v else Obj.get o k'.
Proof.
  induction o as [|[k1 v1] o IH]; simpl; [reflexivity|].
  destruct (String.eqb_spec k1 k) as [->|Hne]; simpl.
  - now destruct (String.eqb k k').
  - rewrite IH. destruct (String.eqb_spec k k') as [<-|Hne'].
    + destruct (String.eqb_spec k1 k); [contradiction|reflexivity].
    + reflexivity.
Qed.

Lemma keys_set {A} (o : Obj.t A) (k : string) (v : A) (x : string) :
  In x (map fst (Obj.set o k v)) -> x = k \/ In x (map fst o).
Proof.
  induction o as [|[k1 v1] o IH]; simpl.
  - intros [<-|[]]. now left.
  - destruct (String.eqb k1 k); simpl.
    + intros [<-|H]; right; [now left|now right].
    + intros [<-|H]; [right; now left|].
      destruct (IH H) as [->|H']; [now left|right; now right].
Qed.

Lemma set_NoDup {A} (o : Obj.t A) (k : string) (v : A) :
  NoDup (map fst o) -> NoDup (map fst (Obj.set o k v)).
Proof.
  induction o as [|[k1 v1] o IH]; simpl; intro H.
  - constructor; [intros []|constructor].
  - inversion H as [|? ? Hnotin Hnd]; subst.
    destruct (String.eqb_spec k1 k) as [->|Hne]; simpl.
    + constructor; assumption.
    + constructor; [|now apply IH].
      intro Hin. apply keys_set in Hin as [->|Hin]; contradiction.
Qed.

Lemma In_get {A} (o : Obj.t A) (k : string) (v : A) :
  NoDup (map fst o) -> In (k, v) o -> Obj.get o k = Some v.
Proof.
  induction o as [|[k1 v1] o IH]; simpl; intros Hnd Hin; [contradiction|].
  inversion Hnd as [|? ? Hnotin Hnd']; subst.
  destruct Hin as [E|Hin].
  - injection E as -> ->. now rewrite String.eqb_refl.
  - destruct (String.eqb_spec k1 k) as [->|Hne].
    + exfalso. apply Hnotin. apply in_map_iff. now exists (k, v).
    + now apply IH.
Qed.

(** * Facts about the grouping *)

Local Opaque View.groupKey.

Lemma sumFor_app (k : string) (a b : list Row) :
  Spec.sumFor k (a ++ b) = (Spec.sumFor k a + Spec.sumFor k b)%Z.
Proof.
  unfold Spec.sumFor. rewrite filter_app.
  induction (filter (fun r => String.eqb (View.groupKey r) k) a) as [|r a' IH];
    cbn [fold_right app]; [reflexivity|rewrite IH; lia].
Qed.

Lemma sumFor_cons (k : string) (r : Row) (f : list Row) :
  Spec.sumFor k (r :: f)
  = if String.eqb (View.groupKey r) k then (bedSpaces r + Spec.sumFor k f)%Z
    else Spec.sumFor k f.
Proof.
  unfold Spec.sumFor. simpl. now destruct (String.eqb (View.groupKey r) k).
Qed.

Lemma sumFor_absent (k : string) (f : list Row) :
  Spec.hasKey k f = false -> Spec.sumFor k f = 0%Z.
Proof.
  induction f as [|r f IH]; [reflexivity|].
  unfold Spec.hasKey. simpl. rewrite sumFor_cons.
  destruct (String.eqb (View.groupKey r) k); simpl; [discriminate|exact IH].
Qed.

Lemma hasKey_app (k : string) (a b : list Row) :
  Spec.hasKey k (a ++ b) = Spec.hasKey k a || Spec.hasKey k b.
Proof. unfold Spec.hasKey. apply existsb_app. Qed.

Lemma get_sumByKey (f : list Row) :
  forall (g : Obj.t Z) (k : string),
    Obj.get (View.sumByKey f g) k
    = match Obj.get g k with
      | Some v => Some (v + Spec.sumFor k f)%Z
      | None => if Spec.hasKey k f then Some (Spec.sumFor k f) else None
      end.
Proof.
  induction f as [|r f IH]; intros g k; simpl.
  - destruct (Obj.get g k); [f_equal; unfold Spec.sumFor; simpl; lia|reflexivity].
  - rewrite IH, get_set, sumFor_cons. unfold Spec.hasKey. simpl.
    destruct (String.eqb_spec (View.groupKey r) k) as [->|Hne]; simpl.
    + unfold View.getOr0. destruct (Obj.get g k); f_equal; lia.
    + reflexivity.
Qed.

Lemma addRow_grouped (done : list Row) (g : Obj.t GroupedRow.t) (r : Row) :
  Spec.grouped done g -> Spec.grouped (done ++ [r]) (View.addRow g r).
Proof.
  intros [Hnd Hg]. split; [now apply set_NoDup|].
  intro k. unfold View.addRow. rewrite get_set, sumFor_app, hasKey_app.
  rewrite sumFor_cons. unfold Spec.hasKey at 2 4. simpl.
  destruct (String.eqb_spec (View.groupKey r) k) as [<-|Hne]; simpl.
  - specialize (Hg (View.groupKey r)).
    destruct (Obj.get g (View.groupKey r)) as [row|]; simpl.
    + destruct Hg as (H1 & H2 & H3 & H4).
      repeat split; [exact H1|rewrite H2; unfold Spec.sumFor; simpl; lia
                    |exact H3|apply orb_true_r].
    + rewrite (sumFor_absent _ _ Hg).
      repeat split; [unfold Spec.sumFor; simpl; lia|apply orb_true_r].
  - specialize (Hg k). destruct (Obj.get g k) as [row|].
    + destruct Hg as (H1 & H2 & H3 & H4).
      repeat split; [exact H1|rewrite H2; unfold Spec.sumFor; simpl; lia
                    |exact H3|now rewrite H4].
    + now rewrite Hg.
Qed.

Lemma fold_addRow_grouped (f : list Row) :
  forall done g,
    Spec.grouped done g -> Spec.grouped (done ++ f) (fold_left View.addRow f g).
Proof.
  induction f as [|r f IH]; intros done g H; simpl.
  - now rewrite app_nil_r.
  - replace (done ++ r :: f) with ((done ++ [r]) ++ f)
      by (rewrite <- app_assoc; reflexivity).
    apply IH. now apply addRow_grouped.
Qed.

Lemma group_grouped (f : list Row) : Spec.grouped f (View.group f).
Proof.
  apply (fold_addRow_grouped f [] []). split; [constructor|].
  intro k. reflexivity.
Qed.

Lemma insertBy_In {A} (cmp : A -> A -> Z) (x y : A) (l : list A) :
  In y (View.insertBy cmp x l) <-> y = x \/ In y l.
Proof.
  induction l as [|z l IH]; simpl.
  - intuition congruence.
  - destruct (cmp x z <=? 0)%Z; simpl; [intuition congruence|].
    rewrite IH. intuition congruence.
Qed.

Lemma sortBy_In {A} (cmp : A -> A -> Z) (y : A) (l : list A) :
  In y (View.sortBy cmp l) <-> In y l.
Proof.
  unfold View.sortBy. induction l as [|x l IH]; simpl; [reflexivity|].
  rewrite insertBy_In, IH. intuition congruence.
Qed.

Lemma withChange_key (pt : option (Obj.t Z)) (row : GroupedRow.t) :
  GroupedRow.key (View.withChange pt row) = GroupedRow.key row.
Proof.
  unfold View.withChange. destruct pt as [totals|]; [|reflexivity].
  now destruct (Obj.get totals (GroupedRow.key row)).
Qed.

Lemma withChange_totalBeds (pt : option (Obj.t Z)) (row : GroupedRow.t) :
  GroupedRow.totalBeds (View.withChange pt row) = GroupedRow.totalBeds row.
Proof.
  unfold View.withChange. destruct pt as [totals|]; [|reflexivity].
  now destruct (Obj.get totals (GroupedRow.key row)).
Qed.

(** * The claim on the change column *)



(** * The scenarios of the specification, run on the model *)

(** two rows of one building without room type: one group of 15 beds
    with both genders *)
Example scenario_grouping :
  map (fun row => (GroupedRow.building row, GroupedRow.roomType row,
                   GroupedRow.totalBeds row, GroupedRow.byGender row))
      (Obj.values (View.group (Ingest.rows (Fetch.parseCSV Examples.withBlankLine))))
  = [("Hedrick", "Unknown", 15%Z, [("Female", 10%Z); ("Male", 5%Z)])].
Proof. vm_compute. reflexivity. Qed.

(** a second snapshot of 12 beds after a first of 15: change -3 *)
Example scenario_change :
  map (fun row => (GroupedRow.totalBeds row, GroupedRow.change row))
      (View.table Examples.flatLocale Examples.olderThenNewer View.noFilter
                  View.ByBedSpaces View.Desc)
  = [(12%Z, Some (-3)%Z)].
Proof. vm_compute. reflexivity. Qed.

(** a filter that removes the group from the previous snapshot leaves the
    change absent *)
Example scenario_change_absent :
  map (fun row => (GroupedRow.totalBeds row, GroupedRow.change row))
      (View.table Examples.flatLocale
         (mkHousingData
            [mkSnapshot "2026-03-07T23:00:00-08:00" [mkRow "Hedrick" "Triple" "Male" 4%Z];
             mkSnapshot "2026-03-09T09:00:00-07:00"
               [mkRow "Hedrick" "Triple" "Female" 7%Z;
                mkRow "Hedrick" "Triple" "Male" 0%Z]]
            (Some "2026-03-09T09:00:00-07:00"))
         (View.mkFilter "Female" "All" "All" EmptyString)
         View.ByChange View.Asc)
  = [(7%Z, None)].
Proof. vm_compute. reflexivity. Qed.

(** the two resolvers on the inputs of the timestamp rule *)
Example scenario_fetch_offsets :
  Fetch.parseLastUpdated "3/7/2026 11:00 PM" = Some "2026-03-07T23:00:00-08:00"
  /\ Fetch.parseLastUpdated "3/8/2026 12:00 AM" = Some "2026-03-08T00:00:00-07:00"
  /\ Fetch.parseLastUpdated "3/8/2026 12:30 PM" = Some "2026-03-08T12:30:00-07:00"
  /\ Fetch.parseLastUpdated "3/7/2026" = None.
Proof. vm_compute. repeat split; reflexivity. Qed.

(** * Further properties of the code *)

(** ** The tokenizer and the header cells *)

Lemma str_app_nil_r (s : string) : (s ++ "")%string = s.
Proof. induction s; simpl; congruence. Qed.

Lemma str_app_assoc (a b c : string) :
  ((a ++ b) ++ c)%string = (a ++ (b ++ c))%string.
Proof. induction a; simpl; congruence. Qed.

Lemma splitCellsAux_cells (line : string) :
  forall cells current inQuotes,
    Ingest.splitCellsAux line cells current inQuotes
    = cells ++ Ingest.splitCellsAux line [] current inQuotes.
Proof.
  induction line as [|ch line IH]; intros cells current q; simpl; [reflexivity|].
  destruct (isQuote ch); [apply IH|].
  destruct (Ascii.eqb ch "," && negb q); [|apply IH].
  rewrite IH, (IH [trim current]). now rewrite app_assoc.
Qed.

Lemma splitCellsAux_plain (line : string) :
  Spec.quoteFree line ->
  forall current,
    Ingest.splitCellsAux line [] current false
    = map trim (JS.splitAux "," line current).
Proof.
  unfold Spec.quoteFree.
  induction line as [|ch line IH]; intros Hq current; simpl; [reflexivity|].
  simpl in Hq. apply orb_false_iff in Hq as [Hch Hline].
  rewrite Hch, andb_true_r.
  destruct (Ascii.eqb ch ","); simpl.
  - rewrite splitCellsAux_cells. simpl. now rewrite IH.
  - now apply IH.
Qed.

(** X1. On a line without double quotes the tokenizer of the data lines
    is a plain split at the commas followed by trimming each piece. *)
Theorem splitCells_without_quotes (line : string) :
  Spec.quoteFree line ->
  Ingest.splitCells line = map trim (split "," line).
Proof. intro H. now apply splitCellsAux_plain. Qed.

Lemma splitCells_without_quotes_witness :
  Ingest.splitCells "Hedrick Hall , Triple,10" = map trim (split "," "Hedrick Hall , Triple,10").
Proof.
  apply (splitCells_without_quotes "Hedrick Hall , Triple,10"). reflexivity.
Defined.

Lemma splitCellsAux_run (a : string) (inQuotes : bool) :
  Spec.quoteFree a -> (inQuotes = true \/ Notions.commaFree a) ->
  forall rest cells current,
    Ingest.splitCellsAux (a ++ rest) cells current inQuotes
    = Ingest.splitCellsAux rest cells (current ++ a) inQuotes.
Proof.
  unfold Spec.quoteFree, Notions.commaFree.
  induction a as [|ch a IH]; intros Hq Hc rest cells current; simpl.
  - now rewrite str_app_nil_r.
  - simpl in Hq. apply orb_false_iff in Hq as [Hch Ha]. rewrite Hch.
    assert (E : Ascii.eqb ch "," && negb inQuotes = false).
    { destruct Hc as [->|Hc]; [apply andb_false_r|].
      simpl in Hc. apply orb_false_iff in Hc as [-> _]. reflexivity. }
    rewrite E, IH; [|exact Ha|].
    + f_equal. now rewrite str_app_assoc.
    + destruct Hc as [->|Hc]; [now left|right].
      simpl in Hc. now apply orb_false_iff in Hc as [_ ->].
Qed.

(** X2. A field in double quotes keeps its commas and loses its quotes:
    with text before and after the quoted part on the same field, the line
    is one cell, the text without the quotes, trimmed. *)
Theorem splitCells_quoted_field (a b c : string) :
  Spec.quoteFree a -> Notions.commaFree a ->
  Spec.quoteFree b ->
  Spec.quoteFree c -> Notions.commaFree c ->
  Ingest.splitCells (a ++ String View.DQ (b ++ String View.DQ c))
  = [trim (a ++ b ++ c)].
Proof.
  intros Ha Ca Hb Hc Cc. unfold Ingest.splitCells.
  rewrite (splitCellsAux_run a false Ha (or_intror Ca)).
  simpl Ingest.splitCellsAux at 1.
  change (isQuote View.DQ) with true. cbv iota.
  rewrite (splitCellsAux_run b true Hb (or_introl eq_refl)).
  simpl Ingest.splitCellsAux at 1.
  change (isQuote View.DQ) with true. cbv iota. simpl negb.
  rewrite <- (str_app_nil_r c) at 1.
  rewrite (splitCellsAux_run c false Hc (or_intror Cc)).
  simpl. now rewrite !str_app_assoc.
Qed.

Lemma splitCells_quoted_field_witness :
  Ingest.splitCells (String View.DQ ("Hedrick, North" ++ String View.DQ ""))
  = [trim ("" ++ "Hedrick, North" ++ "")].
Proof.
  apply (splitCells_quoted_field "" "Hedrick, North" ""); reflexivity.
Defined.

Lemma splitCellsAux_clean (line : string) :
  forall cells current inQuotes,
    Forall (fun cell => trim cell = cell /\ Spec.quoteFree cell) cells ->
    Spec.quoteFree current ->
    Forall (fun cell => trim cell = cell /\ Spec.quoteFree cell)
           (Ingest.splitCellsAux line cells current inQuotes).
Proof.
  induction line as [|ch line IH]; simpl; intros cells current q Hc Hcur.
  - apply Forall_app. split; [exact Hc|].
    constructor; [|constructor].
    split; [apply trim_idem|now apply existsStr_trim].
  - destruct (isQuote ch) eqn:Eq; [now apply IH|].
    destruct (Ascii.eqb ch "," && negb q).
    + apply IH; [|reflexivity].
      apply Forall_app. split; [exact Hc|].
      constructor; [|constructor].
      split; [apply trim_idem|now apply existsStr_trim].
    + apply IH; [exact Hc|].
      unfold Spec.quoteFree. rewrite existsStr_app. simpl.
      now rewrite Hcur, Eq.
Qed.

Lemma splitCellsAux_nonempty (line : string) :
  forall cells current inQuotes,
    Ingest.splitCellsAux line cells current inQuotes <> [].
Proof.
  induction line as [|ch line IH]; simpl; intros cells current q.
  - destruct cells; discriminate.
  - destruct (isQuote ch); [apply IH|].
    destruct (Ascii.eqb ch "," && negb q); apply IH.
Qed.

(** X3. Every data line gives at least one cell, and every cell is
    trimmed and free of double quotes, so that the later
    [replace] and [trim] on a cell change nothing. *)
Theorem splitCells_cells_are_clean (line : string) :
  Ingest.splitCells line <> [] /\
  Forall (fun cell => trim cell = cell /\ removeQuotes cell = cell
                      /\ trim (removeQuotes cell) = cell)
         (Ingest.splitCells line).
Proof.
  split; [apply splitCellsAux_nonempty|].
  assert (H : Forall (fun cell => trim cell = cell /\ Spec.quoteFree cell)
                     (Ingest.splitCells line))
    by (apply splitCellsAux_clean; [constructor|reflexivity]).
  eapply Forall_impl; [|exact H]. intros cell [Ht Hq].
  rewrite (removeQuotes_id cell Hq). auto.
Qed.

Lemma trimEnd_app_space (s : string) (c : ascii) :
  isSpace c = true -> trimEnd (s ++ String c "") = trimEnd s.
Proof.
  intro Hc. induction s as [|x s IH]; simpl.
  - now rewrite Hc.
  - now rewrite IH.
Qed.

Lemma trimStart_app_space (s : string) (c : ascii) :
  isSpace c = true ->
  trimStart (s ++ String c "")
  = if isEmpty (trimStart s) then EmptyString else (trimStart s ++ String c "")%string.
Proof.
  intro Hc. induction s as [|x s IH]; simpl.
  - now rewrite Hc.
  - destruct (isSpace x); [exact IH|reflexivity].
Qed.

Lemma trim_app_space (s : string) (c : ascii) :
  isSpace c = true -> trim (s ++ String c "") = trim s.
Proof.
  intro Hc. unfold trim. rewrite (trimStart_app_space s c Hc).
  destruct (trimStart s) as [|x t] eqn:E; simpl isEmpty; cbv iota.
  - reflexivity.
  - now apply trimEnd_app_space.
Qed.

Lemma trim_app_blank (b : string) :
  Notions.blank b -> forall s, trim (s ++ b) = trim s.
Proof.
  unfold Notions.blank.
  induction b as [|c b IH]; intros Hb s.
  - now rewrite str_app_nil_r.
  - simpl in Hb. apply orb_false_iff in Hb as [Hc Hb].
    apply negb_false_iff in Hc.
    change (String c b) with (String c "" ++ b)%string.
    rewrite <- str_app_assoc, (IH Hb). now apply trim_app_space.
Qed.

Lemma trim_blank_app (a : string) :
  Notions.blank a -> forall s, trim (a ++ s) = trim s.
Proof.
  unfold Notions.blank, trim.
  induction a as [|c a IH]; intros Ha s; [reflexivity|].
  simpl in Ha. apply orb_false_iff in Ha as [Hc Ha].
  apply negb_false_iff in Hc. simpl. rewrite Hc. now apply IH.
Qed.

Lemma space_not_quote (c : ascii) : isSpace c = true -> isQuote c = false.
Proof.
  unfold isSpace, isQuote. intro H.
  destruct (N.eqb_spec (code c) 34) as [E|]; [|reflexivity].
  rewrite E in H. discriminate H.
Qed.

Lemma space_not_comma (c : ascii) : isSpace c = true -> Ascii.eqb c "," = false.
Proof.
  intro H. destruct (Ascii.eqb_spec c ",") as [->|]; [discriminate H|reflexivity].
Qed.

Lemma splitCellsAux_app_space (c : ascii) (line : string) :
  isSpace c = true ->
  forall cells current inQuotes,
    Ingest.splitCellsAux (line ++ String c "") cells current inQuotes
    = Ingest.splitCellsAux line cells current inQuotes.
Proof.
  intro Hc. induction line as [|ch line IH]; intros cells current q; simpl.
  - rewrite (space_not_quote c Hc), (space_not_comma c Hc). simpl.
    now rewrite trim_app_space.
  - destruct (isQuote ch); [apply IH|].
    destruct (Ascii.eqb ch "," && negb q); apply IH.
Qed.

Lemma splitAux_app_char {A} (f : string -> A) (c sep : ascii) :
  Ascii.eqb c sep = false ->
  (forall x, f (x ++ String c "")%string = f x) ->
  forall s cur,
    map f (JS.splitAux sep (s ++ String c "") cur) = map f (JS.splitAux sep s cur).
Proof.
  intros Hc Hf. induction s as [|x s IH]; intros cur; simpl.
  - rewrite Hc. simpl. now rewrite Hf.
  - destruct (Ascii.eqb x sep); simpl; [now rewrite IH|apply IH].
Qed.

Lemma normHeader_app_space (c : ascii) (h : string) :
  isSpace c = true -> Ingest.normHeader (h ++ String c "") = Ingest.normHeader h.
Proof. intro Hc. unfold Ingest.normHeader. now rewrite trim_app_space. Qed.

(** X4. A white-space code unit at the end of a line, such as the
    carriage return of a CRLF line ending, changes neither the header
    cells nor the cells of a data line. *)
Theorem trailing_space_is_ignored (c : ascii) (line : string) :
  isSpace c = true ->
  Ingest.headersOf (line ++ String c "") = Ingest.headersOf line
  /\ Ingest.splitCells (line ++ String c "") = Ingest.splitCells line.
Proof.
  intro Hc. split.
  - unfold Ingest.headersOf, split.
    apply splitAux_app_char; [now apply space_not_comma|].
    intro x. now apply normHeader_app_space.
  - now apply splitCellsAux_app_space.
Qed.

Lemma trailing_space_is_ignored_witness :
  Ingest.headersOf ("Building,Beds" ++ String CR "") = Ingest.headersOf "Building,Beds"
  /\ Ingest.splitCells ("Building,Beds" ++ String CR "") = Ingest.splitCells "Building,Beds".
Proof. apply (trailing_space_is_ignored CR "Building,Beds"). reflexivity. Defined.

(** ** Column resolution *)

Lemma findIndex_first {A} (f : A -> bool) (l : list A) (d : A) (j : nat) :
  findIndex f l = Some j -> forall k, k < j -> f (nth k l d) = false.
Proof.
  revert j. induction l as [|x l IH]; intros j; [discriminate|].
  rewrite findIndex_cons. destruct (f x) eqn:E.
  - intro H. injection H as <-. intros k Hk. lia.
  - destruct (findIndex f l) as [i|] eqn:Ei; [|discriminate].
    intro H. injection H as <-. intros [|k] Hk; [exact E|].
    simpl. apply (IH i eq_refl). lia.
Qed.

(** X5. A role resolves to a column exactly when some header contains one
    of its keywords.  The column found contains a keyword such that no
    keyword before it in the list is contained in any header and no header
    to its left contains it; the role is unresolved exactly when no header
    contains any keyword. *)
Theorem findCol_sound_and_complete (headers keywords : list string) :
  match Ingest.findCol headers keywords with
  | Some i =>
      i < List.length headers /\
      exists before kw after,
        keywords = before ++ kw :: after /\
        includes (nth i headers EmptyString) kw = true /\
        (forall j, j < i -> includes (nth j headers EmptyString) kw = false) /\
        (forall kw' h, In kw' before -> In h headers -> includes h kw' = false)
  | None =>
      forall kw h, In kw keywords -> In h headers -> includes h kw = false
  end.
Proof.
  induction keywords as [|kw rest IH]; simpl.
  - intros kw h [].
  - destruct (findIndex (fun h => includes h kw) headers) as [i|] eqn:E.
    + pose proof (findIndex_Some _ _ EmptyString _ E) as [Hi Hinc].
      split; [exact Hi|].
      exists [], kw, rest. split; [reflexivity|]. split; [exact Hinc|].
      split; [|intros kw' h []].
      intros j Hj. exact (findIndex_first _ _ EmptyString _ E j Hj).
    + apply findIndex_None in E.
      assert (Hnone : forall h, In h headers -> includes h kw = false).
      { intros h Hh. destruct (includes h kw) eqn:Ei; [|reflexivity].
        assert (existsb (fun h => includes h kw) headers = true)
          by (apply existsb_exists; eauto).
        congruence. }
      destruct (Ingest.findCol headers rest) as [i|].
      * destruct IH as (Hi & before & kw0 & after & -> & H1 & H2 & H3).
        split; [exact Hi|].
        exists (kw :: before), kw0, after. split; [reflexivity|].
        split; [exact H1|]. split; [exact H2|].
        intros kw' h [<-|Hin] Hh; [now apply Hnone|now apply H3].
      * intros kw' h [<-|Hin] Hh; [now apply Hnone|now apply IH].
Qed.

(** ** Letter case of the headers *)

Lemma lowerChar_space (c : ascii) : isSpace (lowerChar c) = isSpace c.
Proof. destruct c as [[] [] [] [] [] [] [] []]; reflexivity. Qed.

Lemma lowerChar_comma (c : ascii) : Ascii.eqb (lowerChar c) "," = Ascii.eqb c ",".
Proof. destruct c as [[] [] [] [] [] [] [] []]; reflexivity. Qed.

Lemma lowerChar_idem (c : ascii) : lowerChar (lowerChar c) = lowerChar c.
Proof. destruct c as [[] [] [] [] [] [] [] []]; reflexivity. Qed.

Lemma toLowerCase_idem (s : string) : toLowerCase (toLowerCase s) = toLowerCase s.
Proof.
  unfold toLowerCase. induction s as [|c s IH]; simpl; [reflexivity|].
  now rewrite lowerChar_idem, IH.
Qed.

Lemma trimStart_lower (s : string) :
  trimStart (toLowerCase s) = toLowerCase (trimStart s).
Proof.
  unfold toLowerCase. induction s as [|c s IH]; simpl; [reflexivity|].
  rewrite lowerChar_space. destruct (isSpace c); [exact IH|reflexivity].
Qed.

Lemma trimEnd_lower (s : string) :
  trimEnd (toLowerCase s) = toLowerCase (trimEnd s).
Proof.
  unfold toLowerCase. induction s as [|c s IH]; simpl; [reflexivity|].
  rewrite lowerChar_space, IH.
  assert (E : isEmpty (mapStr lowerChar (trimEnd s)) = isEmpty (trimEnd s))
    by now destruct (trimEnd s).
  rewrite E. now destruct (isSpace c && isEmpty (trimEnd s)).
Qed.

Lemma normHeader_lower (h : string) :
  Ingest.normHeader (toLowerCase h) = Ingest.normHeader h.
Proof.
  unfold Ingest.normHeader, trim.
  now rewrite trimStart_lower, trimEnd_lower, toLowerCase_idem.
Qed.

Lemma splitAux_lower (s : string) :
  forall cur,
    map Ingest.normHeader (JS.splitAux "," (toLowerCase s) (toLowerCase cur))
    = map Ingest.normHeader (JS.splitAux "," s cur).
Proof.
  unfold toLowerCase. induction s as [|c s IH]; intros cur; simpl.
  - f_equal. apply normHeader_lower.
  - rewrite lowerChar_comma. destruct (Ascii.eqb c ","); simpl.
    + f_equal; [apply normHeader_lower|]. apply (IH EmptyString).
    + rewrite <- IH. f_equal. f_equal.
      clear. induction cur; simpl; congruence.
Qed.

Lemma headersOf_lower (line : string) :
  Ingest.headersOf (toLowerCase line) = Ingest.headersOf line.
Proof. unfold Ingest.headersOf, split. apply (splitAux_lower line EmptyString). Qed.

(** X6. Header matching does not see letter case: two header lines that
    agree up to the case of their letters give the same header cells, and
    so the same columns. *)
Theorem headers_ignore_letter_case (line1 line2 : string) :
  toLowerCase line1 = toLowerCase line2 ->
  Ingest.headersOf line1 = Ingest.headersOf line2
  /\ Ingest.resolve (Ingest.headersOf line1) = Ingest.resolve (Ingest.headersOf line2).
Proof.
  intro H.
  assert (E : Ingest.headersOf line1 = Ingest.headersOf line2)
    by now rewrite <- (headersOf_lower line1), H, headersOf_lower.
  split; [exact E|now rewrite E].
Qed.

Lemma headers_ignore_letter_case_witness :
  Ingest.headersOf "BUILDING,Beds Available" = Ingest.headersOf "building,BEDS available"
  /\ Ingest.resolve (Ingest.headersOf "BUILDING,Beds Available")
     = Ingest.resolve (Ingest.headersOf "building,BEDS available").
Proof.
  apply (headers_ignore_letter_case "BUILDING,Beds Available" "building,BEDS available").
  reflexivity.
Defined.

(** ** The whole parse *)

(** X7. White space around the text, such as empty lines at its end,
    does not change the result of [parseCSV], whatever the resolver. *)
Theorem parseCSV_ignores_surrounding_space
    (parseLastUpdated : string -> option string) (a text b : string) :
  Notions.blank a -> Notions.blank b ->
  Ingest.parseCSV parseLastUpdated (a ++ text ++ b)
  = Ingest.parseCSV parseLastUpdated text.
Proof.
  intros Ha Hb. unfold Ingest.parseCSV, Ingest.linesOf.
  now rewrite (trim_blank_app a Ha), (trim_app_blank b Hb).
Qed.

Lemma parseCSV_ignores_surrounding_space_witness :
  Ingest.parseCSV Fetch.parseLastUpdated (nl ++ Examples.plain ++ (nl ++ nl))
  = Ingest.parseCSV Fetch.parseLastUpdated Examples.plain.
Proof.
  apply (parseCSV_ignores_surrounding_space Fetch.parseLastUpdated nl Examples.plain (nl ++ nl));
    reflexivity.
Defined.

(** The rows [parseCSV] returns do not depend on the timestamp
    resolver it calls: the two entry points always parse the same rows
    from the same text. *)
Lemma rows_independent_of_resolver
    (resolver1 resolver2 : string -> option string) (text : string) :
  Ingest.rows (Ingest.parseCSV resolver1 text)
  = Ingest.rows (Ingest.parseCSV resolver2 text).
Proof.
  destruct (Ingest.resolve (Spec.headers text)) as [c|] eqn:E.
  - now rewrite !(parseCSV_rows _ text c E).
  - now rewrite !parseCSV_unresolved.
Qed.

Lemma removeQuotes_quoteFree (s : string) : Spec.quoteFree (removeQuotes s).
Proof.
  unfold Spec.quoteFree, removeQuotes.
  induction s as [|c s IH]; simpl; [reflexivity|].
  destruct (isQuote c) eqn:E; simpl; [exact IH|now rewrite E].
Qed.

Lemma optionalField_clean (idx : option nat) (cells : list string) (dflt : string) :
  trim dflt = dflt -> Spec.quoteFree dflt ->
  trim (Ingest.optionalField idx cells dflt) = Ingest.optionalField idx cells dflt
  /\ Spec.quoteFree (Ingest.optionalField idx cells dflt)
  /\ Ingest.optionalField idx cells dflt <> EmptyString \/ dflt = EmptyString.
Proof.
  intros Ht Hq. destruct dflt as [|d0 dflt]; [now right|left].
  unfold Ingest.optionalField, Ingest.cleanCell.
  destruct idx as [i|]; [|repeat split; [exact Ht|exact Hq|discriminate]].
  destruct (nth_error cells i) as [cell|]; simpl;
    [|repeat split; [exact Ht|exact Hq|discriminate]].
  destruct (truthy (trim (removeQuotes cell))) eqn:E;
    [|repeat split; [exact Ht|exact Hq|discriminate]].
  repeat split.
  - apply trim_idem.
  - apply existsStr_trim, removeQuotes_quoteFree.
  - now apply truthy_nonempty.
Qed.

(** X8. In every row made by ingestion the building, the room type and
    the gender are not empty, are trimmed, and hold no double quote. *)
Theorem row_fields_are_clean (parseLastUpdated : string -> option string)
    (text : string) (r : Row) :
  In r (Ingest.rows (Ingest.parseCSV parseLastUpdated text)) ->
  Forall (fun field => field <> EmptyString /\ trim field = field
                       /\ Spec.quoteFree field)
         [building r; roomType r; gender r].
Proof.
  intro Hin.
  destruct (rows_resolved parseLastUpdated text) as [c Hres].
  { intro E. rewrite E in Hin. destruct Hin. }
  rewrite (parseCSV_rows parseLastUpdated text c Hres) in Hin.
  apply in_map_iff in Hin as (cells & <- & Hf).
  apply filter_In in Hf as [Hcells Hnb].
  assert (Hq : Forall Spec.quoteFree cells).
  { pose proof (dataCells_quoteFree text) as H.
    eapply Forall_forall in H; eauto. }
  rewrite <- (kept_nonBlank c cells Hq) in Hnb.
  constructor; [|constructor; [|constructor; [|constructor]]].
  - unfold Spec.kept, Spec.rowFrom, Ingest.cleanCell in *. simpl.
    destruct (nth_error cells (Ingest.buildingIdx c)) as [cell|]; simpl in *;
      [|discriminate].
    rewrite Hnb. repeat split.
    + now apply truthy_nonempty.
    + apply trim_idem.
    + apply existsStr_trim, removeQuotes_quoteFree.
  - simpl.
    destruct (optionalField_clean (Ingest.roomTypeIdx c) cells "Unknown" eq_refl eq_refl)
      as [(H1 & H2 & H3)|H]; [auto|discriminate].
  - simpl.
    destruct (optionalField_clean (Ingest.genderIdx c) cells "All" eq_refl eq_refl)
      as [(H1 & H2 & H3)|H]; [auto|discriminate].
Qed.

Lemma row_fields_are_clean_witness :
  Forall (fun field => field <> EmptyString /\ trim field = field
                       /\ Spec.quoteFree field)
         [building (mkRow "Hedrick" "Unknown" "Male" 5%Z);
          roomType (mkRow "Hedrick" "Unknown" "Male" 5%Z);
          gender (mkRow "Hedrick" "Unknown" "Male" 5%Z)].
Proof.
  apply (row_fields_are_clean Fetch.parseLastUpdated Examples.withBlankLine).
  vm_compute. right. left. reflexivity.
Defined.

(** ** The timestamp resolvers *)

Lemma clean_idem (raw : string) :
  trim (removeQuotes (trim (removeQuotes raw))) = trim (removeQuotes raw).
Proof.
  rewrite (removeQuotes_id (trim (removeQuotes raw))).
  - apply trim_idem.
  - apply existsStr_trim, removeQuotes_quoteFree.
Qed.

Lemma matchStamp_empty : Ingest.matchStamp EmptyString = None.
Proof. reflexivity. Qed.

(** X9. Double quotes anywhere in the updated-at cell and white space
    around it play no part: both resolvers give on a cell what they give
    on the cleaned cell. *)
Theorem resolvers_ignore_quotes_and_outer_space (tz : Z -> Z) (raw : string) :
  Fetch.parseLastUpdated (trim (removeQuotes raw)) = Fetch.parseLastUpdated raw
  /\ Upload.parseLastUpdated tz (trim (removeQuotes raw))
     = Upload.parseLastUpdated tz raw.
Proof.
  unfold Fetch.parseLastUpdated, Upload.parseLastUpdated.
  rewrite clean_idem.
  destruct raw as [|c raw]; [split; reflexivity|].
  cbn [truthy isEmpty negb].
  destruct (trim (removeQuotes (String c raw))) as [|c' r'] eqn:E.
  - rewrite matchStamp_empty. split; reflexivity.
  - split; reflexivity.
Qed.

(** X10. The hour on the 24-hour clock.  For an hour from 1 to 12: with
    PM and no AM in the text after the minutes it is the hour modulo 12
    plus 12 (12 PM is noon), with AM and no PM it is the hour modulo 12
    (12 AM is midnight), with neither it is the hour as written; in all
    cases it lies between 0 and 23. *)
Theorem hour24_twelve_hour_clock (mt : Ingest.StampMatch) :
  (1 <= parseIntD (Ingest.g_hour mt) <= 12)%Z ->
  let h := parseIntD (Ingest.g_hour mt) in
  let suffix := toUpperCase (trim (Ingest.g_rest mt)) in
  (includes suffix "PM" = true -> includes suffix "AM" = false ->
     Ingest.hour24 mt = (h mod 12 + 12)%Z)
  /\ (includes suffix "AM" = true -> includes suffix "PM" = false ->
     Ingest.hour24 mt = (h mod 12)%Z)
  /\ (includes suffix "AM" = false -> includes suffix "PM" = false ->
     Ingest.hour24 mt = h)
  /\ (0 <= Ingest.hour24 mt <= 23)%Z.
Proof.
  intros Hh h suffix. unfold Ingest.hour24. fold h. fold suffix.
  destruct (includes suffix "PM"), (includes suffix "AM"); simpl;
    destruct (Z.ltb_spec h 12); simpl;
    repeat (match goal with
            | |- context [(?a =? 12)%Z] => destruct (Z.eqb_spec a 12)
            end);
    repeat split; intros; try discriminate; try lia;
    try (rewrite Z.mod_small by lia; lia);
    try (replace h with 12%Z by lia; reflexivity).
Qed.

Lemma hour24_twelve_hour_clock_witness :
  Ingest.hour24 (Ingest.mkStampMatch "3" "8" "2026" "12" "00" " AM") = (12 mod 12)%Z.
Proof.
  destruct (hour24_twelve_hour_clock
              (Ingest.mkStampMatch "3" "8" "2026" "12" "00" " AM"))
    as (_ & H & _).
  - vm_compute. split; discriminate.
  - apply H; vm_compute; reflexivity.
Defined.

(** ** Timestamps written by the fetch script, read back by the page *)

Lemma allRange_spec (k : nat) :
  forall lo p, Notions.allRange k lo p = true ->
    forall z, (lo <= z < lo + 2 ^ Z.of_nat k)%Z -> p z = true.
Proof.
  induction k as [|k IH]; intros lo p H z Hz.
  - simpl in *. replace z with lo by lia. exact H.
  - cbn [Notions.allRange] in H. apply andb_prop in H as [H1 H2].
    rewrite Nat2Z.inj_succ, Z.pow_succ_r in Hz by lia.
    destruct (Z.lt_ge_cases z (lo + 2 ^ Z.of_nat k)).
    + apply (IH lo p H1). lia.
    + apply (IH _ p H2). lia.
Qed.

(** a number below 100 padded to two places is two digits that read back
    as the number *)
Lemma pad2_shape (n : Z) :
  (0 <= n <= 99)%Z ->
  exists d1 d2,
    padStart0 2 (ofInt n) = String d1 (String d2 "")
    /\ isDigit d1 = true /\ isDigit d2 = true
    /\ parseIntD (String d1 (String d2 "")) = n.
Proof.
  intro Hn.
  assert (H : Notions.allRange 7 0
                (fun n => (99 <? n)%Z ||
                   match padStart0 2 (ofInt n) with
                   | String d1 (String d2 EmptyString) =>
                       isDigit d1 && isDigit d2
                       && (parseIntD (String d1 (String d2 "")) =? n)%Z
                   | _ => false
                   end) = true) by (vm_compute; reflexivity).
  pose proof (allRange_spec 7 0 _ H n ltac:(simpl; lia)) as Hp.
  cbv beta in Hp.
  destruct (Z.ltb_spec 99 n); [lia|]. cbn [orb] in Hp.
  destruct (padStart0 2 (ofInt n)) as [|d1 [|d2 [|]]]; try discriminate Hp.
  apply andb_prop in Hp as [Hp H3]. apply andb_prop in Hp as [H1 H2].
  apply Z.eqb_eq in H3. eauto 10.
Qed.

Lemma expect_same (c : ascii) (r : string) : expect c (String c r) = Some r.
Proof. simpl. now rewrite Ascii.eqb_refl. Qed.

Lemma fixedDigits_two (d1 d2 : ascii) (rest : string) :
  isDigit d1 = true -> isDigit d2 = true ->
  JSDate.fixedDigits 2 (String d1 (String d2 rest))
  = Some (parseIntD (String d1 (String d2 "")), rest).
Proof.
  intros H1 H2. unfold JSDate.fixedDigits. simpl. now rewrite H1, H2.
Qed.

Lemma fixedDigits_pad2 (n : Z) (rest : string) :
  (0 <= n <= 99)%Z ->
  JSDate.fixedDigits 2 (padStart0 2 (ofInt n) ++ rest) = Some (n, rest).
Proof.
  intro Hn. destruct (pad2_shape n Hn) as (d1 & d2 & -> & H1 & H2 & H3).
  simpl. rewrite (fixedDigits_two d1 d2 rest H1 H2). now rewrite H3.
Qed.

Lemma spanMax_exact (s rest : string) :
  existsStr (fun c => negb (isDigit c)) s = false ->
  spanMax isDigit (String.length s) (s ++ rest) = (s, rest).
Proof.
  induction s as [|c s IH]; simpl; intro H.
  - now destruct rest.
  - apply orb_false_iff in H as [Hc Hs]. apply negb_false_iff in Hc.
    now rewrite Hc, (IH Hs).
Qed.

Lemma spanMax_length (p : ascii -> bool) (n : nat) (s : string) :
  String.length (fst (spanMax p n s)) <= n.
Proof.
  revert s. induction n as [|n IH]; intros s; simpl; [lia|].
  destruct s as [|c s]; simpl; [lia|].
  destruct (p c); simpl; [|lia].
  specialize (IH s). destruct (spanMax p n s). simpl in *. lia.
Qed.

(** the lengths of the groups of a match *)
Lemma matchStamp_lengths (s : string) (mt : Ingest.StampMatch) :
  Ingest.matchStamp s = Some mt ->
  String.length (Ingest.g_month mt) <= 2 /\ String.length (Ingest.g_day mt) <= 2
  /\ String.length (Ingest.g_year mt) = 4 /\ String.length (Ingest.g_hour mt) <= 2
  /\ String.length (Ingest.g_minute mt) = 2.
Proof.
  unfold Ingest.matchStamp.
  pose proof (spanMax_length isDigit 2 s) as D1.
  destruct (spanMax isDigit 2 s) as [month r1].
  destruct (isEmpty month); [discriminate|].
  destruct (expect "/" r1) as [r2|]; [|discriminate].
  pose proof (spanMax_length isDigit 2 r2) as D2.
  destruct (spanMax isDigit 2 r2) as [day r3].
  destruct (isEmpty day); [discriminate|].
  destruct (expect "/" r3) as [r4|]; [|discriminate].
  destruct (spanMax isDigit 4 r4) as [year r5].
  destruct (Nat.eqb (String.length year) 4) eqn:E3; [|discriminate].
  destruct (negb (Ingest.startsWith isSpace r5)); [discriminate|].
  pose proof (spanMax_length isDigit 2 (trimStart r5)) as D4.
  destruct (spanMax isDigit 2 (trimStart r5)) as [hour r7].
  destruct (isEmpty hour); [discriminate|].
  destruct (expect ":" r7) as [r8|]; [|discriminate].
  destruct (spanMax isDigit 2 r8) as [minute r9].
  destruct (Nat.eqb (String.length minute) 2) eqn:E5; [|discriminate].
  destruct (existsStr isLineTerminator r9); [discriminate|].
  intro H. injection H as <-. simpl in *.
  apply Nat.eqb_eq in E3, E5. auto.
Qed.

Lemma readDigits_bound (s : string) :
  existsStr (fun c => negb (isDigit c)) s = false ->
  forall acc seen v,
    readDigits 10 s acc seen = Some v ->
    (Z.of_N v < (Z.of_N acc + 1) * 10 ^ Z.of_nat (String.length s))%Z.
Proof.
  induction s as [|c s IH]; intros Hd acc seen v H.
  - simpl in *. destruct seen; [|discriminate]. injection H as <-. lia.
  - simpl in Hd. apply orb_false_iff in Hd as [Hc Hs].
    apply negb_false_iff in Hc.
    cbn [readDigits] in H. rewrite (digit_value c Hc) in H.
    apply (IH Hs) in H.
    pose proof (digit_code c Hc) as Hcode.
    cbn [String.length]. rewrite Nat2Z.inj_succ, Z.pow_succ_r by lia.
    assert (Hpos : (0 < 10 ^ Z.of_nat (String.length s))%Z)
      by (apply Z.pow_pos_nonneg; lia).
    assert (Hle : ((Z.of_N (acc * 10 + (code c - 48)) + 1)
                   * 10 ^ Z.of_nat (String.length s)
                   <= ((Z.of_N acc + 1) * 10) * 10 ^ Z.of_nat (String.length s))%Z).
    { apply Z.mul_le_mono_nonneg_r; lia. }
    lia.
Qed.

(** the value of a group of digits is below the power of ten of its length *)
Lemma parseIntD_bound (s : string) :
  Spec.digitString s ->
  (0 <= parseIntD s < 10 ^ Z.of_nat (String.length s))%Z.
Proof.
  intros [Hne Hd]. destruct s as [|ch r]; [congruence|].
  pose proof Hd as Hd'.
  simpl in Hd. apply orb_false_iff in Hd as [Hch Hr].
  apply negb_false_iff in Hch.
  unfold parseIntD, parseInt. simpl trimStart. rewrite (digit_not_space ch Hch).
  rewrite (digit_not_char ch "-" Hch eq_refl), (digit_not_char ch "+" Hch eq_refl).
  assert (Hradix :
    match String ch r with
    | String z (String x r') =>
        if Ascii.eqb z "0" && (Ascii.eqb x "x" || Ascii.eqb x "X")
        then (16%N, r') else (10%N, String ch r)
    | _ => (10%N, String ch r)
    end = (10%N, String ch r)).
  { destruct r as [|x r']; [reflexivity|].
    simpl in Hr. apply orb_false_iff in Hr as [Hx _].
    apply negb_false_iff in Hx.
    rewrite (digit_not_char x "x" Hx eq_refl), (digit_not_char x "X" Hx eq_refl).
    now rewrite andb_false_r. }
  rewrite Hradix.
  destruct (readDigits 10 (String ch r) 0 false) as [v|] eqn:E.
  - apply (readDigits_bound _ Hd') in E. simpl Z.of_N in E. lia.
  - split; [lia|]. apply Z.pow_pos_nonneg; lia.
Qed.

Lemma hour24_bounds (mt : Ingest.StampMatch) :
  (0 <= parseIntD (Ingest.g_hour mt) <= 99)%Z ->
  (0 <= Ingest.hour24 mt <= 99)%Z.
Proof.
  intro H. unfold Ingest.hour24.
  destruct (includes _ "PM" && _) eqn:E1.
  - apply andb_prop in E1 as [_ E1]. apply Z.ltb_lt in E1.
    destruct (includes _ "AM" && _); lia.
  - destruct (includes _ "AM" && _); lia.
Qed.

(** the fields of a match as numbers, with their ranges *)
Lemma matchStamp_ranges (s : string) (mt : Ingest.StampMatch) :
  Ingest.matchStamp s = Some mt ->
  (0 <= parseIntD (Ingest.g_month mt) <= 99)%Z
  /\ (0 <= parseIntD (Ingest.g_day mt) <= 99)%Z
  /\ (0 <= parseIntD (Ingest.g_year mt) <= 9999)%Z
  /\ (0 <= Ingest.hour24 mt <= 99)%Z
  /\ (0 <= parseIntD (Ingest.g_minute mt) <= 99)%Z.
Proof.
  intro H.
  destruct (matchStamp_digits s mt H) as (D1 & D2 & D3 & D4 & D5).
  destruct (matchStamp_lengths s mt H) as (L1 & L2 & L3 & L4 & L5).
  assert (P : forall g n, Spec.digitString g -> String.length g <= n ->
                (0 <= parseIntD g < 10 ^ Z.of_nat n)%Z).
  { intros g n Dg Lg. pose proof (parseIntD_bound g Dg) as B.
    split; [lia|].
    eapply Z.lt_le_trans; [apply B|].
    apply Z.pow_le_mono_r; lia. }
  pose proof (P _ 2 D1 L1) as B1. pose proof (P _ 2 D2 L2) as B2.
  pose proof (P _ 4 D3 ltac:(lia)) as B3. pose proof (P _ 2 D4 L4) as B4.
  pose proof (P _ 2 D5 ltac:(lia)) as B5.
  change (10 ^ Z.of_nat 2)%Z with 100%Z in *.
  change (10 ^ Z.of_nat 4)%Z with 10000%Z in *.
  repeat split; try lia; apply hour24_bounds; lia.
Qed.

Lemma daysFromCivil_bound (y m d : Z) :
  (0 <= y <= 10020)%Z -> (1 <= m <= 12)%Z -> (-200 <= d <= 200)%Z ->
  (-800000 <= JSDate.daysFromCivil y m d <= 3000000)%Z.
Proof.
  intros Hy Hm Hd. unfold JSDate.daysFromCivil.
  destruct (m <=? 2)%Z, (m >? 2)%Z; Z.div_mod_to_equations; lia.
Qed.

Lemma fixedDigits_year (ys rest : string) :
  Spec.digitString ys -> String.length ys = 4 ->
  JSDate.fixedDigits 4 (ys ++ rest) = Some (parseIntD ys, rest).
Proof.
  intros [_ Hd] Hl. unfold JSDate.fixedDigits.
  rewrite <- Hl at 1. rewrite (spanMax_exact ys rest Hd).
  now rewrite Hl.
Qed.

(** what the page reads from an assembled timestamp *)
Lemma parse_assembled (ys : string) (m d h mi : Z) (pdt : bool) :
  Spec.digitString ys -> String.length ys = 4 ->
  (1 <= m <= 12)%Z -> (1 <= d <= JSDate.daysInMonth (parseIntD ys) m)%Z ->
  (0 <= h <= 23)%Z -> (0 <= mi <= 59)%Z ->
  JSDate.parse (ys ++ "-" ++ padStart0 2 (ofInt m) ++ "-" ++ padStart0 2 (ofInt d)
                   ++ "T" ++ padStart0 2 (ofInt h) ++ ":" ++ padStart0 2 (ofInt mi)
                   ++ ":00" ++ (if pdt then "-07:00" else "-08:00"))%string
  = JSDate.timeClip
      (Notions.instant (parseIntD ys) m d h mi (if pdt then -7 else -8)).
Proof.
  intros Dy Ly Hm Hd Hh Hmi.
  assert (Hd31 : (d <= 31)%Z).
  { unfold JSDate.daysInMonth in Hd.
    destruct (m =? 2)%Z; [destruct (JSDate.isLeap _); lia|].
    destruct ((m =? 4) || (m =? 6) || (m =? 9) || (m =? 11))%Z; lia. }
  unfold JSDate.parse.
  rewrite (fixedDigits_year ys _ Dy Ly). cbn [JSDate.bind append].
  rewrite expect_same. cbn [JSDate.bind].
  rewrite (fixedDigits_pad2 m) by lia. cbn [JSDate.bind].
  rewrite expect_same. cbn [JSDate.bind].
  rewrite (fixedDigits_pad2 d) by lia. cbn [JSDate.bind].
  rewrite expect_same. cbn [JSDate.bind].
  rewrite (fixedDigits_pad2 h) by lia. cbn [JSDate.bind].
  rewrite expect_same. cbn [JSDate.bind].
  rewrite (fixedDigits_pad2 mi) by lia. cbn [JSDate.bind].
  rewrite expect_same. cbn [JSDate.bind].
  rewrite (fixedDigits_two "0" "0") by reflexivity. cbn [JSDate.bind].
  change (parseIntD "00") with 0%Z.
  assert (Hz : JSDate.parseZone (if pdt then "-07:00" else "-08:00")
               = Some (if pdt then -420 else -480)%Z) by now destruct pdt.
  assert (He : expect "." (if pdt then "-07:00" else "-08:00") = None)
    by now destruct pdt.
  rewrite He, Hz. cbn [JSDate.bind].
  rewrite (proj2 (Z.leb_le 1 m)), (proj2 (Z.leb_le m 12)),
          (proj2 (Z.leb_le 1 d)), (proj2 (Z.leb_le d _)),
          (proj2 (Z.leb_le h 23)), (proj2 (Z.leb_le mi 59)) by lia.
  cbn [andb Z.leb Z.compare].
  unfold Notions.instant. f_equal. destruct pdt; lia.
Qed.

(** X11. The timestamp the fetch script writes for a cell with a real
    calendar date and time of day is read back by the page as the instant
    of that wall-clock time at UTC-7 on or after March 8 and at UTC-8
    before. *)
Theorem fetch_timestamp_reads_back (raw : string) (mt : Ingest.StampMatch) :
  truthy raw = true ->
  Ingest.matchStamp (trim (removeQuotes raw)) = Some mt ->
  let y := parseIntD (Ingest.g_year mt) in
  let m := parseIntD (Ingest.g_month mt) in
  let d := parseIntD (Ingest.g_day mt) in
  let mi := parseIntD (Ingest.g_minute mt) in
  (1 <= m <= 12)%Z -> (1 <= d <= JSDate.daysInMonth y m)%Z ->
  (Ingest.hour24 mt <= 23)%Z -> (mi <= 59)%Z ->
  exists s,
    Fetch.parseLastUpdated raw = Some s /\
    JSDate.parse s
    = Some (Notions.instant y m d (Ingest.hour24 mt) mi
              (if Spec.onOrAfterMarch8 m d then -7 else -8)).
Proof.
  intros Hraw Hm y m d mi Rm Rd Rh Rmi.
  destruct (matchStamp_digits _ mt Hm) as (_ & _ & Dy & _ & _).
  destruct (matchStamp_lengths _ mt Hm) as (_ & _ & Ly & _ & _).
  destruct (matchStamp_ranges _ mt Hm) as (_ & _ & By & Bh & Bmi).
  unfold Fetch.parseLastUpdated. rewrite Hraw, Hm. cbn [negb]. cbv zeta.
  eexists. split; [reflexivity|].
  fold m d mi.
  replace ((m >? 3)%Z || (m =? 3)%Z && (d >=? 8)%Z) with (Spec.onOrAfterMarch8 m d)
    by (unfold Spec.onOrAfterMarch8; now rewrite Z.gtb_ltb, Z.geb_leb).
  rewrite (parse_assembled (Ingest.g_year mt) m d (Ingest.hour24 mt) mi
             (Spec.onOrAfterMarch8 m d) Dy Ly Rm Rd ltac:(lia) ltac:(fold mi in Bmi; lia)).
  fold y. unfold JSDate.timeClip.
  assert (Hd31 : (d <= 31)%Z).
  { unfold JSDate.daysInMonth in Rd.
    destruct (m =? 2)%Z; [destruct (JSDate.isLeap _); lia|].
    destruct ((m =? 4) || (m =? 6) || (m =? 9) || (m =? 11))%Z; lia. }
  pose proof (daysFromCivil_bound y m d ltac:(fold y in By; lia) Rm ltac:(lia)) as Bd.
  assert (Hin : (Z.abs (Notions.instant y m d (Ingest.hour24 mt) mi
                          (if Spec.onOrAfterMarch8 m d then -7 else -8))
                 <=? 8640000000000000)%Z = true).
  { apply Z.leb_le. unfold Notions.instant, JSDate.msPerDay.
    destruct (Spec.onOrAfterMarch8 m d); lia. }
  now rewrite Hin.
Qed.

Lemma fetch_timestamp_reads_back_witness :
  exists s,
    Fetch.parseLastUpdated "3/8/2026 12:30 PM" = Some s /\
    JSDate.parse s = Some (Notions.instant 2026 3 8 12 30 (-7)).
Proof.
  apply (fetch_timestamp_reads_back "3/8/2026 12:30 PM"
           (Ingest.mkStampMatch "3" "8" "2026" "12" "30" " PM"));
    vm_compute; try reflexivity; try (split; discriminate); discriminate.
Defined.

(** ** Timestamps written by the upload, read back by the page *)

(** the year of the era and the day of the year that [civilFromDays]
    computes from a day of the era *)
Lemma year_of_era (doe : Z) :
  (0 <= doe <= 146096)%Z ->
  let yoe := ((doe - doe / 1460 + doe / 36524 - doe / 146096) / 365)%Z in
  let doy := (doe - (365 * yoe + yoe / 4 - yoe / 100))%Z in
  (0 <= yoe <= 399)%Z /\ (0 <= doy)%Z /\
  (doy <= 364 + ((yoe + 1) / 4 - yoe / 4) - ((yoe + 1) / 100 - yoe / 100)
          + ((yoe + 1) / 400 - yoe / 400))%Z.
Proof.
  intros H yoe doy. subst doy yoe.
  Z.div_mod_to_equations. lia.
Qed.

Lemma month_of_year (doy : Z) :
  (0 <= doy <= 365)%Z ->
  let mp := ((5 * doy + 2) / 153)%Z in
  let d := (doy - (153 * mp + 2) / 5 + 1)%Z in
  (0 <= mp <= 11)%Z /\ (1 <= d <= 31)%Z /\
  (d <= (153 * (mp + 1) + 2) / 5 - (153 * mp + 2) / 5)%Z.
Proof.
  intros H mp d. subst d mp.
  Z.div_mod_to_equations. lia.
Qed.

(** [civilFromDays] gives a real calendar date, and [daysFromCivil] takes
    it back to the day number *)
Lemma civil_roundtrip (z : Z) :
  let '(y, m, d) := JSDate.civilFromDays z in
  JSDate.daysFromCivil y m d = z
  /\ (1 <= m <= 12)%Z /\ (1 <= d <= JSDate.daysInMonth y m)%Z.
Proof.
  unfold JSDate.civilFromDays.
  set (z' := (z + 719468)%Z).
  set (era := (z' / 146097)%Z).
  set (doe := (z' - era * 146097)%Z).
  assert (Hdoe : (0 <= doe <= 146096)%Z)
    by (subst doe era; Z.div_mod_to_equations; lia).
  pose proof (year_of_era doe Hdoe) as Hy. cbv zeta in Hy.
  set (yoe := ((doe - doe / 1460 + doe / 36524 - doe / 146096) / 365)%Z) in *.
  set (doy := (doe - (365 * yoe + yoe / 4 - yoe / 100))%Z) in *.
  destruct Hy as (Hyoe & Hdoy0 & Hdoy1).
  assert (Hdoy : (0 <= doy <= 365)%Z)
    by (split; [lia|]; clear - Hdoy1 Hyoe; Z.div_mod_to_equations; lia).
  pose proof (month_of_year doy Hdoy) as Hm. cbv zeta in Hm.
  set (mp := ((5 * doy + 2) / 153)%Z) in *.
  set (d := (doy - (153 * mp + 2) / 5 + 1)%Z) in *.
  destruct Hm as (Hmp & Hd & Hlen).
  set (m := if (mp <? 10)%Z then (mp + 3)%Z else (mp - 9)%Z).
  assert (Hm : (1 <= m <= 12)%Z)
    by (subst m; destruct (Z.ltb_spec mp 10); lia).
  assert (Hback : (if (m >? 2)%Z then m - 3 else m + 9)%Z = mp).
  { subst m. rewrite Z.gtb_ltb. destruct (Z.ltb_spec mp 10).
    - destruct (Z.ltb_spec 2 (mp + 3)); lia.
    - destruct (Z.ltb_spec 2 (mp - 9)); lia. }
  assert (Hyear : (if (m <=? 2)%Z
                   then (if (m <=? 2)%Z then yoe + era * 400 + 1 else yoe + era * 400) - 1
                   else (if (m <=? 2)%Z then yoe + era * 400 + 1 else yoe + era * 400))%Z
                  = (yoe + era * 400)%Z)
    by (destruct (m <=? 2)%Z; lia).
  split; [|split; [exact Hm|split; [lia|]]].
  - unfold JSDate.daysFromCivil. rewrite Hyear, Hback.
    assert (E1 : ((yoe + era * 400) / 400 = era)%Z)
      by (clear - Hyoe; Z.div_mod_to_equations; lia).
    rewrite E1.
    replace (yoe + era * 400 - era * 400)%Z with yoe by lia.
    subst d doy doe z'. lia.
  - (* the length of the month *)
    assert (Hddef : (d = doy - (153 * mp + 2) / 5 + 1)%Z) by reflexivity.
    assert (Hmpdef : (mp = (5 * doy + 2) / 153)%Z) by reflexivity.
    clearbody d mp doy yoe era.
    unfold JSDate.daysInMonth, JSDate.isLeap.
    assert (Hcases : (mp = 0 \/ mp = 1 \/ mp = 2 \/ mp = 3 \/ mp = 4 \/ mp = 5
                      \/ mp = 6 \/ mp = 7 \/ mp = 8 \/ mp = 9 \/ mp = 10 \/ mp = 11)%Z)
      by lia.
    subst m.
    destruct Hcases as [E|[E|[E|[E|[E|[E|[E|[E|[E|[E|[E|E]]]]]]]]]]];
      rewrite E in Hmpdef, Hddef, Hlen |- *; cbn in Hlen |- *; try lia.
    (* February *)
    assert (Hd2 : (d = doy - 336)%Z)
      by (rewrite Hddef; change ((153 * 11 + 2) / 5)%Z with 337%Z; lia).
    match goal with
    | |- context [if ?b then 29%Z else 28%Z] => destruct b eqn:Eb
    end.
    + lia.
    + assert (doy <= 364)%Z; [|lia].
      apply andb_false_iff in Eb.
      clear - Eb Hdoy1 Hyoe.
      destruct Eb as [Eb|Eb].
      * apply Z.eqb_neq in Eb. Z.div_mod_to_equations. lia.
      * apply orb_false_iff in Eb as [E1 E2].
        apply negb_false_iff in E1. apply Z.eqb_eq in E1.
        apply Z.eqb_neq in E2. Z.div_mod_to_equations. lia.
Qed.

Lemma pad3_shape (n : Z) :
  (0 <= n <= 999)%Z ->
  exists d1 d2 d3,
    padStart0 3 (ofInt n) = String d1 (String d2 (String d3 ""))
    /\ isDigit d1 = true /\ isDigit d2 = true /\ isDigit d3 = true
    /\ parseIntD (String d1 (String d2 (String d3 ""))) = n.
Proof.
  intro Hn.
  assert (H : Notions.allRange 10 0
                (fun n => (999 <? n)%Z ||
                   match padStart0 3 (ofInt n) with
                   | String d1 (String d2 (String d3 EmptyString)) =>
                       isDigit d1 && isDigit d2 && isDigit d3
                       && (parseIntD (String d1 (String d2 (String d3 ""))) =? n)%Z
                   | _ => false
                   end) = true) by (vm_compute; reflexivity).
  pose proof (allRange_spec 10 0 _ H n ltac:(simpl; lia)) as Hp.
  cbv beta in Hp.
  destruct (Z.ltb_spec 999 n); [lia|]. cbn [orb] in Hp.
  destruct (padStart0 3 (ofInt n)) as [|d1 [|d2 [|d3 [|]]]]; try discriminate Hp.
  apply andb_prop in Hp as [Hp H4]. apply andb_prop in Hp as [Hp H3].
  apply andb_prop in Hp as [H1 H2].
  apply Z.eqb_eq in H4. eauto 12.
Qed.

Lemma pad4_shape (n : Z) :
  (0 <= n <= 9999)%Z ->
  exists d1 d2 d3 d4,
    padStart0 4 (ofInt n) = String d1 (String d2 (String d3 (String d4 "")))
    /\ isDigit d1 = true /\ isDigit d2 = true /\ isDigit d3 = true
    /\ isDigit d4 = true
    /\ parseIntD (String d1 (String d2 (String d3 (String d4 "")))) = n.
Proof.
  intro Hn.
  assert (H : Notions.allRange 14 0
                (fun n => (9999 <? n)%Z ||
                   match padStart0 4 (ofInt n) with
                   | String d1 (String d2 (String d3 (String d4 EmptyString))) =>
                       isDigit d1 && isDigit d2 && isDigit d3 && isDigit d4
                       && (parseIntD (String d1 (String d2 (String d3 (String d4 "")))) =? n)%Z
                   | _ => false
                   end) = true) by (vm_compute; reflexivity).
  pose proof (allRange_spec 14 0 _ H n ltac:(simpl; lia)) as Hp.
  cbv beta in Hp.
  destruct (Z.ltb_spec 9999 n); [lia|]. cbn [orb] in Hp.
  destruct (padStart0 4 (ofInt n)) as [|d1 [|d2 [|d3 [|d4 [|]]]]]; try discriminate Hp.
  apply andb_prop in Hp as [Hp H5]. apply andb_prop in Hp as [Hp H4].
  apply andb_prop in Hp as [Hp H3]. apply andb_prop in Hp as [H1 H2].
  apply Z.eqb_eq in H5. eauto 15.
Qed.

Lemma fixedDigits_pad3 (n : Z) (rest : string) :
  (0 <= n <= 999)%Z ->
  JSDate.fixedDigits 3 (padStart0 3 (ofInt n) ++ rest) = Some (n, rest).
Proof.
  intro Hn. destruct (pad3_shape n Hn) as (d1 & d2 & d3 & -> & H1 & H2 & H3 & H4).
  unfold JSDate.fixedDigits. simpl. rewrite H1, H2, H3. simpl. now rewrite H4.
Qed.

Lemma fixedDigits_pad4 (n : Z) (rest : string) :
  (0 <= n <= 9999)%Z ->
  JSDate.fixedDigits 4 (padStart0 4 (ofInt n) ++ rest) = Some (n, rest).
Proof.
  intro Hn.
  destruct (pad4_shape n Hn) as (d1 & d2 & d3 & d4 & -> & H1 & H2 & H3 & H4 & H5).
  unfold JSDate.fixedDigits. simpl. rewrite H1, H2, H3, H4. simpl. now rewrite H5.
Qed.

Lemma year_in_range (y m d : Z) :
  (1 <= m <= 12)%Z -> (1 <= d <= 31)%Z ->
  (-719528 <= JSDate.daysFromCivil y m d <= 2932896)%Z ->
  (0 <= y <= 9999)%Z.
Proof.
  unfold JSDate.daysFromCivil. intros Hm Hd.
  destruct (m <=? 2)%Z eqn:E1, (m >? 2)%Z eqn:E2;
    try (apply Z.leb_le in E1); try (apply Z.leb_gt in E1);
    try (rewrite Z.gtb_ltb in E2);
    try (apply Z.ltb_lt in E2); try (apply Z.ltb_ge in E2);
    try lia;
    intro H; Z.div_mod_to_equations; lia.
Qed.

Lemma daysInMonth_le_31 (y m : Z) : (JSDate.daysInMonth y m <= 31)%Z.
Proof.
  unfold JSDate.daysInMonth.
  destruct (m =? 2)%Z; [destruct (JSDate.isLeap y); lia|].
  destruct ((m =? 4) || (m =? 6) || (m =? 9) || (m =? 11))%Z; lia.
Qed.

(** within the years 0 to 9999, what [toISOString] writes is read back
    as the same time value *)
Lemma toISOString_parse (t : Z) :
  (-62167219200000 <= t <= 253402300799999)%Z ->
  JSDate.parse (JSDate.toISOString t) = Some t.
Proof.
  intro Ht. unfold JSDate.toISOString.
  set (day := (t / JSDate.msPerDay)%Z).
  set (msd := (t mod JSDate.msPerDay)%Z).
  assert (Hday : (-719528 <= day <= 2932896)%Z)
    by (subst day; unfold JSDate.msPerDay; Z.div_mod_to_equations; lia).
  assert (Hmsd : (0 <= msd < 86400000)%Z)
    by (subst msd; unfold JSDate.msPerDay; Z.div_mod_to_equations; lia).
  assert (Ht' : (day * JSDate.msPerDay + msd = t)%Z)
    by (subst day msd; unfold JSDate.msPerDay; Z.div_mod_to_equations; lia).
  pose proof (civil_roundtrip day) as Hrt.
  destruct (JSDate.civilFromDays day) as [[y m] d].
  destruct Hrt as (Hback & Hm & Hd).
  pose proof (daysInMonth_le_31 y m) as H31.
  assert (Hy : (0 <= y <= 9999)%Z)
    by (apply (year_in_range y m d); [exact Hm|lia|rewrite Hback; exact Hday]).
  rewrite (proj2 (Z.leb_le 0 y)), (proj2 (Z.leb_le y 9999)) by lia.
  cbn [andb]. unfold JSDate.pad.
  set (h := (msd / 3600000)%Z).
  set (mi := ((msd / 60000) mod 60)%Z).
  set (sec := ((msd / 1000) mod 60)%Z).
  set (ms := (msd mod 1000)%Z).
  assert (Hh : (0 <= h <= 23)%Z) by (subst h; Z.div_mod_to_equations; lia).
  assert (Hmi : (0 <= mi <= 59)%Z) by (subst mi; Z.div_mod_to_equations; lia).
  assert (Hsec : (0 <= sec <= 59)%Z) by (subst sec; Z.div_mod_to_equations; lia).
  assert (Hms : (0 <= ms <= 999)%Z) by (subst ms; Z.div_mod_to_equations; lia).
  assert (Hsum : (h * 3600000 + mi * 60000 + sec * 1000 + ms = msd)%Z)
    by (subst h mi sec ms; clear - Hmsd; Z.div_mod_to_equations; lia).
  clearbody h mi sec ms day msd.
  unfold JSDate.parse.
  rewrite (fixedDigits_pad4 y) by lia. cbn [JSDate.bind append].
  rewrite expect_same. cbn [JSDate.bind].
  rewrite (fixedDigits_pad2 m) by lia. cbn [JSDate.bind].
  rewrite expect_same. cbn [JSDate.bind].
  rewrite (fixedDigits_pad2 d) by lia. cbn [JSDate.bind].
  rewrite expect_same. cbn [JSDate.bind].
  rewrite (fixedDigits_pad2 h) by lia. cbn [JSDate.bind].
  rewrite expect_same. cbn [JSDate.bind].
  rewrite (fixedDigits_pad2 mi) by lia. cbn [JSDate.bind].
  rewrite expect_same. cbn [JSDate.bind].
  rewrite (fixedDigits_pad2 sec) by lia. cbn [JSDate.bind].
  rewrite expect_same.
  rewrite (fixedDigits_pad3 ms) by lia.
  change (JSDate.parseZone "Z") with (Some 0%Z). cbn [JSDate.bind].
  rewrite (proj2 (Z.leb_le 1 m)), (proj2 (Z.leb_le m 12)),
          (proj2 (Z.leb_le 1 d)), (proj2 (Z.leb_le d _)),
          (proj2 (Z.leb_le h 23)), (proj2 (Z.leb_le mi 59)),
          (proj2 (Z.leb_le sec 59)) by lia.
  cbn [andb]. rewrite Hback. unfold JSDate.timeClip.
  replace (day * JSDate.msPerDay + h * 3600000 + mi * 60000 + sec * 1000 + ms
           - 0 * 60000)%Z with t by lia.
  destruct (Z.leb_spec (Z.abs t) 8640000000000000); [reflexivity|lia].
Qed.

Lemma makeDay_calendar (y m d : Z) :
  (1 <= m <= 12)%Z -> JSDate.makeDay y (m - 1) d = JSDate.daysFromCivil y m d.
Proof.
  intro Hm. unfold JSDate.makeDay.
  assert (E1 : ((m - 1) / 12 = 0)%Z) by (Z.div_mod_to_equations; lia).
  assert (E2 : ((m - 1) mod 12 = m - 1)%Z) by (Z.div_mod_to_equations; lia).
  rewrite E1, E2. replace (y + 0)%Z with y by lia.
  replace (m - 1 + 1)%Z with m by lia.
  unfold JSDate.daysFromCivil. lia.
Qed.

(** X12. On a host whose offset from UTC stays within a day, the upload
    resolves every cell the pattern matches, impossible dates included:
    its guard against an invalid date never fires. *)
Theorem upload_resolves_every_match (tz : Z -> Z) (raw : string)
    (mt : Ingest.StampMatch) :
  (forall t, (Z.abs (tz t) <= 86400000)%Z) ->
  truthy raw = true ->
  Ingest.matchStamp (trim (removeQuotes raw)) = Some mt ->
  exists s, Upload.parseLastUpdated tz raw = Some s.
Proof.
  intros Htz Hraw Hm.
  destruct (matchStamp_ranges _ mt Hm) as (Bm & Bd & By & Bh & Bmi).
  unfold Upload.parseLastUpdated. rewrite Hraw, Hm. cbn [negb]. cbv zeta.
  unfold JSDate.newDateLocal.
  set (y := parseIntD (Ingest.g_year mt)) in *.
  set (yr := if (0 <=? y)%Z && (y <=? 99)%Z then (1900 + y)%Z else y).
  assert (Hyr : (100 <= yr <= 9999)%Z).
  { unfold yr. destruct (Z.leb_spec 0 y), (Z.leb_spec y 99); cbn [andb]; lia. }
  set (mo := (parseIntD (Ingest.g_month mt) - 1)%Z).
  assert (Hdays : (-800000 - 200 <= JSDate.makeDay yr mo (parseIntD (Ingest.g_day mt))
                   <= 3000000 + 200)%Z).
  { unfold JSDate.makeDay.
    pose proof (daysFromCivil_bound (yr + mo / 12) (mo mod 12 + 1) 1
                  ltac:(subst mo; Z.div_mod_to_equations; lia)
                  ltac:(Z.div_mod_to_equations; lia) ltac:(lia)).
    lia. }
  set (tlocal := (JSDate.makeDay yr mo (parseIntD (Ingest.g_day mt)) * JSDate.msPerDay
                  + JSDate.makeTime (Ingest.hour24 mt) (parseIntD (Ingest.g_minute mt)))%Z).
  assert (Hclip : JSDate.timeClip (tlocal - tz tlocal) = Some (tlocal - tz tlocal)%Z).
  { unfold JSDate.timeClip. specialize (Htz tlocal).
    destruct (Z.leb_spec (Z.abs (tlocal - tz tlocal)) 8640000000000000) as [|Hbig];
      [reflexivity|].
    exfalso. subst tlocal. unfold JSDate.msPerDay, JSDate.makeTime in *. lia. }
  rewrite Hclip. eauto.
Qed.

Lemma upload_resolves_every_match_witness :
  exists s, Upload.parseLastUpdated Spec.utcHost "13/45/2026 10:00" = Some s.
Proof.
  apply (upload_resolves_every_match Spec.utcHost "13/45/2026 10:00"
           (Ingest.mkStampMatch "13" "45" "2026" "10" "00" "")).
  - intro t. unfold Spec.utcHost. simpl. lia.
  - reflexivity.
  - vm_compute. reflexivity.
Defined.

(** X13. For a cell with a real calendar date and time of day in the
    years 100 to 9998, on a host whose offset stays within a day, the
    timestamp the upload writes is read back by the page as the instant
    of that wall-clock time in the time zone of the host. *)
Theorem upload_timestamp_reads_back (tz : Z -> Z) (raw : string)
    (mt : Ingest.StampMatch) :
  (forall t, (Z.abs (tz t) <= 86400000)%Z) ->
  truthy raw = true ->
  Ingest.matchStamp (trim (removeQuotes raw)) = Some mt ->
  let y := parseIntD (Ingest.g_year mt) in
  let m := parseIntD (Ingest.g_month mt) in
  let d := parseIntD (Ingest.g_day mt) in
  let mi := parseIntD (Ingest.g_minute mt) in
  let tlocal := Notions.instant y m d (Ingest.hour24 mt) mi 0 in
  (100 <= y <= 9998)%Z ->
  (1 <= m <= 12)%Z -> (1 <= d <= JSDate.daysInMonth y m)%Z ->
  (Ingest.hour24 mt <= 23)%Z -> (mi <= 59)%Z ->
  exists s,
    Upload.parseLastUpdated tz raw = Some s /\
    JSDate.parse s = Some (tlocal - tz tlocal)%Z.
Proof.
  intros Htz Hraw Hm y m d mi tlocal Ry Rm Rd Rh Rmi.
  destruct (matchStamp_ranges _ mt Hm) as (_ & _ & _ & Bh & Bmi).
  pose proof (daysInMonth_le_31 y m) as H31.
  unfold Upload.parseLastUpdated. rewrite Hraw, Hm. cbn [negb]. cbv zeta.
  unfold JSDate.newDateLocal. fold y m d mi.
  assert (Eyr : (if (0 <=? y)%Z && (y <=? 99)%Z then (1900 + y)%Z else y) = y).
  { destruct (Z.leb_spec 0 y), (Z.leb_spec y 99); cbn [andb]; lia. }
  rewrite Eyr, (makeDay_calendar y m d Rm).
  assert (Elocal : (JSDate.daysFromCivil y m d * JSDate.msPerDay
                    + JSDate.makeTime (Ingest.hour24 mt) mi)%Z = tlocal).
  { subst tlocal. unfold Notions.instant, JSDate.makeTime. lia. }
  rewrite Elocal.
  pose proof (daysFromCivil_bound y m d ltac:(lia) Rm ltac:(lia)) as Bd.
  assert (Hlo : (-683003 <= JSDate.daysFromCivil y m d)%Z).
  { clearbody y m d. clear - Ry Rm Rd. unfold JSDate.daysFromCivil.
    destruct (Z.leb_spec m 2), (Z.ltb_spec 2 m);
      rewrite ?Z.gtb_ltb;
      repeat match goal with
             | |- context [(2 <? m)%Z] => destruct (Z.ltb_spec 2 m)
             end;
      try lia; Z.div_mod_to_equations; lia. }
  assert (Hhi : (JSDate.daysFromCivil y m d <= 2932531)%Z).
  { clearbody y m d. clear - Ry Rm Rd H31. unfold JSDate.daysFromCivil.
    destruct (Z.leb_spec m 2), (Z.ltb_spec 2 m);
      rewrite ?Z.gtb_ltb;
      repeat match goal with
             | |- context [(2 <? m)%Z] => destruct (Z.ltb_spec 2 m)
             end;
      try lia; Z.div_mod_to_equations; lia. }
  specialize (Htz tlocal).
  assert (Hrange : (-62167219200000 <= tlocal - tz tlocal <= 253402300799999)%Z).
  { subst tlocal. unfold Notions.instant, JSDate.msPerDay in *. lia. }
  assert (Hclip : JSDate.timeClip (tlocal - tz tlocal) = Some (tlocal - tz tlocal)%Z).
  { unfold JSDate.timeClip.
    destruct (Z.leb_spec (Z.abs (tlocal - tz tlocal)) 8640000000000000); [reflexivity|lia]. }
  rewrite Hclip. eexists. split; [reflexivity|].
  now apply toISOString_parse.
Qed.

Lemma upload_timestamp_reads_back_witness :
  exists s,
    Upload.parseLastUpdated Examples.pacificHost "3/8/2026 12:30 PM" = Some s /\
    JSDate.parse s
    = Some (Notions.instant 2026 3 8 12 30 0
            - Examples.pacificHost (Notions.instant 2026 3 8 12 30 0))%Z.
Proof.
  apply (upload_timestamp_reads_back Examples.pacificHost "3/8/2026 12:30 PM"
           (Ingest.mkStampMatch "3" "8" "2026" "12" "30" " PM")).
  - intro t. unfold Examples.pacificHost.
    destruct (t <? _)%Z; simpl; lia.
  - reflexivity.
  - vm_compute. reflexivity.
  - vm_compute. split; discriminate.
  - vm_compute. split; discriminate.
  - vm_compute. split; discriminate.
  - vm_compute. discriminate.
  - vm_compute. discriminate.
Defined.

(** ** The two writers of the store *)

(** X14. The upload changes the stored document only for a request that
    carries the configured, non-empty password and a file with at least
    one row, and it then answers with success. *)
Theorem upload_writes_only_when_authorised (tz : Z -> Z) (env : Upload.Env)
    (request : Upload.Request) (stored stored' : Store.File)
    (response : Upload.Response) :
  Upload.POST tz env request stored = (response, stored') ->
  stored' <> stored ->
  exists pw text n m,
    Upload.adminPassword env = Some pw /\ pw <> EmptyString
    /\ Upload.password request = Some pw
    /\ Upload.file request = Some text
    /\ Ingest.rows (Upload.parseCSV tz text) <> []
    /\ response = Upload.Success n m.
Proof.
  unfold Upload.POST. intros H Hne.
  destruct (Upload.adminPassword env) as [pw|];
    [|injection H as _ <-; contradiction].
  destruct (truthy pw) eqn:Epw; simpl in H;
    [|injection H as _ <-; contradiction].
  unfold Upload.samePassword in H.
  destruct (Upload.password request) as [given|];
    [|injection H as _ <-; contradiction].
  destruct (String.eqb given pw) eqn:Eg; simpl in H;
    [|injection H as _ <-; contradiction].
  apply String.eqb_eq in Eg. subst given.
  destruct (Upload.file request) as [text|];
    [|injection H as _ <-; contradiction].
  destruct (Nat.eqb _ 0) eqn:E; [injection H as _ <-; contradiction|].
  destruct (negb (Upload.diskOk env)); [injection H as _ <-; contradiction|].
  injection H as <- _.
  exists pw, text. do 2 eexists.
  repeat split; try reflexivity.
  - now apply truthy_nonempty.
  - intro Hr. rewrite Hr in E. discriminate E.
Qed.

Lemma upload_writes_only_when_authorised_witness :
  exists pw text n m,
    Upload.adminPassword Examples.env = Some pw /\ pw <> EmptyString
    /\ Upload.password (Examples.upload Examples.march7) = Some pw
    /\ Upload.file (Examples.upload Examples.march7) = Some text
    /\ Ingest.rows (Upload.parseCSV Spec.utcHost text) <> []
    /\ fst (Upload.POST Spec.utcHost Examples.env (Examples.upload Examples.march7) None)
       = Upload.Success n m.
Proof.
  apply (upload_writes_only_when_authorised Spec.utcHost Examples.env
           (Examples.upload Examples.march7) None
           (snd (Upload.POST Spec.utcHost Examples.env (Examples.upload Examples.march7) None))).
  - vm_compute. reflexivity.
  - vm_compute. discriminate.
Defined.

(** X15. A successful upload is an append: the stored snapshots are the
    earlier ones, untouched and in their order, followed by one snapshot
    holding the parsed rows; [lastUpdated] is its timestamp; the answer
    reports the number of its rows, which is not zero, and the new number
    of snapshots. *)
Theorem upload_success_appends (tz : Z -> Z) (env : Upload.Env)
    (request : Upload.Request) (stored stored' : Store.File) (n m : nat) :
  Upload.POST tz env request stored = (Upload.Success n m, stored') ->
  exists text s,
    Upload.file request = Some text
    /\ rows s = Ingest.rows (Upload.parseCSV tz text)
    /\ snapshots (Store.load stored') = snapshots (Store.load stored) ++ [s]
    /\ lastUpdated (Store.load stored') = Some (timestamp s)
    /\ n = List.length (rows s) /\ 0 < n
    /\ m = S (List.length (snapshots (Store.load stored))).
Proof.
  unfold Upload.POST. intro H.
  destruct (Upload.adminPassword env) as [pw|]; [|discriminate].
  destruct (negb (truthy pw)); [discriminate|].
  destruct (negb (Upload.samePassword (Upload.password request) pw)); [discriminate|].
  destruct (Upload.file request) as [text|]; [|discriminate].
  destruct (Nat.eqb _ 0) eqn:E; [discriminate|].
  destruct (negb (Upload.diskOk env)); [discriminate|].
  injection H as <- <- <-.
  exists text,
    (mkSnapshot (orElse (Ingest.lastUpdated (Upload.parseCSV tz text)) (Upload.now env))
                (Ingest.rows (Upload.parseCSV tz text))).
  split; [reflexivity|]. split; [reflexivity|].
  split; [reflexivity|]. split; [reflexivity|].
  split; [reflexivity|]. split.
  - cbn [rows]. apply Nat.eqb_neq in E. lia.
  - cbn [Store.push snapshots]. rewrite length_app. simpl. lia.
Qed.

Lemma upload_success_appends_witness :
  exists text s,
    Upload.file (Examples.upload Examples.march9) = Some text
    /\ rows s = Ingest.rows (Upload.parseCSV Spec.utcHost text)
    /\ snapshots (Store.load
                    (snd (Upload.POST Spec.utcHost Examples.env
                            (Examples.upload Examples.march9)
                            (Some Examples.olderThenNewer))))
       = snapshots (Store.load (Some Examples.olderThenNewer)) ++ [s]
    /\ lastUpdated (Store.load
                      (snd (Upload.POST Spec.utcHost Examples.env
                              (Examples.upload Examples.march9)
                              (Some Examples.olderThenNewer))))
       = Some (timestamp s)
    /\ 1 = List.length (rows s) /\ 0 < 1
    /\ 3 = S (List.length (snapshots (Store.load (Some Examples.olderThenNewer)))).
Proof.
  apply (upload_success_appends Spec.utcHost Examples.env
           (Examples.upload Examples.march9) (Some Examples.olderThenNewer)).
  vm_compute. reflexivity.
Defined.

(** what a run of the fetch script does, by outcome *)
Lemma main_cases (answers : list (option string)) (now : string) (diskOk : bool)
    (stored : Store.File) :
  let old := snapshots (Store.load stored) in
  (snd (Fetch.main answers now diskOk stored) = stored
   /\ forall total, fst (Fetch.main answers now diskOk stored) <> Fetch.Saved total)
  \/
  (exists text s,
     Fetch.fetchCSV answers = Some text
     /\ rows s = Ingest.rows (Fetch.parseCSV text) /\ rows s <> []
     /\ timestamp s = orElse (Ingest.lastUpdated (Fetch.parseCSV text)) now
     /\ ~ In (timestamp s) (map timestamp old)
     /\ Fetch.main answers now diskOk stored
        = (Fetch.Saved (S (List.length old)), Some (Store.push (Store.load stored) s))).
Proof.
  intro old. unfold Fetch.main.
  destruct (Fetch.fetchCSV answers) as [text|]; [|left; split; [reflexivity|discriminate]].
  destruct (Nat.eqb _ 0) eqn:E; [left; split; [reflexivity|discriminate]|].
  destruct (existsb _ _) eqn:Ex; [left; split; [reflexivity|discriminate]|].
  destruct diskOk; [|left; split; [reflexivity|discriminate]].
  right. exists text,
    (mkSnapshot (orElse (Ingest.lastUpdated (Fetch.parseCSV text)) now)
                (Ingest.rows (Fetch.parseCSV text))).
  split; [reflexivity|].
  split; [reflexivity|]. split.
  { cbn [rows]. intro Hr. rewrite Hr in E. discriminate E. }
  split; [reflexivity|]. split.
  - simpl. intro Hin. apply in_map_iff in Hin as (s' & Hs & Hin).
    assert (existsb (fun s => String.eqb (timestamp s)
                      (orElse (Ingest.lastUpdated (Fetch.parseCSV text)) now))
                    (snapshots (Store.load stored)) = true).
    { apply existsb_exists. exists s'. split; [exact Hin|].
      rewrite Hs. apply String.eqb_refl. }
    congruence.
  - simpl. rewrite length_app. simpl. f_equal. f_equal. fold old. lia.
Qed.

(** X16. The fetch script keeps the timestamps of the store distinct: if
    no two stored snapshots share a timestamp before a run, none do after
    it, whatever the run does. *)
Theorem fetch_keeps_timestamps_distinct (answers : list (option string))
    (now : string) (diskOk : bool) (stored : Store.File) :
  NoDup (map timestamp (snapshots (Store.load stored))) ->
  NoDup (map timestamp
           (snapshots (Store.load (snd (Fetch.main answers now diskOk stored))))).
Proof.
  intro Hnd.
  destruct (main_cases answers now diskOk stored)
    as [[-> _]|(text & s & _ & _ & _ & _ & Hnew & ->)]; [exact Hnd|].
  simpl. rewrite map_app. simpl.
  apply NoDup_app; [exact Hnd|constructor; [intros []|constructor]|].
  intros x Hx [<-|[]]. contradiction.
Qed.

Lemma fetch_keeps_timestamps_distinct_witness :
  NoDup (map timestamp
           (snapshots (Store.load (snd (Fetch.main [Some Examples.withBlankLine]
                                          "2026-03-10T12:00:00.000Z" true
                                          (Some Examples.olderThenNewer)))))).
Proof.
  apply (fetch_keeps_timestamps_distinct [Some Examples.withBlankLine]
           "2026-03-10T12:00:00.000Z" true (Some Examples.olderThenNewer)).
  vm_compute. repeat constructor; simpl; intuition discriminate.
Defined.

(** X17. The fetch script writes only when it reports a save; a save
    appends one snapshot with a timestamp not yet in the store, leaves
    the earlier snapshots as they were, and reports the new count. *)
Theorem fetch_writes_only_on_save (answers : list (option string))
    (now : string) (diskOk : bool) (stored stored' : Store.File)
    (outcome : Fetch.Outcome) :
  Fetch.main answers now diskOk stored = (outcome, stored') ->
  stored' <> stored ->
  exists s,
    outcome = Fetch.Saved (S (List.length (snapshots (Store.load stored))))
    /\ snapshots (Store.load stored') = snapshots (Store.load stored) ++ [s]
    /\ lastUpdated (Store.load stored') = Some (timestamp s)
    /\ rows s <> []
    /\ ~ In (timestamp s) (map timestamp (snapshots (Store.load stored))).
Proof.
  intros H Hne.
  destruct (main_cases answers now diskOk stored)
    as [[Hs _]|(text & s & _ & _ & Hr & _ & Hnew & Hm)].
  - rewrite H in Hs. simpl in Hs. contradiction.
  - rewrite H in Hm. injection Hm as -> ->.
    exists s. repeat split; assumption.
Qed.

Lemma fetch_writes_only_on_save_witness :
  exists s,
    fst (Fetch.main [Some Examples.withBlankLine] "2026-03-10T12:00:00.000Z" true None)
    = Fetch.Saved (S (List.length (snapshots (Store.load None))))
    /\ snapshots (Store.load (snd (Fetch.main [Some Examples.withBlankLine]
                                     "2026-03-10T12:00:00.000Z" true None)))
       = snapshots (Store.load None) ++ [s].
Proof.
  destruct (fetch_writes_only_on_save [Some Examples.withBlankLine]
              "2026-03-10T12:00:00.000Z" true None
              (snd (Fetch.main [Some Examples.withBlankLine] "2026-03-10T12:00:00.000Z" true None))
              (fst (Fetch.main [Some Examples.withBlankLine] "2026-03-10T12:00:00.000Z" true None)))
    as (s & H1 & H2 & _).
  - vm_compute. reflexivity.
  - vm_compute. discriminate.
  - exists s. split; assumption.
Defined.

(** X18. Running the fetch script again on the same answers after a save
    skips: when the export carries a resolved timestamp, or the clock
    reads the same, the second run reports the duplicate and leaves the
    store as the first run left it. *)
Theorem fetch_rerun_is_skipped (answers : list (option string))
    (now now' : string) (diskOk diskOk' : bool) (stored stored' : Store.File)
    (total : nat) (text : string) :
  Fetch.fetchCSV answers = Some text ->
  Fetch.main answers now diskOk stored = (Fetch.Saved total, stored') ->
  now' = now \/ truthyOpt (Ingest.lastUpdated (Fetch.parseCSV text)) = true ->
  exists ts, Fetch.main answers now' diskOk' stored' = (Fetch.Skipped ts, stored').
Proof.
  intros Hf H Hnow.
  destruct (main_cases answers now diskOk stored)
    as [[_ Hno]|(text' & s & Hf' & Hrs & Hr & Hts & _ & Hm)].
  - rewrite H in Hno. exfalso. now apply (Hno total).
  - rewrite H in Hm. injection Hm as _ ->.
    assert (text' = text) by congruence. subst text'.
    assert (Ets : orElse (Ingest.lastUpdated (Fetch.parseCSV text)) now'
                  = timestamp s).
    { rewrite Hts. destruct Hnow as [->|Ht]; [reflexivity|].
      destruct (Ingest.lastUpdated (Fetch.parseCSV text)) as [ts|]; [|discriminate].
      simpl in *. now rewrite Ht. }
    eexists. apply fetch_duplicate_is_skipped; [exact Hf|congruence|].
    rewrite Ets. cbn [Store.load Store.push snapshots].
    rewrite map_app. apply in_or_app. right. left. reflexivity.
Qed.

Lemma fetch_rerun_is_skipped_witness :
  exists ts,
    Fetch.main [None; Some (Examples.march7 ++ nl)%string] "2026-03-11T08:00:00.000Z" false
      (snd (Fetch.main [None; Some (Examples.march7 ++ nl)%string]
              "2026-03-10T12:00:00.000Z" true None))
    = (Fetch.Skipped ts,
       snd (Fetch.main [None; Some (Examples.march7 ++ nl)%string]
              "2026-03-10T12:00:00.000Z" true None)).
Proof.
  apply (fetch_rerun_is_skipped [None; Some (Examples.march7 ++ nl)%string]
           "2026-03-10T12:00:00.000Z" "2026-03-11T08:00:00.000Z" true false None
           (snd (Fetch.main [None; Some (Examples.march7 ++ nl)%string]
                   "2026-03-10T12:00:00.000Z" true None))
           1 (Examples.march7 ++ nl)%string).
  - vm_compute. reflexivity.
  - vm_compute. reflexivity.
  - right. vm_compute. reflexivity.
Defined.

(** ** The download *)

(** X19. [fetchCSV] returns the first answered body that has a comma and
    more than two lines, and fails exactly when no answered body is such:
    the body it returns is among the answers and passes the test, and
    every answer before it failed or did not pass. *)
Theorem fetchCSV_first_acceptable (answers : list (option string)) :
  match Fetch.fetchCSV answers with
  | Some text =>
      exists before after,
        answers = before ++ Some text :: after
        /\ includes text "," = true
        /\ 2 < List.length (split LF text)
        /\ forall t, In (Some t) before -> Fetch.looksLikeCSV t = false
  | None => forall t, In (Some t) answers -> Fetch.looksLikeCSV t = false
  end.
Proof.
  induction answers as [|[t|] rest IH]; simpl.
  - intros t [].
  - destruct (Fetch.looksLikeCSV t) eqn:E.
    + exists [], rest. split; [reflexivity|].
      unfold Fetch.looksLikeCSV in E. apply andb_true_iff in E as [E1 E2].
      apply Nat.ltb_lt in E2. repeat split; try assumption. intros ? [].
    + destruct (Fetch.fetchCSV rest) as [text|].
      * destruct IH as (before & after & -> & H1 & H2 & H3).
        exists (Some t :: before), after. repeat split; try assumption.
        intros t' [Ht|Ht]; [congruence|now apply H3].
      * intros t' [Ht|Ht]; [congruence|now apply IH].
  - destruct (Fetch.fetchCSV rest) as [text|].
    + destruct IH as (before & after & -> & H1 & H2 & H3).
      exists (None :: before), after. repeat split; try assumption.
      intros t' [Ht|Ht]; [discriminate|now apply H3].
    + intros t' [Ht|Ht]; [discriminate|now apply IH].
Qed.

(** An export of a header and one data line without a final line
    break is taken by the upload but never by the fetch script: a body of
    at most two lines makes the script fail with the store untouched,
    whatever the body holds. *)
Lemma fetch_rejects_two_line_export (text now : string) (diskOk : bool)
    (stored : Store.File) :
  List.length (split LF text) <= 2 ->
  Fetch.main [Some text; Some text] now diskOk stored = (Fetch.FetchFailed, stored).
Proof.
  intro H. unfold Fetch.main. simpl.
  assert (E : Fetch.looksLikeCSV text = false).
  { unfold Fetch.looksLikeCSV. apply andb_false_iff. right.
    apply Nat.ltb_ge. exact H. }
  now rewrite E.
Qed.

Lemma fetch_rejects_two_line_export_witness :
  Fetch.main [Some Examples.march7; Some Examples.march7]
    "2026-03-10T12:00:00.000Z" true None = (Fetch.FetchFailed, None)
  /\ fst (Upload.POST Spec.utcHost Examples.env (Examples.upload Examples.march7) None)
     = Upload.Success 1 1.
Proof.
  split.
  - apply (fetch_rejects_two_line_export Examples.march7). vm_compute. lia.
  - vm_compute. reflexivity.
Defined.

(** ** From a write to the page *)

(** what was latest becomes previous when a snapshot is pushed *)
Lemma prev_after_push (h : HousingData) (s : Snapshot) :
  View.prev (Store.push h s)
  = match snapshots h with [] => None | _ => Some (View.latest h) end.
Proof.
  unfold View.prev, View.latest, Store.push. cbn [snapshots].
  rewrite length_app. cbn [List.length].
  destruct (snapshots h) as [|s0 l] eqn:E; [reflexivity|].
  set (n := List.length (s0 :: l)).
  assert (Hn : 0 < n) by (subst n; simpl; lia).
  replace (Nat.ltb 1 (n + 1)) with true by (symmetry; apply Nat.ltb_lt; lia).
  replace (Nat.eqb n 0) with false by (symmetry; apply Nat.eqb_neq; lia).
  replace (n + 1 - 2) with (n - 1) by lia.
  rewrite nth_error_app1 by lia.
  destruct (nth_error (s0 :: l) (n - 1)) eqn:En; [reflexivity|].
  apply nth_error_None in En. fold n in En. lia.
Qed.

(** X20. After a save by the fetch script, the document served by the data
    route gives the page the fetched rows as its latest rows, and as its
    previous rows what were the latest rows before the run, if the store
    held a snapshot. *)
Theorem saved_rows_are_served (answers : list (option string))
    (now : string) (diskOk : bool) (stored stored' : Store.File)
    (total : nat) (text : string) :
  Fetch.fetchCSV answers = Some text ->
  Fetch.main answers now diskOk stored = (Fetch.Saved total, stored') ->
  View.latest (Api.GET stored') = Ingest.rows (Fetch.parseCSV text)
  /\ View.prev (Api.GET stored')
     = match snapshots (Api.GET stored) with
       | [] => None
       | _ => Some (View.latest (Api.GET stored))
       end
  /\ lastUpdated (Api.GET stored')
     = Some (orElse (Ingest.lastUpdated (Fetch.parseCSV text)) now).
Proof.
  intros Hf H.
  destruct (main_cases answers now diskOk stored)
    as [[_ Hno]|(text' & s & Hf' & Hrs & Hr & Hts & _ & Hm)].
  - rewrite H in Hno. exfalso. now apply (Hno total).
  - rewrite H in Hm. injection Hm as _ ->.
    assert (text' = text) by congruence. subst text'.
    unfold Api.GET. cbn [Store.load].
    split; [|split].
    + rewrite latest_is_last_inserted. exact Hrs.
    + apply prev_after_push.
    + cbn [Store.push lastUpdated]. now rewrite Hts.
Qed.

Lemma saved_rows_are_served_witness :
  View.latest (Api.GET (snd (Fetch.main [Some Examples.withBlankLine]
                               "2026-03-10T12:00:00.000Z" true
                               (Some Examples.olderThenNewer))))
  = Ingest.rows (Fetch.parseCSV Examples.withBlankLine)
  /\ View.prev (Api.GET (snd (Fetch.main [Some Examples.withBlankLine]
                                "2026-03-10T12:00:00.000Z" true
                                (Some Examples.olderThenNewer))))
     = match snapshots (Api.GET (Some Examples.olderThenNewer)) with
       | [] => None
       | _ => Some (View.latest (Api.GET (Some Examples.olderThenNewer)))
       end
  /\ lastUpdated (Api.GET (snd (Fetch.main [Some Examples.withBlankLine]
                                  "2026-03-10T12:00:00.000Z" true
                                  (Some Examples.olderThenNewer))))
     = Some (orElse (Ingest.lastUpdated (Fetch.parseCSV Examples.withBlankLine))
                    "2026-03-10T12:00:00.000Z").
Proof.
  apply (saved_rows_are_served [Some Examples.withBlankLine]
           "2026-03-10T12:00:00.000Z" true (Some Examples.olderThenNewer)
           (snd (Fetch.main [Some Examples.withBlankLine]
                   "2026-03-10T12:00:00.000Z" true (Some Examples.olderThenNewer)))
           3 Examples.withBlankLine).
  - vm_compute. reflexivity.
  - vm_compute. reflexivity.
Defined.

(** * The page *)

(** ** Sorting *)

Lemma insertBy_Permutation {A} (cmp : A -> A -> Z) (x : A) (l : list A) :
  Permutation (View.insertBy cmp x l) (x :: l).
Proof.
  induction l as [|y l IH]; simpl; [apply Permutation_refl|].
  destruct (cmp x y <=? 0)%Z; [apply Permutation_refl|].
  eapply perm_trans; [apply perm_skip, IH|apply perm_swap].
Qed.

Lemma sortBy_Permutation {A} (cmp : A -> A -> Z) (l : list A) :
  Permutation (View.sortBy cmp l) l.
Proof.
  unfold View.sortBy. induction l as [|x l IH]; simpl; [constructor|].
  eapply perm_trans; [apply insertBy_Permutation|now apply perm_skip].
Qed.

Section Sorted.

Context {A : Type} (cmp : A -> A -> Z) (Q : A -> Prop).
Hypothesis total : forall a b, Q a -> Q b -> (cmp a b <= 0 \/ cmp b a <= 0)%Z.
Hypothesis trans :
  forall a b c, Q a -> Q b -> Q c ->
    (cmp a b <= 0 -> cmp b c <= 0 -> cmp a c <= 0)%Z.

Lemma insertBy_sorted_on (x : A) (l : list A) :
  Q x -> Forall Q l ->
  StronglySorted (Notions.inOrder cmp) l ->
  StronglySorted (Notions.inOrder cmp) (View.insertBy cmp x l).
Proof.
  intro Hx. induction l as [|y l IH]; simpl; intros HQ H.
  - constructor; [constructor|constructor].
  - inversion H as [|? ? Hs Hall]; subst.
    inversion HQ as [|? ? Hy HQ']; subst.
    destruct (Z.leb_spec (cmp x y) 0) as [Hle|Hgt].
    + constructor; [exact H|]. constructor; [exact Hle|].
      apply Forall_forall. intros z Hz.
      rewrite Forall_forall in Hall, HQ'.
      unfold Notions.inOrder in *.
      apply (trans x y z); auto.
    + constructor; [now apply IH|].
      apply Forall_forall. intros z Hz. apply insertBy_In in Hz as [->|Hz].
      * unfold Notions.inOrder. destruct (total x y Hx Hy); lia.
      * rewrite Forall_forall in Hall. now apply Hall.
Qed.

Lemma sortBy_Forall (l : list A) : Forall Q l -> Forall Q (View.sortBy cmp l).
Proof.
  intro H. apply Forall_forall. intros x Hx. apply sortBy_In in Hx.
  rewrite Forall_forall in H. now apply H.
Qed.

Lemma sortBy_sorted_on (l : list A) :
  Forall Q l -> StronglySorted (Notions.inOrder cmp) (View.sortBy cmp l).
Proof.
  induction l as [|x l IH]; intro H; [constructor|].
  inversion H as [|? ? Hx HQ]; subst.
  change (View.sortBy cmp (x :: l)) with (View.insertBy cmp x (View.sortBy cmp l)).
  apply insertBy_sorted_on; [exact Hx|now apply sortBy_Forall|now apply IH].
Qed.

End Sorted.

Lemma sortBy_sorted {A} (cmp : A -> A -> Z) (l : list A) :
  (forall a b, (cmp a b <= 0 \/ cmp b a <= 0)%Z) ->
  (forall a b c, (cmp a b <= 0 -> cmp b c <= 0 -> cmp a c <= 0)%Z) ->
  StronglySorted (Notions.inOrder cmp) (View.sortBy cmp l).
Proof.
  intros Htot Htrans.
  apply (sortBy_sorted_on cmp (fun _ => True)); auto.
  - intros a b c _ _ _. apply Htrans.
  - apply Forall_forall. auto.
Qed.

Lemma StronglySorted_impl {A} (R R' : A -> A -> Prop) (l : list A) :
  (forall a b, R a b -> R' a b) -> StronglySorted R l -> StronglySorted R' l.
Proof.
  intros HR H. induction H as [|a l _ IH Hall]; constructor; [exact IH|].
  eapply Forall_impl; [|exact Hall]. intros b. apply HR.
Qed.

(** a sort by a numeric rank is always in order *)
Lemma sortBy_rank_sorted {A} (rank : A -> Z) (l : list A) :
  StronglySorted (fun a b => (rank a <= rank b)%Z)
                 (View.sortBy (fun a b => (rank a - rank b)%Z) l).
Proof.
  apply (StronglySorted_impl (Notions.inOrder (fun a b => (rank a - rank b)%Z))).
  - unfold Notions.inOrder. intros; lia.
  - apply sortBy_sorted; intros; cbv beta in *; lia.
Qed.

(** ** Sums over maps *)

Lemma weigh_set {A} (mu : A -> Z) (o : Obj.t A) (k : string) (v : A) :
  Notions.weigh mu (Obj.set o k v)
  = (Notions.weigh mu o
     - match Obj.get o k with Some c => mu c | None => 0 end + mu v)%Z.
Proof.
  induction o as [|[k1 v1] o IH]; simpl; [lia|].
  destruct (String.eqb k1 k); simpl; [lia|]. rewrite IH. lia.
Qed.

Lemma In_set {A} (o : Obj.t A) (k k' : string) (v v' : A) :
  In (k', v') (Obj.set o k v) -> (k' = k /\ v' = v) \/ In (k', v') o.
Proof.
  induction o as [|[k1 v1] o IH]; simpl.
  - intros [E|[]]. injection E as <- <-. now left.
  - destruct (String.eqb_spec k1 k) as [->|Hne]; simpl.
    + intros [E|H]; [injection E as <- <-; now left|right; now right].
    + intros [E|H]; [right; now left|].
      destruct (IH H) as [?|?]; [now left|right; now right].
Qed.

Lemma get_In {A} (o : Obj.t A) (k : string) (v : A) :
  Obj.get o k = Some v -> In (k, v) o.
Proof.
  induction o as [|[k1 v1] o IH]; simpl; [discriminate|].
  destruct (String.eqb_spec k1 k) as [->|Hne].
  - intro E. injection E as ->. now left.
  - intro H. right. now apply IH.
Qed.

Lemma fold_left_total (l : list GroupedRow.t) (a : Z) :
  fold_left (fun a r => (a + GroupedRow.totalBeds r)%Z) l a
  = (a + Notions.sumZ (map GroupedRow.totalBeds l))%Z.
Proof.
  revert a. induction l as [|r l IH]; intro a; simpl; [lia|].
  rewrite IH. lia.
Qed.

Lemma sumZ_Permutation (l l' : list Z) :
  Permutation l l' -> Notions.sumZ l = Notions.sumZ l'.
Proof. induction 1; simpl; lia. Qed.

Lemma weigh_values {A} (mu : A -> Z) (o : Obj.t A) :
  Notions.sumZ (map mu (Obj.values o)) = Notions.weigh mu o.
Proof. induction o as [|[k v] o IH]; simpl; [reflexivity|now rewrite IH]. Qed.

(** ** The grouping loop *)

Lemma weigh_addRow (g : Obj.t GroupedRow.t) (r : Row) :
  Notions.weigh GroupedRow.totalBeds (View.addRow g r)
  = (Notions.weigh GroupedRow.totalBeds g + bedSpaces r)%Z.
Proof.
  unfold View.addRow. rewrite weigh_set.
  destruct (Obj.get g (View.groupKey r)); cbn [GroupedRow.totalBeds]; lia.
Qed.

Lemma weigh_fold_addRow (f : list Row) :
  forall g,
    Notions.weigh GroupedRow.totalBeds (fold_left View.addRow f g)
    = (Notions.weigh GroupedRow.totalBeds g + Notions.beds f)%Z.
Proof.
  induction f as [|r f IH]; intro g; simpl; [lia|].
  rewrite IH, weigh_addRow. lia.
Qed.

(** where a row of the table comes from *)
Lemma table_row_origin (localeCompare : string -> string -> Z)
    (data : HousingData) (flt : View.Filter) (sortF : View.SortField)
    (sortD : View.SortDir) (row : GroupedRow.t) :
  In row (View.table localeCompare data flt sortF sortD) ->
  exists k row0,
    In (k, row0) (View.group (View.applyFilter flt (View.latest data)))
    /\ row = View.withChange (View.prevTotals flt (View.prev data)) row0.
Proof.
  unfold View.table. intro Hin.
  apply sortBy_In in Hin. apply in_map_iff in Hin as (row0 & <- & Hin).
  unfold Obj.values in Hin. apply in_map_iff in Hin as ([k row1] & E & Hin).
  simpl in E. subst row1. now exists k, row0.
Qed.

Lemma withChange_byGender (pt : option (Obj.t Z)) (row : GroupedRow.t) :
  GroupedRow.byGender (View.withChange pt row) = GroupedRow.byGender row.
Proof.
  unfold View.withChange. destruct pt as [totals|]; [|reflexivity].
  now destruct (Obj.get totals (GroupedRow.key row)).
Qed.

Lemma withChange_groupOf (pt : option (Obj.t Z)) (row : GroupedRow.t) :
  Notions.groupOf (View.withChange pt row) = Notions.groupOf row.
Proof.
  unfold View.withChange. destruct pt as [totals|]; [|reflexivity].
  now destruct (Obj.get totals (GroupedRow.key row)).
Qed.

(** X21. The total shown above the table is the sum of the bed counts of
    the latest rows that pass the filter, whatever the sort and whatever
    the previous snapshot. *)
Theorem table_total_is_sum_of_filtered_rows
    (localeCompare : string -> string -> Z) (data : HousingData)
    (flt : View.Filter) (sortF : View.SortField) (sortD : View.SortDir) :
  Page.totalBeds (View.table localeCompare data flt sortF sortD)
  = Notions.beds (View.applyFilter flt (View.latest data)).
Proof.
  unfold Page.totalBeds, View.table. rewrite fold_left_total.
  rewrite (sumZ_Permutation _ _
             (Permutation_map GroupedRow.totalBeds (sortBy_Permutation _ _))).
  rewrite map_map.
  rewrite (map_ext _ GroupedRow.totalBeds)
    by (intro; apply withChange_totalBeds).
  rewrite weigh_values. unfold View.group.
  rewrite weigh_fold_addRow. simpl. lia.
Qed.

Lemma addRow_balanced (g : Obj.t GroupedRow.t) (r : Row) :
  Notions.balanced g -> Notions.balanced (View.addRow g r).
Proof.
  intros Hb k row Hin. unfold View.addRow in Hin.
  apply In_set in Hin as [[-> ->]|Hin]; [|now apply (Hb k)].
  cbn [GroupedRow.byGender GroupedRow.totalBeds].
  change (Notions.sumValues ?o) with (Notions.weigh (fun v : Z => v) o).
  rewrite weigh_set. unfold View.getOr0.
  assert (Hcur : Notions.weigh (fun v : Z => v)
                   (GroupedRow.byGender
                      match Obj.get g (View.groupKey r) with
                      | Some row => row
                      | None => GroupedRow.mk (View.groupKey r) (building r)
                                  (roomType r) 0%Z [] None
                      end)
                 = GroupedRow.totalBeds
                     match Obj.get g (View.groupKey r) with
                     | Some row => row
                     | None => GroupedRow.mk (View.groupKey r) (building r)
                                 (roomType r) 0%Z [] None
                     end).
  { destruct (Obj.get g (View.groupKey r)) as [row|] eqn:E; [|reflexivity].
    apply get_In in E. exact (Hb _ _ E). }
  rewrite Hcur.
  destruct (Obj.get (GroupedRow.byGender _) (gender r)); lia.
Qed.

Lemma group_balanced (f : list Row) : Notions.balanced (View.group f).
Proof.
  unfold View.group.
  assert (H : forall g, Notions.balanced g ->
                        Notions.balanced (fold_left View.addRow f g)).
  { induction f as [|r f IH]; intros g Hg; simpl; [exact Hg|].
    apply IH. now apply addRow_balanced. }
  apply H. intros k row [].
Qed.


(** X23. The table is in the order of the chosen column and direction:
    by total or by change (an absent change counting as 0) on every host,
    by building or room type when the collation of the host is a total
    preorder. *)
Theorem table_is_sorted
    (localeCompare : string -> string -> Z) (data : HousingData)
    (flt : View.Filter) (sortF : View.SortField) (sortD : View.SortDir) :
  (forall a b, localeCompare a b <= 0 \/ localeCompare b a <= 0)%Z ->
  (forall a b c, localeCompare a b <= 0 -> localeCompare b c <= 0 ->
                 localeCompare a c <= 0)%Z ->
  StronglySorted
    (fun a b =>
       match sortF, sortD with
       | View.ByBedSpaces, View.Asc => (GroupedRow.totalBeds a <= GroupedRow.totalBeds b)%Z
       | View.ByBedSpaces, View.Desc => (GroupedRow.totalBeds b <= GroupedRow.totalBeds a)%Z
       | View.ByChange, View.Asc =>
           (View.orZero (GroupedRow.change a) <= View.orZero (GroupedRow.change b))%Z
       | View.ByChange, View.Desc =>
           (View.orZero (GroupedRow.change b) <= View.orZero (GroupedRow.change a))%Z
       | View.ByBuilding, View.Asc =>
           (localeCompare (GroupedRow.building a) (GroupedRow.building b) <= 0)%Z
       | View.ByBuilding, View.Desc =>
           (localeCompare (GroupedRow.building b) (GroupedRow.building a) <= 0)%Z
       | View.ByRoomType, View.Asc =>
           (localeCompare (GroupedRow.roomType a) (GroupedRow.roomType b) <= 0)%Z
       | View.ByRoomType, View.Desc =>
           (localeCompare (GroupedRow.roomType b) (GroupedRow.roomType a) <= 0)%Z
       end)
    (View.table localeCompare data flt sortF sortD).
Proof.
  intros Htot Htrans. unfold View.table.
  apply (StronglySorted_impl
           (Notions.inOrder (View.compareRows localeCompare sortF sortD))).
  - unfold Notions.inOrder, View.compareRows.
    intros a b. destruct sortF, sortD; intro H; try exact H; lia.
  - apply sortBy_sorted; unfold View.compareRows.
    + intros a b. destruct sortF, sortD; try apply Htot; lia.
    + intros a b c. destruct sortF, sortD;
        first [lia | intros H1 H2; eapply Htrans; eassumption].
Qed.

Lemma table_is_sorted_witness :
  StronglySorted
    (fun a b => (GroupedRow.totalBeds b <= GroupedRow.totalBeds a)%Z)
    (View.table Examples.flatLocale Examples.olderThenNewer View.noFilter
                View.ByBedSpaces View.Desc).
Proof.
  apply (table_is_sorted Examples.flatLocale Examples.olderThenNewer
           View.noFilter View.ByBedSpaces View.Desc).
  - intros a b. left. unfold Examples.flatLocale. lia.
  - intros a b c _ _. unfold Examples.flatLocale. lia.
Defined.

(** X24. [sortGenders] and the breakdown column keep every gender once
    for each time it came and put the genders in the order Female, Male,
    Gender Inclusive, Non-Binary, with every other gender after them; the
    first copy of [sortGenders], which orders the other genders by the
    collation of the host, keeps every gender too. *)
Theorem sortGenders_by_rank (localeCompare : string -> string -> Z)
    (genders : list string) :
  Permutation (Page.sortGenders genders) genders
  /\ StronglySorted (fun a b => (Page.rank a <= Page.rank b)%Z)
                    (Page.sortGenders genders)
  /\ map Page.rank Page.GENDER_ORDER = [0; 1; 2; 3]%Z
  /\ (forall g, In g Page.GENDER_ORDER \/ Page.rank g = 99%Z)
  /\ Permutation (Page.sortGendersByLocale localeCompare genders) genders.
Proof.
  split; [apply sortBy_Permutation|]. split; [apply sortBy_rank_sorted|].
  split; [reflexivity|]. split; [|apply sortBy_Permutation].
  intro g. unfold Page.rank, Page.indexOf, Page.GENDER_ORDER, findIndex.
  cbn [findIndexFrom In].
  repeat match goal with
         | |- context [String.eqb g ?s] => destruct (String.eqb_spec g s)
         end; auto 6.
Qed.

(** X25. When the last two snapshots hold the same rows, as after the
    same export was uploaded twice, every row of the table shows the
    change 0, under every filter. *)
Theorem same_rows_twice_change_zero
    (localeCompare : string -> string -> Z) (data : HousingData)
    (flt : View.Filter) (sortF : View.SortField) (sortD : View.SortDir) :
  View.prev data = Some (View.latest data) ->
  Forall (fun row => GroupedRow.change row = Some 0%Z)
         (View.table localeCompare data flt sortF sortD).
Proof.
  intro Hp. apply Forall_forall. intros row Hin.
  apply table_row_origin in Hin as (k & row0 & Hin & ->).
  destruct (group_grouped (View.applyFilter flt (View.latest data))) as [Hnd Hg].
  apply (In_get _ _ _ Hnd) in Hin. specialize (Hg k). rewrite Hin in Hg.
  destruct Hg as (Hk & Ht & Hc & Hh). subst k.
  rewrite Hp. unfold View.prevTotals, View.withChange.
  rewrite get_sumByKey. cbn [Obj.get]. rewrite Hh.
  cbn [GroupedRow.change]. rewrite Ht. f_equal. lia.
Qed.

Lemma same_rows_twice_change_zero_witness :
  Forall (fun row => GroupedRow.change row = Some 0%Z)
         (View.table Examples.flatLocale (Store.load (snd Examples.uploadedTwice))
                     View.noFilter View.ByBedSpaces View.Desc).
Proof.
  apply (same_rows_twice_change_zero Examples.flatLocale
           (Store.load (snd Examples.uploadedTwice))).
  vm_compute. reflexivity.
Defined.

(** ** Row keys *)

Local Transparent View.groupKey.

Lemma readString_jsonChar (c : ascii) (rest : string) :
  Json.readString (View.jsonChar c ++ rest) = Json.consChar c (Json.readString rest).
Proof.
  destruct c as [[] [] [] [] [] [] [] []]; reflexivity.
Qed.

Lemma readString_jsonChars (s rest : string) :
  Json.readString (View.jsonChars s ++ String View.DQ rest) = Some (s, rest).
Proof.
  induction s as [|c s IH]; [reflexivity|].
  cbn [View.jsonChars]. rewrite str_app_assoc, readString_jsonChar, IH.
  reflexivity.
Qed.

Lemma expectAll_app (lit rest : string) :
  Json.expectAll lit (lit ++ rest) = Some rest.
Proof.
  induction lit as [|c lit IH]; [reflexivity|].
  cbn [Json.expectAll append]. now rewrite expect_same.
Qed.

Lemma groupKey_shape (r : Row) :
  View.groupKey r
  = (("{" ++ View.jsonString "building" ++ ":" ++ String View.DQ EmptyString)
     ++ View.jsonChars (building r) ++ String View.DQ
          (("," ++ View.jsonString "roomType" ++ ":" ++ String View.DQ EmptyString)
           ++ View.jsonChars (roomType r) ++ String View.DQ "}"))%string.
Proof.
  unfold View.groupKey. unfold View.jsonString at 2 4.
  generalize (View.jsonChars (building r)) (View.jsonChars (roomType r)).
  intros X Y. cbn. rewrite !str_app_assoc. reflexivity.
Qed.

Lemma parseKey_groupKey (r : Row) :
  Json.parseKey (View.groupKey r) = Some (building r, roomType r).
Proof.
  rewrite groupKey_shape. unfold Json.parseKey.
  rewrite expectAll_app, readString_jsonChars.
  rewrite expectAll_app, readString_jsonChars. reflexivity.
Qed.

(** rows with one key have one building and one room type, and conversely *)
Lemma groupKey_inj (r r' : Row) :
  View.groupKey r' = View.groupKey r ->
  building r' = building r /\ roomType r' = roomType r.
Proof.
  intro E. pose proof (parseKey_groupKey r') as H1.
  rewrite E, parseKey_groupKey in H1. injection H1 as -> ->. now split.
Qed.

Lemma groupKey_ext (r r' : Row) :
  building r' = building r -> roomType r' = roomType r ->
  View.groupKey r' = View.groupKey r.
Proof. intros Hb Ht. unfold View.groupKey. now rewrite Hb, Ht. Qed.

(** X26. The key of a table row reads back: [JSON.parse] of the key, as
    [TrendModal] does it, gives the building and the room type the key
    was made of, whatever characters they hold; so two rows have the same
    key exactly when they agree on both. *)
Theorem row_key_reads_back (r : Row) :
  Json.parseKey (View.groupKey r) = Some (building r, roomType r)
  /\ forall r', View.groupKey r' = View.groupKey r <->
        building r' = building r /\ roomType r' = roomType r.
Proof.
  split; [apply parseKey_groupKey|].
  intro r'. split; [apply groupKey_inj|].
  intros [Hb Ht]. now apply groupKey_ext.
Qed.

Local Opaque View.groupKey.

(** every entry of the grouping object is labelled with the building and
    the room type of a row that was read *)
Lemma fold_addRow_labelled (f : list Row) :
  forall (g : Obj.t GroupedRow.t) (done : list Row),
    (forall k row, In (k, row) g ->
       exists r, In r done /\ View.groupKey r = k
                 /\ Notions.groupOf row = (building r, roomType r)) ->
    forall k row, In (k, row) (fold_left View.addRow f g) ->
      exists r, In r (done ++ f) /\ View.groupKey r = k
                /\ Notions.groupOf row = (building r, roomType r).
Proof.
  induction f as [|r0 f IH]; intros g done Hg k row Hin; simpl in Hin.
  - rewrite app_nil_r. now apply Hg.
  - replace (done ++ r0 :: f) with ((done ++ [r0]) ++ f)
      by (rewrite <- app_assoc; reflexivity).
    apply (IH (View.addRow g r0) (done ++ [r0])); [|exact Hin].
    clear k row Hin. intros k row Hin. unfold View.addRow in Hin.
    apply In_set in Hin as [[-> ->]|Hin].
    + destruct (Obj.get g (View.groupKey r0)) as [cur|] eqn:E.
      * apply get_In in E. destruct (Hg _ _ E) as (r & Hr & Hk & Hl).
        exists r. split; [apply in_or_app; now left|]. split; [exact Hk|].
        exact Hl.
      * exists r0. split; [apply in_or_app; right; now left|].
        split; reflexivity.
    + destruct (Hg _ _ Hin) as (r & Hr & Hk & Hl).
      exists r. split; [apply in_or_app; now left|]. now split.
Qed.

Lemma group_labelled (f : list Row) (k : string) (row : GroupedRow.t) :
  In (k, row) (View.group f) ->
  exists r, In r f /\ View.groupKey r = k
            /\ Notions.groupOf row = (building r, roomType r).
Proof.
  intro Hin. apply (fold_addRow_labelled f [] []); [intros ? ? []|exact Hin].
Qed.

Lemma hasKey_In (k : string) (f : list Row) :
  Spec.hasKey k f = true <-> exists r, In r f /\ View.groupKey r = k.
Proof.
  unfold Spec.hasKey. rewrite existsb_exists.
  split; intros (r & Hr & E); exists r; split; try assumption.
  - now apply String.eqb_eq.
  - now apply String.eqb_eq.
Qed.

(** X27. The table has one row for each pair of building and room type
    that occurs among the latest rows passing the filter: no pair is
    shown twice, and a pair is shown exactly when such a row has it. *)
Theorem table_one_row_per_group
    (localeCompare : string -> string -> Z) (data : HousingData)
    (flt : View.Filter) (sortF : View.SortField) (sortD : View.SortDir) :
  NoDup (map Notions.groupOf (View.table localeCompare data flt sortF sortD))
  /\ forall b t,
       In (b, t) (map Notions.groupOf (View.table localeCompare data flt sortF sortD))
       <-> exists r, In r (View.applyFilter flt (View.latest data))
                     /\ building r = b /\ roomType r = t.
Proof.
  set (f := View.applyFilter flt (View.latest data)).
  destruct (group_grouped f) as [Hnd Hg].
  split.
  - unfold View.table. fold f.
    apply (Permutation_NoDup
             (l := map Notions.groupOf
                     (map (View.withChange (View.prevTotals flt (View.prev data)))
                          (Obj.values (View.group f))))).
    { apply Permutation_map, Permutation_sym, sortBy_Permutation. }
    rewrite map_map.
    rewrite (map_ext _ Notions.groupOf) by (intro; apply withChange_groupOf).
    assert (Hl := group_labelled f).
    revert Hnd Hl. generalize (View.group f). intros g Hnd Hl.
    induction g as [|[k row] g IH]; simpl; [constructor|].
    inversion Hnd as [|? ? Hnotin Hnd']; subst.
    constructor.
    + intro Hin. apply in_map_iff in Hin as (row' & E & Hin).
      unfold Obj.values in Hin. apply in_map_iff in Hin as ([k' row''] & E' & Hin).
      simpl in E'. subst row''.
      destruct (Hl k row (or_introl eq_refl)) as (r & _ & Hk & Hrow).
      destruct (Hl k' row' (or_intror Hin)) as (r' & _ & Hk' & Hrow').
      apply Hnotin. apply in_map_iff. exists (k', row'). split; [|exact Hin].
      simpl. rewrite <- Hk, <- Hk'.
      rewrite E, Hrow in Hrow'. injection Hrow' as Hb Ht.
      now apply groupKey_ext.
    + apply IH; [exact Hnd'|]. intros k' row' Hin. apply Hl. now right.
  - intros b t. split.
    + intro Hin. apply in_map_iff in Hin as (row & E & Hin).
      apply table_row_origin in Hin as (k & row0 & Hin & ->).
      rewrite withChange_groupOf in E.
      destruct (group_labelled _ _ _ Hin) as (r & Hr & _ & Hrow).
      exists r. split; [exact Hr|]. rewrite Hrow in E. now injection E.
    + intros (r & Hr & <- & <-).
      specialize (Hg (View.groupKey r)).
      destruct (Obj.get (View.group f) (View.groupKey r)) as [row|] eqn:E.
      * apply get_In in E.
        destruct (group_labelled _ _ _ E) as (r' & _ & Hk & Hrow).
        apply groupKey_inj in Hk as [Hb Ht].
        apply in_map_iff.
        exists (View.withChange (View.prevTotals flt (View.prev data)) row).
        split; [rewrite withChange_groupOf, Hrow; now rewrite Hb, Ht|].
        unfold View.table. apply sortBy_In. apply in_map. fold f.
        unfold Obj.values. apply in_map_iff. now exists (View.groupKey r, row).
      * assert (Spec.hasKey (View.groupKey r) f = true)
          by (apply hasKey_In; now exists r).
        congruence.
Qed.

(** ** The baseline of the colour of a total *)

Lemma filter_filter {A} (p q : A -> bool) (l : list A) :
  filter q (filter p l) = filter (fun x => p x && q x) l.
Proof.
  induction l as [|x l IH]; simpl; [reflexivity|].
  destruct (p x); simpl; [destruct (q x); now rewrite IH|exact IH].
Qed.

Lemma filter_true {A} (l : list A) : filter (fun _ => true) l = l.
Proof. induction l as [|x l IH]; simpl; [reflexivity|now rewrite IH]. Qed.

(** the four filters are one filter by gender followed by one filter that
    looks at the building and the room type alone *)
Lemma applyFilter_split (flt : View.Filter) (f : list Row) :
  View.applyFilter flt f
  = filter (Notions.groupFilter flt) (Notions.ofGender (View.f_gender flt) f).
Proof.
  unfold View.applyFilter, Notions.ofGender, Notions.groupFilter.
  set (l0 := filter (fun r => String.eqb (View.f_gender flt) "All"
                              || String.eqb (gender r) (View.f_gender flt)) f).
  assert (E0 : (if negb (String.eqb (View.f_gender flt) "All")
                then filter (fun r => String.eqb (gender r) (View.f_gender flt)) f
                else f) = l0).
  { subst l0. destruct (String.eqb (View.f_gender flt) "All"); simpl;
      [now rewrite filter_true|reflexivity]. }
  rewrite E0. clearbody l0. clear E0.
  destruct (String.eqb (View.f_building flt) "All"),
           (String.eqb (View.f_roomType flt) "All"),
           (truthy (View.f_q flt));
    cbn [negb orb andb]; rewrite ?filter_filter;
    try (symmetry; apply filter_true);
    apply filter_ext; intro r;
    repeat rewrite ?andb_true_r, ?andb_true_l, ?orb_false_l; try reflexivity;
    try (now rewrite andb_assoc).
Qed.

Lemma groupFilter_key (flt : View.Filter) (r r' : Row) :
  View.groupKey r' = View.groupKey r ->
  Notions.groupFilter flt r' = Notions.groupFilter flt r.
Proof.
  intro E. apply groupKey_inj in E as [Hb Ht].
  unfold Notions.groupFilter. now rewrite Hb, Ht.
Qed.

Lemma sumFor_filter_all (p : Row -> bool) (k : string) (l : list Row) :
  (forall r, In r l -> View.groupKey r = k -> p r = true) ->
  Spec.sumFor k (filter p l) = Spec.sumFor k l.
Proof.
  induction l as [|r l IH]; intro H; [reflexivity|]. simpl.
  rewrite sumFor_cons.
  destruct (String.eqb_spec (View.groupKey r) k) as [E|Hne].
  - rewrite (H r (or_introl eq_refl) E). rewrite sumFor_cons.
    destruct (String.eqb_spec (View.groupKey r) k); [|contradiction].
    rewrite IH; [reflexivity|]. intros r' Hr'. apply H. now right.
  - destruct (p r).
    + rewrite sumFor_cons.
      destruct (String.eqb_spec (View.groupKey r) k); [contradiction|].
      apply IH. intros r' Hr'. apply H. now right.
    + apply IH. intros r' Hr'. apply H. now right.
Qed.

(** for a group that the table shows, the filters by building, room type
    and search drop none of its rows *)
Lemma sumFor_applyFilter (flt : View.Filter) (k : string) (l : list Row) :
  Spec.hasKey k (View.applyFilter flt l) = true ->
  Spec.sumFor k (View.applyFilter flt l)
  = Spec.sumFor k (Notions.ofGender (View.f_gender flt) l)
  /\ Spec.hasKey k (Notions.ofGender (View.f_gender flt) l) = true.
Proof.
  rewrite applyFilter_split. intro H.
  apply hasKey_In in H as (r0 & Hin & Hk).
  apply filter_In in Hin as [Hin Hp]. split.
  - apply sumFor_filter_all. intros r Hr E.
    rewrite (groupFilter_key flt r0 r); [exact Hp|congruence].
  - apply hasKey_In. now exists r0.
Qed.

Lemma initialLoop_sumByKey (first : list Row) (gender0 : string) :
  forall totals,
    Page.initialLoop first gender0 totals
    = View.sumByKey (Notions.ofGender gender0 first) totals.
Proof.
  unfold Notions.ofGender.
  induction first as [|r first IH]; intro totals; [reflexivity|].
  cbn [Page.initialLoop filter].
  destruct (String.eqb gender0 "All"); cbn [negb andb orb].
  - rewrite IH. reflexivity.
  - destruct (String.eqb (gender r) gender0); cbn [negb].
    + rewrite IH. reflexivity.
    + apply IH.
Qed.

(** what [initialTotals] holds under a key *)
Lemma get_initialTotals (data : HousingData) (gender0 k : string) :
  Obj.get (Page.initialTotals data gender0) k
  = if Spec.hasKey k (Notions.ofGender gender0 (Notions.firstRows data))
    then Some (Spec.sumFor k (Notions.ofGender gender0 (Notions.firstRows data)))
    else None.
Proof.
  unfold Page.initialTotals, Notions.firstRows.
  destruct (snapshots data) as [|first rest]; [reflexivity|].
  rewrite initialLoop_sumByKey, get_sumByKey. reflexivity.
Qed.

(** X28. The baseline that colours a total is the total of the group in
    the first snapshot of the store under the gender filter, and the
    total of the row itself when the first snapshot has no such row.  So
    with a single snapshot in the store every row is coloured against its
    own total, under every filter. *)
Theorem baseline_is_first_snapshot_total
    (localeCompare : string -> string -> Z) (data : HousingData)
    (flt : View.Filter) (sortF : View.SortField) (sortD : View.SortDir)
    (row : GroupedRow.t) :
  In row (View.table localeCompare data flt sortF sortD) ->
  let first := Notions.ofGender (View.f_gender flt) (Notions.firstRows data) in
  Page.baseline (Page.initialTotals data (View.f_gender flt)) row
  = (if Spec.hasKey (GroupedRow.key row) first
     then Spec.sumFor (GroupedRow.key row) first
     else GroupedRow.totalBeds row)
  /\ (List.length (snapshots data) = 1 ->
      Page.baseline (Page.initialTotals data (View.f_gender flt)) row
      = GroupedRow.totalBeds row).
Proof.
  intros Hin first.
  assert (Hb : Page.baseline (Page.initialTotals data (View.f_gender flt)) row
               = if Spec.hasKey (GroupedRow.key row) first
                 then Spec.sumFor (GroupedRow.key row) first
                 else GroupedRow.totalBeds row).
  { unfold Page.baseline. rewrite get_initialTotals. fold first.
    now destruct (Spec.hasKey (GroupedRow.key row) first). }
  split; [exact Hb|].
  intro Hone. rewrite Hb.
  apply table_row_origin in Hin as (k & row0 & Hin & ->).
  destruct (group_grouped (View.applyFilter flt (View.latest data))) as [Hnd Hg].
  apply (In_get _ _ _ Hnd) in Hin. specialize (Hg k). rewrite Hin in Hg.
  destruct Hg as (Hk & Ht & Hc & Hh). subst k.
  rewrite withChange_key, withChange_totalBeds.
  assert (El : View.latest data = Notions.firstRows data).
  { unfold View.latest, Notions.firstRows.
    destruct (snapshots data) as [|s [|s' l]]; try discriminate Hone.
    reflexivity. }
  rewrite El in Hh, Ht.
  destruct (sumFor_applyFilter flt _ _ Hh) as [Hs Hk].
  subst first. rewrite Hk, Ht. symmetry. exact Hs.
Qed.

Lemma baseline_is_first_snapshot_total_witness :
  Page.baseline (Page.initialTotals Examples.olderThenNewer "All")
    (GroupedRow.mk (View.groupKey (mkRow "Hedrick" "Unknown" "All" 12%Z))
       "Hedrick" "Unknown" 12%Z [("All", 12%Z)] (Some (-3)%Z))
  = 15%Z.
Proof.
  destruct (baseline_is_first_snapshot_total Examples.flatLocale
              Examples.olderThenNewer View.noFilter View.ByBedSpaces View.Desc
              (GroupedRow.mk (View.groupKey (mkRow "Hedrick" "Unknown" "All" 12%Z))
                 "Hedrick" "Unknown" 12%Z [("All", 12%Z)] (Some (-3)%Z)))
    as [H _].
  - vm_compute. left. reflexivity.
  - eapply eq_trans; [exact H|]. vm_compute. reflexivity.
Defined.

(** ** The trend chart *)

Lemma beds_app (a b : list Row) :
  Notions.beds (a ++ b) = (Notions.beds a + Notions.beds b)%Z.
Proof. induction a as [|r a IH]; simpl; [reflexivity|rewrite IH; lia]. Qed.

Lemma genderRows_app (g : string) (a b : list Row) :
  Notions.genderRows g (a ++ b) = Notions.genderRows g a ++ Notions.genderRows g b.
Proof. apply filter_app. Qed.

Lemma beds_snoc (a : list Row) (r : Row) :
  Notions.beds (a ++ [r]) = (Notions.beds a + bedSpaces r)%Z.
Proof. rewrite beds_app. simpl. lia. Qed.

Lemma entryFor_snoc (old : list Row) (r : Row) :
  Notions.entryFor (old ++ [r])
  = Some (Page.plus (Notions.entryFor old) (bedSpaces r)).
Proof.
  destruct old as [|r1 rs].
  - simpl. do 2 f_equal. lia.
  - change ((r1 :: rs) ++ [r]) with (r1 :: (rs ++ [r])).
    unfold Notions.entryFor.
    change (r1 :: (rs ++ [r])) with ((r1 :: rs) ++ [r]).
    rewrite beds_snoc. reflexivity.
Qed.

(** one counted row more *)
Lemma addToPoint_summarises (ts gf : string) (done : list Row)
    (pt : Obj.t Page.Val) (r : Row) :
  (String.eqb gf "All" || String.eqb (gender r) gf) = true ->
  gender r <> "total" -> gender r <> "timestamp" ->
  Notions.summarises ts done pt ->
  Notions.summarises ts (done ++ [r]) (Page.addToPoint gf pt r).
Proof.
  intros Hc Hnt Hns (Hts & Htot & Hg). unfold Page.addToPoint. rewrite Hc.
  split; [|split].
  - rewrite !get_set.
    destruct (String.eqb_spec (gender r) "timestamp"); [contradiction|].
    destruct (String.eqb_spec "total" "timestamp"); [discriminate|].
    exact Hts.
  - rewrite !get_set.
    destruct (String.eqb_spec (gender r) "total"); [contradiction|].
    rewrite String.eqb_refl, Htot, beds_snoc. reflexivity.
  - intros g Hg1 Hg2. rewrite !get_set.
    destruct (String.eqb_spec "total" g) as [E|_]; [congruence|].
    destruct (String.eqb_spec "total" (gender r)) as [E|_]; [congruence|].
    rewrite genderRows_app. cbn [Notions.genderRows filter].
    destruct (String.eqb_spec (gender r) g) as [<-|Hne].
    + rewrite (Hg (gender r) Hnt Hns).
      symmetry. apply entryFor_snoc.
    + rewrite app_nil_r. now apply Hg.
Qed.

Lemma fold_addToPoint_summarises (ts gf : string) (rel : list Row) :
  forall (done : list Row) (pt : Obj.t Page.Val),
    (forall r, In r (Notions.ofGender gf rel) ->
       gender r <> "total" /\ gender r <> "timestamp") ->
    Notions.summarises ts done pt ->
    Notions.summarises ts (done ++ Notions.ofGender gf rel)
      (fold_left (Page.addToPoint gf) rel pt).
Proof.
  induction rel as [|r rel IH]; intros done pt Hres H.
  - simpl. now rewrite app_nil_r.
  - cbn [fold_left]. unfold Notions.ofGender in *. cbn [filter] in *.
    destruct (String.eqb gf "All" || String.eqb (gender r) gf) eqn:Hc.
    + replace (done ++ r :: filter _ rel)
        with ((done ++ [r]) ++
              filter (fun r0 => String.eqb gf "All" || String.eqb (gender r0) gf) rel)
        by (rewrite <- app_assoc; reflexivity).
      apply IH; [intros r' Hr'; apply Hres; now right|].
      destruct (Hres r (or_introl eq_refl)) as [H1 H2].
      now apply addToPoint_summarises.
    + assert (E : Page.addToPoint gf pt r = pt)
        by (unfold Page.addToPoint; now rewrite Hc).
      rewrite E. now apply IH.
Qed.

Lemma point_summarises (building0 roomType0 gf : string) (sn : Snapshot) :
  (forall r, In r (Notions.counted building0 roomType0 gf sn) ->
     gender r <> "total" /\ gender r <> "timestamp") ->
  Notions.summarises (timestamp sn) (Notions.counted building0 roomType0 gf sn)
    (Page.point building0 roomType0 gf sn).
Proof.
  intro Hres. unfold Page.point, Notions.counted.
  apply (fold_addToPoint_summarises (timestamp sn) gf _ []); [exact Hres|].
  split; [reflexivity|]. split; [reflexivity|].
  intros g H1 H2. cbn [Obj.get Notions.genderRows filter Notions.entryFor].
  destruct (String.eqb_spec "timestamp" g); [congruence|].
  destruct (String.eqb_spec "total" g); [congruence|reflexivity].
Qed.



Lemma StronglySorted_impl_on {A} (Q : A -> Prop) (R R' : A -> A -> Prop)
    (l : list A) :
  Forall Q l -> (forall a b, Q a -> Q b -> R a b -> R' a b) ->
  StronglySorted R l -> StronglySorted R' l.
Proof.
  intros HQ HR H. induction H as [|a l _ IH Hall]; [constructor|].
  inversion HQ as [|? ? Ha HQ']; subst.
  constructor; [now apply IH|].
  rewrite Forall_forall in *. intros b Hb. apply HR; auto.
Qed.

Lemma addToPoint_timestamp (gf ts : string) (pt : Obj.t Page.Val) (r : Row) :
  ((String.eqb gf "All" || String.eqb (gender r) gf) = true ->
   gender r <> "timestamp") ->
  Obj.get pt "timestamp" = Some (Page.VStr ts) ->
  Obj.get (Page.addToPoint gf pt r) "timestamp" = Some (Page.VStr ts).
Proof.
  intros Hg H. unfold Page.addToPoint.
  destruct (String.eqb gf "All" || String.eqb (gender r) gf); [|exact H].
  rewrite !get_set.
  destruct (String.eqb_spec (gender r) "timestamp") as [E|_];
    [now destruct (Hg eq_refl)|].
  destruct (String.eqb_spec "total" "timestamp"); [discriminate|exact H].
Qed.

Lemma point_timestamp (building0 roomType0 gf : string) (sn : Snapshot) :
  (forall r, In r (Notions.counted building0 roomType0 gf sn) ->
     gender r <> "timestamp") ->
  Page.timeOf (Page.point building0 roomType0 gf sn) = JSDate.parse (timestamp sn).
Proof.
  intro Hres. unfold Page.timeOf.
  assert (H : Obj.get (Page.point building0 roomType0 gf sn) "timestamp"
              = Some (Page.VStr (timestamp sn))).
  { unfold Page.point, Notions.counted, Notions.ofGender in *.
    set (rel := filter _ (rows sn)) in *. clearbody rel.
    assert (H0 : Obj.get [("timestamp", Page.VStr (timestamp sn));
                          ("total", Page.VNum 0%Z)] "timestamp"
                 = Some (Page.VStr (timestamp sn))) by reflexivity.
    revert H0. generalize [("timestamp", Page.VStr (timestamp sn));
                           ("total", Page.VNum 0%Z)].
    induction rel as [|r rel IH]; intros pt H0; [exact H0|].
    cbn [fold_left]. apply IH.
    - intros r' Hr'. apply Hres. cbn [filter].
      destruct (String.eqb gf "All" || String.eqb (gender r) gf);
        [now right|exact Hr'].
    - apply addToPoint_timestamp; [|exact H0].
      intro Hc. apply Hres. cbn [filter]. rewrite Hc. now left. }
  now rewrite H.
Qed.



(** the chart of the store of C2 starts with the older snapshot, which
    was inserted last *)
Example scenario_chart_order :
  map (fun pt => Obj.get pt "timestamp")
      (Page.chartData (snapshots Examples.newerThenOlder) "Hedrick" "Unknown" "All")
  = [Some (Page.VStr "2026-03-07T23:00:00.000Z");
     Some (Page.VStr "2026-03-09T09:00:00.000Z")]
  /\ Page.st (Page.chartData (snapshots Examples.newerThenOlder)
                "Hedrick" "Unknown" "All") = Page.VNum 15%Z
  /\ Page.en (Page.chartData (snapshots Examples.newerThenOlder)
                "Hedrick" "Unknown" "All") = Page.VNum 12%Z.
Proof. vm_compute. repeat split; reflexivity. Qed.
